(** * collectd: the statsd aggregation core and the write_influxdb_udp shipper

    A shallow embedding of [src/statsd.c] and [src/write_influxdb_udp.c],
    followed by the properties of the two plugins that the specification
    states.  The first part holds the model (machine integers, IEEE doubles,
    C strings, the collaborators that live outside the two files, then the
    two plugins function by function); the second part holds the proofs. *)

From Stdlib Require Import ZArith List String Ascii Bool Lia SpecFloat.
From Stdlib Require Import Permutation.
From Stdlib Require DecimalString OrderedTypeEx.
Import ListNotations.
Open Scope Z_scope.

(* ================================================================== *)
(** * Part I: the model *)
(* ================================================================== *)

(** ** Machine integers

    LP64 widths.  Every arithmetic result is reduced to the width of its C
    type: unsigned types wrap modulo [2^w]; signed overflow (undefined in C)
    is taken as two's-complement wrap-around. *)
Module CInt.

Definition wrap_unsigned (w x : Z) : Z := x mod 2 ^ w.

Definition wrap_signed (w x : Z) : Z :=
  (x + 2 ^ (w - 1)) mod 2 ^ w - 2 ^ (w - 1).

(** [size_t], [unsigned long], [uint64_t] and [cdtime_t]. *)
Definition u64 (x : Z) : Z := wrap_unsigned 64 x.
(** [int64_t], that is [derive_t]. *)
Definition i64 (x : Z) : Z := wrap_signed 64 x.
(** [int]. *)
Definition i32 (x : Z) : Z := wrap_signed 32 x.

Definition INT64_MIN : Z := - 2 ^ 63.
Definition INT64_MAX : Z := 2 ^ 63 - 1.
Definition UINT64_MAX : Z := 2 ^ 64 - 1.

End CInt.

(** ** IEEE-754 binary64

    [double] (collectd's [gauge_t]) is the standard library's [spec_float] at
    precision 53 and maximal exponent 1024, so additions, subtractions and
    divisions round exactly as the hardware does. *)
Module Double.

Definition prec : Z := 53.
Definition emax : Z := 1024.

Definition double : Type := spec_float.

Definition add : double -> double -> double := SFadd prec emax.
Definition sub : double -> double -> double := SFsub prec emax.
Definition div : double -> double -> double := SFdiv prec emax.
Definition opp : double -> double := SFopp.

Definition le (x y : double) : bool := SFleb x y.
Definition gt (x y : double) : bool := SFltb y x.

Definition NAN : double := S754_nan.
Definition zero : double := S754_zero false.

(** [(double) n] for an integer [n]. *)
Definition of_Z (n : Z) : double := binary_normalize prec emax n 0 false.

Definition one : double := of_Z 1.

Definition isfinite (x : double) : bool :=
  match x with
  | S754_zero _ | S754_finite _ _ _ => true
  | S754_infinity _ | S754_nan => false
  end.

Definition isnan (x : double) : bool :=
  match x with S754_nan => true | _ => false end.

(** The integer nearest to [m / 2^k] for [k > 0], ties going to the even
    neighbour (the default rounding direction). *)
Definition round_half_even (m k : Z) : Z :=
  let q := Z.shiftr m k in
  let r := m - Z.shiftl q k in
  match r ?= Z.shiftl 1 (k - 1) with
  | Lt => q
  | Gt => q + 1
  | Eq => if Z.even q then q else q + 1
  end.

(** The mathematical integer [nearbyint] rounds a finite [x] to. *)
Definition nearbyint_Z (x : double) : option Z :=
  match x with
  | S754_zero _ => Some 0
  | S754_finite s m e =>
      Some (cond_Zopp s (if 0 <=? e then Z.shiftl (Zpos m) e
                         else round_half_even (Zpos m) (- e)))
  | S754_infinity _ | S754_nan => None
  end.

(** C99 [nearbyint] in the default rounding mode: round to the nearest
    integer, ties to even; zeros (with their sign), infinities and NaN are
    returned unchanged, and a number without fractional bits is itself. *)
Definition nearbyint (x : double) : double :=
  match x with
  | S754_finite s m e =>
      if 0 <=? e then x
      else binary_normalize prec emax
             (cond_Zopp s (round_half_even (Zpos m) (- e))) 0 s
  | _ => x
  end.

(** The integer part of a finite [x] (rounding toward zero). *)
Definition trunc_Z (x : double) : option Z :=
  match x with
  | S754_zero _ => Some 0
  | S754_finite s m e =>
      Some (cond_Zopp s (if 0 <=? e then Z.shiftl (Zpos m) e
                         else Z.shiftr (Zpos m) (- e)))
  | S754_infinity _ | S754_nan => None
  end.

(** The largest integer not above a finite [x]. *)
Definition floor_Z (x : double) : option Z :=
  match x with
  | S754_zero _ => Some 0
  | S754_finite s m e =>
      Some (if 0 <=? e then cond_Zopp s (Z.shiftl (Zpos m) e)
            else Z.shiftr (cond_Zopp s (Zpos m)) (- e))
  | S754_infinity _ | S754_nan => None
  end.

(** [(int64_t) x]: the value is truncated toward zero.  Converting a NaN, an
    infinity or a value outside the range of [int64_t] is undefined in C;
    the model returns what x86-64's [cvttsd2si] returns, [INT64_MIN]. *)
Definition to_int64 (x : double) : Z :=
  match trunc_Z x with
  | Some n =>
      if (CInt.INT64_MIN <=? n) && (n <=? CInt.INT64_MAX) then n
      else CInt.INT64_MIN
  | None => CInt.INT64_MIN
  end.

(** [printf("%.0f", x)] for a finite [x]: the nearest integer, ties to even,
    written in decimal; a negative zero or a negative value rounding to zero
    keeps its sign. *)
Definition sign_bit (x : double) : bool :=
  match x with
  | S754_zero s | S754_infinity s | S754_finite s _ _ => s
  | S754_nan => false
  end.

Definition printf_0f (x : double) : string :=
  match nearbyint_Z x with
  | Some n =>
      ((if sign_bit x then "-" else "")
       ++ DecimalString.NilZero.string_of_uint
            (N.to_uint (Z.to_N (Z.abs n))))%string
  | None => if isnan x then "nan"%string
            else if sign_bit x then "-inf"%string else "inf"%string
  end.

End Double.


(** ** C strings

    A [char *] is the text before its terminating NUL, as a [string].  The
    parsers below search a separator, overwrite it with NUL and step past it;
    [strchr_cut] and [strrchr_cut] return the two texts this leaves. *)
Module CStr.

(** The first [n] characters of [s] (all of it when it is shorter). *)
Fixpoint take (n : nat) (s : string) : string :=
  match n, s with
  | S n', String a r => String a (take n' r)
  | _, _ => EmptyString
  end.

(** [sstrncpy (dest, src, n)], and [snprintf (dest, n, ...)] of the text
    [src]: at most [n - 1] characters, then the NUL. *)
Definition sstrncpy (src : string) (n : nat) : string := take (Nat.pred n) src.

(** [s + n]. *)
Fixpoint skip (n : nat) (s : string) : string :=
  match n, s with
  | S n', String _ r => skip n' r
  | _, _ => s
  end.

(** The character [c] occurs in [s]. *)
Fixpoint mem (c : ascii) (s : string) : bool :=
  match s with
  | EmptyString => false
  | String a r => Ascii.eqb a c || mem c r
  end.

(** [p = strchr (s, c); *p = 0; p++]: the text before the first [c] and the
    text after it; [None] when [strchr] returns NULL. *)
Fixpoint strchr_cut (s : string) (c : ascii) : option (string * string) :=
  match s with
  | EmptyString => None
  | String a r =>
      if Ascii.eqb a c then Some (EmptyString, r)
      else match strchr_cut r c with
           | Some (before, after) => Some (String a before, after)
           | None => None
           end
  end.

(** [p = strrchr (s, c); *p = 0; p++]: the same around the last [c]. *)
Fixpoint strrchr_cut (s : string) (c : ascii) : option (string * string) :=
  match s with
  | EmptyString => None
  | String a r =>
      match strrchr_cut r c with
      | Some (before, after) => Some (String a before, after)
      | None => if Ascii.eqb a c then Some (EmptyString, r) else None
      end
  end.

(** [s[0]], NUL for the empty string. *)
Definition first_char (s : string) : ascii :=
  match s with
  | EmptyString => Ascii.zero
  | String a _ => a
  end.

(** The pieces of [s] between occurrences of [c]. *)
Fixpoint split_on (c : ascii) (s : string) : list string :=
  match s with
  | EmptyString => [EmptyString]
  | String a r =>
      if Ascii.eqb a c then EmptyString :: split_on c r
      else match split_on c r with
           | h :: t => String a h :: t
           | [] => [String a EmptyString]
           end
  end.

(** What a C function sees of a byte buffer: the bytes before the first NUL. *)
Fixpoint c_str (s : string) : string :=
  match s with
  | EmptyString => EmptyString
  | String a r => if Ascii.eqb a Ascii.zero then EmptyString else String a (c_str r)
  end.

End CStr.

(** ** The AVL tree of [utils/avltree] *)
Module Avl.

(** Modelled from the spec: [utils/avltree/avltree.c] is not among the
    sources.  The specification describes the table as "a flat ordered map
    keyed by bytes with standard lexicographic ordering"; the model is the
    list of the tree's entries in key order, which is also the order in which
    an iterator visits them.  Allocation never fails. *)
Definition c_avl_tree_t (V : Type) : Type := list (string * V).

Definition c_avl_create {V : Type} : c_avl_tree_t V := [].

Fixpoint c_avl_get {V : Type} (t : c_avl_tree_t V) (key : string) : option V :=
  match t with
  | [] => None
  | (k, v) :: rest => if String.eqb key k then Some v else c_avl_get rest key
  end.

(** Status 0 and the new entry in its place, or status 1 and the tree
    unchanged when the key is already there. *)
Fixpoint c_avl_insert {V : Type} (t : c_avl_tree_t V) (key : string) (v : V)
  : c_avl_tree_t V * Z :=
  match t with
  | [] => ([(key, v)], 0)
  | (k, w) :: rest =>
      match String.compare key k with
      | Eq => (t, 1)
      | Lt => ((key, v) :: t, 0)
      | Gt => let '(rest', status) := c_avl_insert rest key v in
              ((k, w) :: rest', status)
      end
  end.

(** The removed value and the remaining tree, or [None] (a non-zero status)
    when the key is absent. *)
Fixpoint c_avl_remove {V : Type} (t : c_avl_tree_t V) (key : string)
  : option (V * c_avl_tree_t V) :=
  match t with
  | [] => None
  | (k, v) :: rest =>
      if String.eqb key k then Some (v, rest)
      else match c_avl_remove rest key with
           | Some (w, rest') => Some (w, (k, v) :: rest')
           | None => None
           end
  end.

(** The keys in iteration order. *)
Definition keys {V : Type} (t : c_avl_tree_t V) : list string := map fst t.

Definition c_avl_size {V : Type} (t : c_avl_tree_t V) : Z :=
  Z.of_nat (List.length t).

(** A write through a pointer to the value stored under [key]. *)
Fixpoint store {V : Type} (t : c_avl_tree_t V) (key : string) (v : V)
  : c_avl_tree_t V :=
  match t with
  | [] => []
  | (k, w) :: rest =>
      if String.eqb key k then (k, v) :: rest else (k, w) :: store rest key v
  end.

End Avl.

(** ** The latency histogram of [utils/latency] *)
Module Latency.

(** Modelled from the spec: [utils/latency/latency.c] is not among the
    sources.  The specification lists it as "a LatencyHistogram library
    providing add/min/max/average/sum/count/percentile/reset over a
    time-duration quantity", whose count "equals the number of recorded
    samples".  The model keeps the recorded durations, the most recent
    first; a percentile is the smallest recorded duration that at least that
    share of the samples does not exceed.  The getters take the pointer held
    by the metric, which may be NULL ([None]). *)
Definition latency_counter_t : Type := list Z.

Definition latency_counter_create : latency_counter_t := [].

Definition latency_counter_add (lc : latency_counter_t) (latency : Z)
  : latency_counter_t := latency :: lc.

Definition latency_counter_reset (lc : option latency_counter_t)
  : option latency_counter_t :=
  match lc with
  | Some _ => Some []
  | None => None
  end.

Definition samples (lc : option latency_counter_t) : list Z :=
  match lc with
  | Some l => l
  | None => []
  end.

Definition latency_counter_get_num (lc : option latency_counter_t) : Z :=
  Z.of_nat (List.length (samples lc)).

Definition latency_counter_get_sum (lc : option latency_counter_t) : Z :=
  fold_right (fun d acc => CInt.u64 (d + acc)) 0 (samples lc).

Definition latency_counter_get_min (lc : option latency_counter_t) : Z :=
  match samples lc with
  | [] => 0
  | d :: l => fold_right Z.min d l
  end.

Definition latency_counter_get_max (lc : option latency_counter_t) : Z :=
  fold_right Z.max 0 (samples lc).

Definition latency_counter_get_average (lc : option latency_counter_t) : Z :=
  match samples lc with
  | [] => 0
  | _ => latency_counter_get_sum lc / latency_counter_get_num lc
  end.

Definition count_le (l : list Z) (d : Z) : Z :=
  Z.of_nat (List.length (filter (fun x => x <=? d) l)).

Definition latency_counter_get_percentile
  (lc : option latency_counter_t) (percent : Double.double) : Z :=
  let l := samples lc in
  let n := Z.of_nat (List.length l) in
  let reaches d :=
    Double.le percent
      (Double.div (Double.of_Z (100 * count_le l d)) (Double.of_Z n)) in
  match filter reaches l with
  | [] => 0
  | d :: ds => fold_right Z.min d ds
  end.

End Latency.

(** ** What the two plugins take from the rest of collectd and from libc

    [plugin.h], [utils_time.h] and the C library are outside the two source
    files; the model is parametric in what it needs of them. *)
Class Externals : Type := {
  (** The size of the name buffers of [plugin.h]. *)
  DATA_MAX_NAME_LEN : nat;
  (** The buffers hold collectd's own plugin and type names ("latency" is
      the longest the statsd plugin writes, seven characters and a NUL). *)
  DATA_MAX_NAME_LEN_holds_types : (8 <= DATA_MAX_NAME_LEN)%nat;
  (** [strtod (str, &endptr)]: the value and [endptr - str], the number of
      characters consumed. *)
  strtod : string -> Double.double * nat;
  (** The conversion macros of [utils_time.h]. *)
  MS_TO_CDTIME_T : Double.double -> Z;
  CDTIME_T_TO_DOUBLE : Z -> Double.double
}.

(** ** [src/statsd.c] *)
Module Statsd.

Import CInt Double CStr Avl Latency.

Inductive metric_type_t : Type :=
  STATSD_COUNTER | STATSD_TIMER | STATSD_GAUGE | STATSD_SET.

Record statsd_metric_t : Type := {
  type : metric_type_t;
  value : double;
  counter : Z;                           (* derive_t *)
  latency : option latency_counter_t;    (* NULL until the first sample *)
  set : option (c_avl_tree_t unit);      (* NULL until the first member *)
  updates_num : Z                        (* unsigned long *)
}.

(** Assignments to single fields of [*metric]. *)
Definition with_value (v : double) (m : statsd_metric_t) : statsd_metric_t :=
  {| type := type m; value := v; counter := counter m; latency := latency m;
     set := set m; updates_num := updates_num m |}.

Definition with_counter (c : Z) (m : statsd_metric_t) : statsd_metric_t :=
  {| type := type m; value := value m; counter := c; latency := latency m;
     set := set m; updates_num := updates_num m |}.

Definition with_latency (l : option latency_counter_t) (m : statsd_metric_t)
  : statsd_metric_t :=
  {| type := type m; value := value m; counter := counter m; latency := l;
     set := set m; updates_num := updates_num m |}.

Definition with_set (s : option (c_avl_tree_t unit)) (m : statsd_metric_t)
  : statsd_metric_t :=
  {| type := type m; value := value m; counter := counter m;
     latency := latency m; set := s; updates_num := updates_num m |}.

Definition with_updates_num (n : Z) (m : statsd_metric_t) : statsd_metric_t :=
  {| type := type m; value := value m; counter := counter m;
     latency := latency m; set := set m; updates_num := n |}.

(** [metric->updates_num++]. *)
Definition incr_updates_num (m : statsd_metric_t) : statsd_metric_t :=
  with_updates_num (u64 (updates_num m + 1)) m.

(** The configuration variables [conf_*]. *)
Record statsd_conf : Type := {
  conf_delete_counters : bool;
  conf_delete_timers : bool;
  conf_delete_gauges : bool;
  conf_delete_sets : bool;
  conf_timer_percentile : list double;
  conf_counter_sum : bool;
  conf_counter_gauge : bool;
  conf_timer_lower : bool;
  conf_timer_upper : bool;
  conf_timer_sum : bool;
  conf_timer_count : bool
}.

(** [metrics_tree]. *)
Definition metrics_tree_t : Type := c_avl_tree_t statsd_metric_t.

(** [value_t] is a union; the statsd plugin writes its [gauge] and [derive]
    members. *)
Inductive value_t : Type :=
| gauge (g : double)
| derive (d : Z).

(** [v.gauge].  The plugin reads this member only while it is the one last
    written; after a write of [derive] the read would reinterpret the bits,
    for which the model has no use and answers NaN. *)
Definition gauge_member (v : value_t) : double :=
  match v with
  | gauge g => g
  | derive _ => NAN
  end.

(** The fields of [value_list_t] that the plugin sets; [vl_time] stays 0
    ([VALUE_LIST_INIT]) unless it is assigned. *)
Record value_list_t : Type := {
  vl_values : value_t;
  vl_time : Z;
  vl_plugin : string;
  vl_type : string;
  vl_type_instance : string
}.

Section Model.

Context {E : Externals}.

Definition key_tag (ty : metric_type_t) : ascii :=
  match ty with
  | STATSD_COUNTER => "c"
  | STATSD_TIMER => "t"
  | STATSD_GAUGE => "g"
  | STATSD_SET => "s"
  end%char.

(** The key built in [char key[DATA_MAX_NAME_LEN + 2]]. *)
Definition metric_key (name : string) (ty : metric_type_t) : string :=
  String (key_tag ty) (String ":"%char (sstrncpy name DATA_MAX_NAME_LEN)).

(** What [calloc] and the three assignments after it leave in a new metric. *)
Definition new_metric (ty : metric_type_t) : statsd_metric_t :=
  {| type := ty; value := S754_zero false; counter := 0; latency := None;
     set := None; updates_num := 0 |}.

(** The pointer the C function returns is the key of the entry, together
    with the entry's contents and the tree that now holds it; [None] is
    NULL. *)
Definition statsd_metric_lookup_unsafe
  (name : string) (ty : metric_type_t) (t : metrics_tree_t)
  : option (string * statsd_metric_t * metrics_tree_t) :=
  let key := metric_key name ty in
  match c_avl_get t key with
  | Some metric => Some (key, metric, t)
  | None =>
      let metric := new_metric ty in
      let '(t', status) := c_avl_insert t key metric in
      if status =? 0 then Some (key, metric, t') else None
  end.

Definition statsd_metric_set
  (name : string) (v : double) (ty : metric_type_t) (t : metrics_tree_t)
  : Z * metrics_tree_t :=
  match statsd_metric_lookup_unsafe name ty t with
  | None => (-1, t)
  | Some (key, metric, t') =>
      (0, store t' key (incr_updates_num (with_value v metric)))
  end.

Definition statsd_metric_add
  (name : string) (delta : double) (ty : metric_type_t) (t : metrics_tree_t)
  : Z * metrics_tree_t :=
  match statsd_metric_lookup_unsafe name ty t with
  | None => (-1, t)
  | Some (key, metric, t') =>
      (0, store t' key
            (incr_updates_num (with_value (add (value metric) delta) metric)))
  end.

(** [None] is the status -1. *)
Definition statsd_parse_value (str : string) : option double :=
  let '(v, consumed) := strtod str in
  if (consumed =? 0)%nat || (consumed <? String.length str)%nat then None
  else Some v.

(** The sample rate read from [extra]: [inl status] is an early return,
    [inr scale] the scale to divide by (1.0 without [extra]). *)
Definition parse_scale (extra : option string) : Z + double :=
  match extra with
  | None => inr one
  | Some e =>
      if negb (Ascii.eqb (first_char e) "@"%char) then inl (-1)
      else match statsd_parse_value (skip 1 e) with
           | None => inl (-1)
           | Some scale =>
               if negb (isfinite scale) || le scale zero || gt scale one
               then inl (-1)
               else inr scale
           end
  end.

Definition statsd_handle_counter
  (name value_str : string) (extra : option string) (t : metrics_tree_t)
  : Z * metrics_tree_t :=
  match parse_scale extra with
  | inl status => (status, t)
  | inr scale =>
      match statsd_parse_value value_str with
      | None => (-1, t)
      | Some v => statsd_metric_add name (div v scale) STATSD_COUNTER t
      end
  end.

Definition statsd_handle_gauge
  (name value_str : string) (t : metrics_tree_t) : Z * metrics_tree_t :=
  match statsd_parse_value value_str with
  | None => (-1, t)
  | Some v =>
      if Ascii.eqb (first_char value_str) "+"%char
         || Ascii.eqb (first_char value_str) "-"%char
      then statsd_metric_add name v STATSD_GAUGE t
      else statsd_metric_set name v STATSD_GAUGE t
  end.

Definition statsd_handle_timer
  (name value_str : string) (extra : option string) (t : metrics_tree_t)
  : Z * metrics_tree_t :=
  match parse_scale extra with
  | inl status => (status, t)
  | inr scale =>
      match statsd_parse_value value_str with
      | None => (-1, t)
      | Some value_ms =>
          let v := MS_TO_CDTIME_T (div value_ms scale) in
          match statsd_metric_lookup_unsafe name STATSD_TIMER t with
          | None => (-1, t)
          | Some (key, metric, t') =>
              let lc := match latency metric with
                        | Some lc => lc
                        | None => latency_counter_create
                        end in
              (0, store t' key
                    (incr_updates_num
                       (with_latency (Some (latency_counter_add lc v))
                          metric)))
          end
      end
  end.

Definition statsd_handle_set
  (name set_key_orig : string) (t : metrics_tree_t) : Z * metrics_tree_t :=
  match statsd_metric_lookup_unsafe name STATSD_SET t with
  | None => (-1, t)
  | Some (key, metric, t') =>
      let members := match set metric with
                     | Some s => s
                     | None => c_avl_create
                     end in
      let '(members', _) := c_avl_insert members set_key_orig tt in
      (0, store t' key (incr_updates_num (with_set (Some members') metric)))
  end.

(** The four texts [statsd_parse_line] cuts its buffer into, before any of
    them is interpreted: [name], [value], [type] and [extra]. *)
Definition split_line (buffer : string)
  : option (string * string * string * option string) :=
  match strchr_cut buffer "|"%char with
  | None => None
  | Some (name_value, type_extra) =>
      match strrchr_cut name_value ":"%char with
      | None => None
      | Some (name, value_str) =>
          match strchr_cut type_extra "|"%char with
          | Some (ty, extra) => Some (name, value_str, ty, Some extra)
          | None => Some (name, value_str, type_extra, None)
          end
      end
  end.

Definition statsd_parse_line (buffer : string) (t : metrics_tree_t)
  : Z * metrics_tree_t :=
  match split_line buffer with
  | None => (-1, t)
  | Some (name, value_str, ty, extra) =>
      if String.eqb "c" ty then statsd_handle_counter name value_str extra t
      else if String.eqb "ms" ty
      then statsd_handle_timer name value_str extra t
      else
        (* extra is only valid for counters and timers *)
        match extra with
        | Some _ => (-1, t)
        | None =>
            if String.eqb "g" ty then statsd_handle_gauge name value_str t
            else if String.eqb "s" ty
            then statsd_handle_set name value_str t
            else (-1, t)
        end
  end.

(** The tree after the whole buffer, and the lines reported as unparseable
    (each cut to the 64-byte [orig]). *)
Definition statsd_parse_buffer (buffer : string) (t : metrics_tree_t)
  : metrics_tree_t * list string :=
  fold_left
    (fun '(t, errors) line =>
       match line with
       | EmptyString => (t, errors)
       | _ =>
           let '(status, t') := statsd_parse_line line t in
           if status =? 0 then (t', errors)
           else (t', errors ++ [sstrncpy line 64])
       end)
    (split_on "010"%char buffer) (t, []).

(** [statsd_network_read] on a datagram that [recv] delivered. *)
Definition statsd_network_read (datagram : string) (t : metrics_tree_t)
  : metrics_tree_t * list string :=
  statsd_parse_buffer (c_str (take 4095 datagram)) t.

(** [statsd_metric_clear_set_unsafe]: every member is picked out of the set;
    the (empty) tree stays allocated. *)
Definition statsd_metric_clear_set_unsafe (metric : statsd_metric_t)
  : statsd_metric_t :=
  match set metric with
  | None => metric
  | Some _ => with_set (Some c_avl_create) metric
  end.

(** Assignments to the fields of the local [vl]. *)
Definition vl_set_type (ty : string) (vl : value_list_t) : value_list_t :=
  {| vl_values := vl_values vl; vl_time := vl_time vl;
     vl_plugin := vl_plugin vl; vl_type := sstrncpy ty DATA_MAX_NAME_LEN;
     vl_type_instance := vl_type_instance vl |}.

Definition vl_set_type_instance (text : string) (vl : value_list_t)
  : value_list_t :=
  {| vl_values := vl_values vl; vl_time := vl_time vl;
     vl_plugin := vl_plugin vl; vl_type := vl_type vl;
     vl_type_instance := sstrncpy text DATA_MAX_NAME_LEN |}.

Definition vl_set_values (v : value_t) (vl : value_list_t) : value_list_t :=
  {| vl_values := v; vl_time := vl_time vl; vl_plugin := vl_plugin vl;
     vl_type := vl_type vl; vl_type_instance := vl_type_instance vl |}.

Definition vl_set_time (now : Z) (vl : value_list_t) : value_list_t :=
  {| vl_values := vl_values vl; vl_time := now; vl_plugin := vl_plugin vl;
     vl_type := vl_type vl; vl_type_instance := vl_type_instance vl |}.

Definition type_of_metric (ty : metric_type_t) : string :=
  match ty with
  | STATSD_GAUGE => "gauge"
  | STATSD_TIMER => "latency"
  | STATSD_SET => "objects"
  | STATSD_COUNTER => "derive"
  end.

(** [vl] as the first statements of [statsd_metric_submit_unsafe] leave it. *)
Definition vl_init (name : string) (metric : statsd_metric_t) : value_list_t :=
  vl_set_type_instance name
    (vl_set_type (type_of_metric (type metric))
       {| vl_values := gauge NAN; vl_time := 0;
          vl_plugin := sstrncpy "statsd" DATA_MAX_NAME_LEN;
          vl_type := EmptyString; vl_type_instance := EmptyString |}).

(** One statistic of a timer: [snprintf] of the instance, the value (NaN
    without events), [plugin_dispatch_values]. *)
Definition timer_stat (name suffix : string) (have_events : bool)
  (stat : Z) (vl : value_list_t) : value_list_t :=
  vl_set_values
    (gauge (if have_events then CDTIME_T_TO_DOUBLE stat else NAN))
    (vl_set_type_instance (name ++ suffix) vl).

(** The timer branch.  [vl] is one variable that every [snprintf] and
    assignment overwrites; each call of [plugin_dispatch_values] sees its
    current contents, which the result lists in order. *)
Definition submit_timer (conf : statsd_conf) (name : string)
  (metric : statsd_metric_t) (now : Z) (vl0 : value_list_t)
  : list value_list_t :=
  let have_events := 0 <? updates_num metric in
  (* Make sure all timer metrics share the *same* timestamp. *)
  let vl := vl_set_time now vl0 in
  let lc := latency metric in
  [timer_stat name "-average" have_events (latency_counter_get_average lc) vl]
  ++ (if conf_timer_lower conf
      then [timer_stat name "-lower" have_events
              (latency_counter_get_min lc) vl]
      else [])
  ++ (if conf_timer_upper conf
      then [timer_stat name "-upper" have_events
              (latency_counter_get_max lc) vl]
      else [])
  ++ (if conf_timer_sum conf
      then [timer_stat name "-sum" have_events
              (latency_counter_get_sum lc) vl]
      else [])
  ++ map (fun percent =>
            timer_stat name ("-percentile-" ++ printf_0f percent) have_events
              (latency_counter_get_percentile lc percent) vl)
       (conf_timer_percentile conf)
  ++ (if conf_timer_count conf
      then [vl_set_values (gauge (of_Z (latency_counter_get_num lc)))
              (vl_set_type_instance (name ++ "-count")
                 (vl_set_type "gauge" vl))]
      else []).

(** The counter branch: the values dispatched before the final "derive"
    one, the [vl] left for the final dispatch, and the metric. *)
Definition submit_counter (conf : statsd_conf) (metric : statsd_metric_t)
  (vl0 : value_list_t) : list value_list_t * value_list_t * statsd_metric_t :=
  let delta := nearbyint (value metric) in
  (* if (conf_counter_sum) *)
  let '(out1, vl1) :=
    if conf_counter_sum conf
    then let vl := vl_set_values (gauge delta) (vl_set_type "count" vl0) in
         ([vl], vl_set_type "derive" vl)
    else ([], vl0) in
  (* if (conf_counter_gauge) *)
  let '(out2, vl2, metric2) :=
    if conf_counter_gauge conf
    then let previous_gauge := gauge_member (vl_values vl1) in
         let vl := vl_set_values (gauge (value metric))
                     (vl_set_type "gauge" vl1) in
         let zeroed := with_value (S754_zero false) metric in
         (* plugin_dispatch_values (&vl) runs while metric->value is 0.0 *)
         let restored := with_value (gauge_member (vl_values vl)) zeroed in
         ([vl],
          vl_set_values (gauge previous_gauge) (vl_set_type "derive" vl),
          restored)
    else ([], vl1, metric) in
  (* Rather than resetting value to zero, subtract delta so we correctly
     keep track of residuals. *)
  let metric3 := with_value (sub (value metric2) delta) metric2 in
  let metric4 := with_counter (i64 (counter metric3 + to_int64 delta)) metric3 in
  (out1 ++ out2, vl_set_values (derive (counter metric4)) vl2, metric4).

(** The values handed to [plugin_dispatch_values], in order, and the metric
    afterwards.  [now] is what [cdtime ()] returns if it is called. *)
Definition statsd_metric_submit_unsafe (conf : statsd_conf) (name : string)
  (metric : statsd_metric_t) (now : Z) : list value_list_t * statsd_metric_t :=
  let vl := vl_init name metric in
  match type metric with
  | STATSD_GAUGE => ([vl_set_values (gauge (value metric)) vl], metric)
  | STATSD_TIMER =>
      (submit_timer conf name metric now vl,
       with_latency (latency_counter_reset (latency metric)) metric)
  | STATSD_SET =>
      ([vl_set_values
          (gauge (match set metric with
                  | None => S754_zero false
                  | Some s => of_Z (c_avl_size s)
                  end)) vl],
       metric)
  | STATSD_COUNTER =>
      let '(out, vl', metric') := submit_counter conf metric vl in
      (out ++ [vl'], metric')
  end.

(** The condition under which [statsd_read] schedules a metric for deletion
    instead of submitting it. *)
Definition metric_type_eqb (a b : metric_type_t) : bool :=
  match a, b with
  | STATSD_COUNTER, STATSD_COUNTER | STATSD_TIMER, STATSD_TIMER
  | STATSD_GAUGE, STATSD_GAUGE | STATSD_SET, STATSD_SET => true
  | _, _ => false
  end.

Definition delete_when_idle (conf : statsd_conf) (metric : statsd_metric_t)
  : bool :=
  (updates_num metric =? 0)
  && ((conf_delete_counters conf
       && metric_type_eqb (type metric) STATSD_COUNTER)
      || (conf_delete_timers conf
          && metric_type_eqb (type metric) STATSD_TIMER)
      || (conf_delete_gauges conf
          && metric_type_eqb (type metric) STATSD_GAUGE)
      || (conf_delete_sets conf
          && metric_type_eqb (type metric) STATSD_SET)).

(** "Reset the metric." *)
Definition reset_metric (metric : statsd_metric_t) : statsd_metric_t :=
  let metric' := with_updates_num 0 metric in
  match type metric' with
  | STATSD_SET => statsd_metric_clear_set_unsafe metric'
  | _ => metric'
  end.

(** The iterator loop of [statsd_read] over the entries from the [i]-th on:
    the entries as the loop leaves them, the values dispatched, and
    [to_be_deleted].  No entry enters or leaves the tree here.  [clock i] is
    the time [cdtime ()] shows while the [i]-th entry is visited. *)
Fixpoint statsd_read_loop (conf : statsd_conf) (clock : nat -> Z) (i : nat)
  (entries : metrics_tree_t)
  : metrics_tree_t * list value_list_t * list string :=
  match entries with
  | [] => ([], [], [])
  | (name, metric) :: rest =>
      let '(rest', dispatched, to_be_deleted) :=
        statsd_read_loop conf clock (S i) rest in
      if delete_when_idle conf metric
      then ((name, metric) :: rest', dispatched, name :: to_be_deleted)
      else
        (* Names have a prefix, e.g. "c:", which determines the (statsd)
           type.  Remove this here. *)
        let '(vls, metric') :=
          statsd_metric_submit_unsafe conf (skip 2 name) metric (clock i) in
        ((name, reset_metric metric') :: rest', vls ++ dispatched,
         to_be_deleted)
  end.

(** The second loop of [statsd_read]: [c_avl_remove] of each collected name;
    a failed removal is logged and skipped. *)
Definition remove_deleted (t : metrics_tree_t) (to_be_deleted : list string)
  : metrics_tree_t :=
  fold_left
    (fun t name =>
       match c_avl_remove t name with
       | Some (_, t') => t'
       | None => t
       end)
    to_be_deleted t.

(** [statsd_read]: the status, [metrics_tree] afterwards and the values
    dispatched.  [None] is a NULL [metrics_tree]. *)
Definition statsd_read (conf : statsd_conf) (clock : nat -> Z)
  (metrics_tree : option metrics_tree_t)
  : Z * option metrics_tree_t * list value_list_t :=
  match metrics_tree with
  | None => (0, None, [])
  | Some t =>
      let '(t', dispatched, to_be_deleted) :=
        statsd_read_loop conf clock 0 t in
      (0, Some (remove_deleted t' to_be_deleted), dispatched)
  end.

(** *** Notions the properties are stated with *)

(** The metric [statsd_metric_lookup_unsafe] hands to its caller: the entry
    under the key, or a new one. *)
Definition looked_up (t : metrics_tree_t) (name : string) (ty : metric_type_t)
  : statsd_metric_t :=
  match c_avl_get t (metric_key name ty) with
  | Some metric => metric
  | None => new_metric ty
  end.

(** What one round of the read loop dispatches for an entry it submits, and
    what it leaves of the entry. *)
Definition emitted (conf : statsd_conf) (key : string)
  (metric : statsd_metric_t) (now : Z) : list value_list_t :=
  fst (statsd_metric_submit_unsafe conf (skip 2 key) metric now).

Definition flushed (conf : statsd_conf) (key : string)
  (metric : statsd_metric_t) (now : Z) : statsd_metric_t :=
  reset_metric (snd (statsd_metric_submit_unsafe conf (skip 2 key) metric now)).

(** The values the read loop dispatches over a run of entries, the first of
    them being the [i]-th of the tree. *)
Definition dispatched_over (conf : statsd_conf) (clock : nat -> Z) (i : nat)
  (entries : metrics_tree_t) : list value_list_t :=
  snd (fst (statsd_read_loop conf clock i entries)).

(** The delete-on-idle option of a kind. *)
Definition delete_flag (conf : statsd_conf) (ty : metric_type_t) : bool :=
  match ty with
  | STATSD_COUNTER => conf_delete_counters conf
  | STATSD_TIMER => conf_delete_timers conf
  | STATSD_GAUGE => conf_delete_gauges conf
  | STATSD_SET => conf_delete_sets conf
  end.

(** Trees as the plugin builds them: no key twice, and every key carries
    the tag of its metric's type. *)
Definition tree_ok (t : metrics_tree_t) : Prop :=
  NoDup (keys t)
  /\ Forall (fun e => first_char (fst e) = key_tag (type (snd e))) t.

(** The life of one counter cell: updates by [statsd_metric_add] with
    [value / scale], and flushes that submit it. *)
Inductive counter_event : Type :=
| counter_update (v scale : double)
| counter_flush.

Definition counter_step (conf : statsd_conf) (metric : statsd_metric_t)
  (ev : counter_event) : statsd_metric_t :=
  match ev with
  | counter_update v scale =>
      incr_updates_num (with_value (add (value metric) (div v scale)) metric)
  | counter_flush => flushed conf EmptyString metric 0
  end.

Definition counter_run (conf : statsd_conf) (events : list counter_event)
  (metric : statsd_metric_t) : statsd_metric_t :=
  fold_left (counter_step conf) events metric.

(** [(derive_t) nearbyint (residual)] at each flush of the run, in order. *)
Fixpoint credited (conf : statsd_conf) (events : list counter_event)
  (metric : statsd_metric_t) : list Z :=
  match events with
  | [] => []
  | ev :: rest =>
      match ev with
      | counter_update _ _ => []
      | counter_flush => [to_int64 (nearbyint (value metric))]
      end ++ credited conf rest (counter_step conf metric ev)
  end.

(** The sum of the updates of a run, accumulated as the plugin does. *)
Definition accumulated (events : list (double * double)) : double :=
  fold_left (fun acc vr => add acc (div (fst vr) (snd vr))) events
    (S754_zero false).

(** [n] reads in a row, the [j]-th with the clock [clocks j]. *)
Fixpoint flushes (conf : statsd_conf) (clocks : nat -> nat -> Z) (n : nat)
  (t : metrics_tree_t) : metrics_tree_t :=
  match n with
  | O => t
  | S n' =>
      let t' := flushes conf clocks n' t in
      match statsd_read conf (clocks n') (Some t') with
      | (_, Some t'', _) => t''
      | (_, None, _) => t'
      end
  end.

(** A value list of the statsd plugin, by its type, the text written into
    its type instance, its value and its time. *)
Definition statsd_value_list (ty instance : string) (v : value_t) (now : Z)
  : value_list_t :=
  {| vl_values := v; vl_time := now; vl_plugin := "statsd"; vl_type := ty;
     vl_type_instance := sstrncpy instance DATA_MAX_NAME_LEN |}.

(** The value list a gauge named [name] with value [v] is dispatched as. *)
Definition gauge_value_list (name : string) (v : double) : value_list_t :=
  statsd_value_list "gauge" name (gauge v) 0.

(** A timer cell whose update count is zero holds no sample: true of a new
    cell and after every flush, and kept by every update short of the
    wrap-around of [updates_num]. *)
Definition timer_idle_consistent (metric : statsd_metric_t) : Prop :=
  updates_num metric = 0 -> latency_counter_get_num (latency metric) = 0.

(** A timer cell counts its samples: the update count is the number of
    samples recorded since the last flush, as an unsigned long. *)
Definition timer_counts_samples (metric : statsd_metric_t) : Prop :=
  type metric = STATSD_TIMER ->
  updates_num metric = u64 (latency_counter_get_num (latency metric)).

(** What every entry of a tree the plugin builds satisfies, and the tree
    with it. *)
Definition entry_ok (e : string * statsd_metric_t) : Prop :=
  first_char (fst e) = key_tag (type (snd e))
  /\ timer_counts_samples (snd e).

Definition reachable_ok (t : metrics_tree_t) : Prop :=
  NoDup (keys t) /\ Forall entry_ok t.

(** What happens to the plugin between [statsd_init], which creates the
    empty tree, and shutdown: the network thread reads a datagram, or the
    daemon calls the read callback. *)
Inductive plugin_event : Type :=
| datagram_received (bytes : string)
| read_called (clock : nat -> Z).

Definition plugin_step (conf : statsd_conf) (t : metrics_tree_t)
  (ev : plugin_event) : metrics_tree_t :=
  match ev with
  | datagram_received bytes => fst (statsd_network_read bytes t)
  | read_called clock =>
      match statsd_read conf clock (Some t) with
      | (_, Some t', _) => t'
      | (_, None, _) => t
      end
  end.

(** The tree after a history of events. *)
Definition plugin_run (conf : statsd_conf) (events : list plugin_event)
  : metrics_tree_t :=
  fold_left (plugin_step conf) events c_avl_create.








(** A value list as this plugin may hand it to [plugin_dispatch_values]:
    the plugin name is set, the type instance fits its buffer, a value
    written through the [derive] member goes out as a "derive" and one
    written through the [gauge] member as one of the four gauge types. *)
Definition value_list_ok (vl : value_list_t) : Prop :=
  vl_plugin vl = "statsd"%string
  /\ (String.length (vl_type_instance vl) < DATA_MAX_NAME_LEN)%nat
  /\ match vl_values vl with
     | derive _ => vl_type vl = "derive"%string
     | gauge _ =>
         In (vl_type vl)
           ["count"%string; "gauge"%string; "latency"%string;
            "objects"%string]
     end.

End Model.

End Statsd.

(** ** [src/write_influxdb_udp.c] *)
Module Wifxudp.

Import CInt.

Definition NET_DEFAULT_PACKET_SIZE : Z := 1452.
Definition NET_DEFAULT_PORT : string := "8089".

(** *** The operating system

    Socket addresses, and the system as the plugin meets it: an oracle
    answers the calls in the order they are made, and the calls that act on
    the outside are recorded. *)
Inductive family : Type := AF_INET | AF_INET6 | AF_other.

Inductive sockaddr : Type :=
| sockaddr_in (s_addr : Z) (sin_port : Z)        (* address in host order *)
| sockaddr_in6 (s6_addr : list Z) (sin6_port : Z).

Record addrinfo : Type := {
  ai_family : family;
  ai_addr : sockaddr;
  ai_addrlen : Z
}.

Inductive sockopt : Type :=
  IP_TTL | IP_MULTICAST_TTL | IPV6_UNICAST_HOPS | IPV6_MULTICAST_HOPS.

Inductive syscall : Type :=
| sys_getaddrinfo (node : option string) (service : string)
| sys_socket (ai : addrinfo)
| sys_close (fd : Z)
| sys_setsockopt (fd : Z) (optname : sockopt) (optval : Z)
| sys_bind (fd : Z) (addr : sockaddr)
| sys_sendto (fd : Z) (payload : list Byte.byte) (dest : option sockaddr)
    (addrlen : Z).

(** What the system answers to one call: the clock for [cdtime], the
    returned status (for [socket] the descriptor, for [getaddrinfo] zero
    together with the address list), and [errno] after a failure. *)
Record reply : Type := {
  r_time : Z;
  r_status : Z;
  r_errno : Z;
  r_addrinfo : list addrinfo
}.

Record os : Type := {
  oracle : nat -> reply;   (* the answer to the n-th call *)
  calls : nat;             (* calls answered so far *)
  trace : list syscall     (* the calls made, oldest first *)
}.

Definition EINTR : Z := 4.
Definition EAGAIN : Z := 11.

Definition cdtime (w : os) : Z * os :=
  (r_time (oracle w (calls w)),
   {| oracle := oracle w; calls := S (calls w); trace := trace w |}).

Definition call (c : syscall) (w : os) : reply * os :=
  (oracle w (calls w),
   {| oracle := oracle w; calls := S (calls w); trace := trace w ++ [c] |}).

(** [close] is recorded; its result is never looked at. *)
Definition close (fd : Z) (w : os) : os :=
  {| oracle := oracle w; calls := calls w; trace := trace w ++ [sys_close fd] |}.

(** *** The plugin's data *)
Record sockent_client : Type := {
  fd : Z;
  addr : option sockaddr;            (* NULL when nothing is cached *)
  addrlen : Z;
  next_resolve_reconnect : Z;        (* cdtime_t *)
  resolve_interval : Z;              (* cdtime_t *)
  bind_addr : option sockaddr
}.

(** [sockent_t] without its lock; [next] is the order of the list that
    holds the entries. *)
Record sockent_t : Type := {
  node : option string;
  service : option string;
  interface : Z;
  client : sockent_client
}.

Definition with_client (c : sockent_client) (se : sockent_t) : sockent_t :=
  {| node := node se; service := service se; interface := interface se;
     client := c |}.

Definition with_fd (f : Z) (c : sockent_client) : sockent_client :=
  {| fd := f; addr := addr c; addrlen := addrlen c;
     next_resolve_reconnect := next_resolve_reconnect c;
     resolve_interval := resolve_interval c; bind_addr := bind_addr c |}.

Definition with_addr (a : option sockaddr) (len : Z) (c : sockent_client)
  : sockent_client :=
  {| fd := fd c; addr := a; addrlen := len;
     next_resolve_reconnect := next_resolve_reconnect c;
     resolve_interval := resolve_interval c; bind_addr := bind_addr c |}.

Definition with_next_resolve_reconnect (t : Z) (c : sockent_client)
  : sockent_client :=
  {| fd := fd c; addr := addr c; addrlen := addrlen c;
     next_resolve_reconnect := t;
     resolve_interval := resolve_interval c; bind_addr := bind_addr c |}.

(** The file's static variables.  [send_buffer] is the block that
    [write_influxdb_udp_init] allocates; [send_buffer_ptr] is kept as its
    offset from [send_buffer].  [heap_overrun] is not a variable of the
    program: it records that a [memcpy] wrote past the end of the block,
    after which C leaves the behaviour undefined. *)
Record statics : Type := {
  wifxudp_config_ttl : Z;
  wifxudp_config_packet_size : Z;
  sending_sockets : list sockent_t;
  send_buffer : list Byte.byte;
  send_buffer_ptr : Z;
  send_buffer_fill : Z;              (* int *)
  send_buffer_last_update : Z;       (* cdtime_t *)
  heap_overrun : bool
}.

Definition with_sending_sockets (l : list sockent_t) (st : statics) : statics :=
  {| wifxudp_config_ttl := wifxudp_config_ttl st;
     wifxudp_config_packet_size := wifxudp_config_packet_size st;
     sending_sockets := l;
     send_buffer := send_buffer st; send_buffer_ptr := send_buffer_ptr st;
     send_buffer_fill := send_buffer_fill st;
     send_buffer_last_update := send_buffer_last_update st;
     heap_overrun := heap_overrun st |}.

Definition with_send_buffer (buffer : list Byte.byte) (ptr fill last : Z)
  (overrun : bool) (st : statics) : statics :=
  {| wifxudp_config_ttl := wifxudp_config_ttl st;
     wifxudp_config_packet_size := wifxudp_config_packet_size st;
     sending_sockets := sending_sockets st;
     send_buffer := buffer; send_buffer_ptr := ptr;
     send_buffer_fill := fill; send_buffer_last_update := last;
     heap_overrun := overrun |}.

(** *** Sockets *)

(** [IN_MULTICAST]: class D, the four high bits are 1110. *)
Definition IN_MULTICAST (a : Z) : bool :=
  Z.land a 4026531840 =? 3758096384.

(** [IN6_IS_ADDR_MULTICAST]: the first byte is 0xff. *)
Definition IN6_IS_ADDR_MULTICAST (a : list Z) : bool :=
  match a with
  | b :: _ => b =? 255
  | [] => false
  end.

Definition set_ttl (ttl : Z) (se : sockent_t) (ai : addrinfo) (w : os)
  : Z * os :=
  if (ttl <? 1) || (ttl >? 255) then (-1, w)
  else
    match ai_family ai, ai_addr ai with
    | AF_INET, sockaddr_in a _ =>
        let optname := if IN_MULTICAST a then IP_MULTICAST_TTL else IP_TTL in
        let '(r, w') := call (sys_setsockopt (fd (client se)) optname ttl) w in
        if negb (r_status r =? 0) then (-1, w') else (0, w')
    | AF_INET6, sockaddr_in6 a _ =>
        let optname := if IN6_IS_ADDR_MULTICAST a then IPV6_MULTICAST_HOPS
                       else IPV6_UNICAST_HOPS in
        let '(r, w') := call (sys_setsockopt (fd (client se)) optname ttl) w in
        if negb (r_status r =? 0) then (-1, w') else (0, w')
    | _, _ => (0, w)
    end.

Definition bind_socket_to_addr (se : sockent_t) (ai : addrinfo) (w : os)
  : Z * os :=
  match bind_addr (client se) with
  | None => (0, w)
  | Some a =>
      match ai_family ai with
      | AF_INET | AF_INET6 =>
          let '(r, w') := call (sys_bind (fd (client se)) a) w in
          if r_status r =? -1 then (-1, w') else (0, w')
      | AF_other => (0, w)
      end
  end.

Definition sockent_create : sockent_t :=
  {| node := None; service := None; interface := 0;
     client := {| fd := -1; addr := None; addrlen := 0;
                  next_resolve_reconnect := 0; resolve_interval := 0;
                  bind_addr := None |} |}.

(** Returns 0; the entry and the system afterwards. *)
Definition sockent_client_disconnect (se : sockent_t) (w : os)
  : sockent_t * os :=
  let c := client se in
  let '(c1, w1) :=
    if 0 <=? fd c (* connected *) then (with_fd (-1) c, close (fd c) w)
    else (c, w) in
  (with_client (with_addr None 0 c1) se, w1).

(** The loop of [sockent_client_connect] over the resolved addresses. *)
Fixpoint connect_first (ttl : Z) (ai_list : list addrinfo) (se : sockent_t)
  (w : os) : sockent_t * os :=
  match ai_list with
  | [] => (se, w)
  | ai_ptr :: rest =>
      let '(se1, w1) :=
        if 0 <=? fd (client se) (* when we reconnect *)
        then sockent_client_disconnect se w
        else (se, w) in
      let '(r, w2) := call (sys_socket ai_ptr) w1 in
      let se2 := with_client (with_fd (i32 (r_status r)) (client se1)) se1 in
      if fd (client se2) <? 0 then connect_first ttl rest se2 w2
      else
        let se3 :=
          with_client
            (with_addr (Some (ai_addr ai_ptr)) (ai_addrlen ai_ptr)
               (client se2)) se2 in
        let '(_, w3) := set_ttl ttl se3 ai_ptr w2 in
        let '(_, w4) := bind_socket_to_addr se3 ai_ptr w3 in
        (* We don't open more than one write-socket per node/service pair *)
        (se3, w4)
  end.

(** The test that makes [sockent_client_connect] resolve again although a
    socket is open. *)
Definition reconnect_due (c : sockent_client) (now : Z) : bool :=
  negb (resolve_interval c =? 0) && (next_resolve_reconnect c <? now).

Definition sockent_client_connect (ttl : Z) (se : sockent_t) (w : os)
  : Z * sockent_t * os :=
  let '(now, w0) := cdtime w in
  let reconnect := reconnect_due (client se) now in
  if (0 <=? fd (client se)) && negb reconnect
  then (* already connected and not stale *) (0, se, w0)
  else
    let service' := match service se with
                    | Some s => s
                    | None => NET_DEFAULT_PORT
                    end in
    let '(r, w1) := call (sys_getaddrinfo (node se) service') w0 in
    if negb (r_status r =? 0) then (-1, se, w1)
    else
      let '(se1, w2) := connect_first ttl (r_addrinfo r) se w1 in
      if fd (client se1) <? 0 then (-1, se1, w2)
      else
        let c := client se1 in
        let c' := if 0 <? resolve_interval c
                  then with_next_resolve_reconnect
                         (u64 (now + resolve_interval c)) c
                  else c in
        (0, with_client c' se1, w2).

(** [while (42)]: [fuel] bounds the number of rounds the model follows;
    [None] means the loop is still running after that many. *)
Fixpoint write_influxdb_udp_send_buffer (fuel : nat) (ttl : Z)
  (sending_socket : sockent_t) (buffer : list Byte.byte) (w : os)
  : option (sockent_t * os) :=
  match fuel with
  | O => None
  | S fuel' =>
      let '(status, se, w1) := sockent_client_connect ttl sending_socket w in
      if negb (status =? 0) then Some (se, w1)
      else
        let '(r, w2) :=
          call (sys_sendto (fd (client se)) buffer (addr (client se))
                  (addrlen (client se))) w1 in
        if r_status r <? 0 then
          if (r_errno r =? EINTR) || (r_errno r =? EAGAIN)
          then write_influxdb_udp_send_buffer fuel' ttl se buffer w2
          else Some (sockent_client_disconnect se w2)
        else Some (se, w2)
  end.

Fixpoint write_influxdb_send_buffers (fuel : nat) (ttl : Z)
  (sockets : list sockent_t) (buffer : list Byte.byte) (w : os)
  : option (list sockent_t * os) :=
  match sockets with
  | [] => Some ([], w)
  | se :: rest =>
      match write_influxdb_udp_send_buffer fuel ttl se buffer w with
      | None => None
      | Some (se', w1) =>
          match write_influxdb_send_buffers fuel ttl rest buffer w1 with
          | None => None
          | Some (rest', w2) => Some (se' :: rest', w2)
          end
      end
  end.

(** *** The send buffer *)

Definition write_influxdb_udp_init_buffer (st : statics) : statics :=
  with_send_buffer
    (repeat Byte.x00 (Z.to_nat (wifxudp_config_packet_size st))) 0 0 0
    (heap_overrun st) st.

(** The first [n] bytes at [send_buffer], to the end of the block. *)
Definition buffer_prefix (st : statics) (n : Z) : list Byte.byte :=
  firstn (Z.to_nat n) (send_buffer st).

Definition flush_buffer (fuel : nat) (st : statics) (w : os)
  : option (statics * os) :=
  match write_influxdb_send_buffers fuel (wifxudp_config_ttl st)
          (sending_sockets st) (buffer_prefix st (u64 (send_buffer_fill st))) w
  with
  | None => None
  | Some (sockets, w') =>
      Some (write_influxdb_udp_init_buffer (with_sending_sockets sockets st),
            w')
  end.

(** [memcpy (block + offset, src, length src)] into a block: the bytes that
    fall inside the block. *)
Definition memcpy (block : list Byte.byte) (offset : Z) (src : list Byte.byte)
  : list Byte.byte :=
  firstn (List.length block)
    (firstn (Z.to_nat offset) block ++ src
     ++ skipn (Z.to_nat offset + List.length src) block).

(** [write_influxdb_udp_write] once [format_influxdb_value_list] (outside
    the sources) has returned [status] and left the point in the local
    [buffer]. *)
Definition write_influxdb_udp_write (fuel : nat)
  (status : Z) (buffer : list Byte.byte) (st : statics) (w : os)
  : option (Z * statics * os) :=
  if status <? 0 then Some (-1, st, w)
  else if status =? 0 (* no real values to send (nan) *) then Some (0, st, w)
  else
    match
      (if u64 (wifxudp_config_packet_size st - send_buffer_fill st)
          <? u64 status
       then flush_buffer fuel st w else Some (st, w))
    with
    | None => None
    | Some (st1, w1) =>
        let point := firstn (Z.to_nat status) buffer in
        let overrun :=
          heap_overrun st1
          || (Z.of_nat (List.length (send_buffer st1))
              <? send_buffer_ptr st1 + status) in
        let '(now, w2) := cdtime w1 in
        let st2 :=
          with_send_buffer
            (memcpy (send_buffer st1) (send_buffer_ptr st1) point)
            (send_buffer_ptr st1 + status)
            (i32 (send_buffer_fill st1 + status))
            now overrun st1 in
        match
          (if u64 (wifxudp_config_packet_size st2 - send_buffer_fill st2)
              <? 120
           then flush_buffer fuel st2 w2 else Some (st2, w2))
        with
        | None => None
        | Some (st3, w3) => Some (0, st3, w3)
        end
    end.

Definition wifxudp_config_set_ttl (tmp : Z) (st : statics) : Z * statics :=
  if (0 <? tmp) && (tmp <=? 255)
  then (0, {| wifxudp_config_ttl := tmp;
              wifxudp_config_packet_size := wifxudp_config_packet_size st;
              sending_sockets := sending_sockets st;
              send_buffer := send_buffer st;
              send_buffer_ptr := send_buffer_ptr st;
              send_buffer_fill := send_buffer_fill st;
              send_buffer_last_update := send_buffer_last_update st;
              heap_overrun := heap_overrun st |})
  else (-1, st).

Definition wifxudp_config_set_buffer_size (tmp : Z) (st : statics)
  : Z * statics :=
  if (1024 <=? tmp) && (tmp <=? 65535)
  then (0, {| wifxudp_config_ttl := wifxudp_config_ttl st;
              wifxudp_config_packet_size := tmp;
              sending_sockets := sending_sockets st;
              send_buffer := send_buffer st;
              send_buffer_ptr := send_buffer_ptr st;
              send_buffer_fill := send_buffer_fill st;
              send_buffer_last_update := send_buffer_last_update st;
              heap_overrun := heap_overrun st |})
  else (-1, st).

(** The variables as their initialisers leave them, before configuration. *)
Definition initial_statics : statics :=
  {| wifxudp_config_ttl := 0;
     wifxudp_config_packet_size := NET_DEFAULT_PACKET_SIZE;
     sending_sockets := [];
     send_buffer := []; send_buffer_ptr := 0; send_buffer_fill := 0;
     send_buffer_last_update := 0; heap_overrun := false |}.

(** [write_influxdb_udp_init]: [malloc] of the block (which succeeds), then
    [write_influxdb_udp_init_buffer]. *)
Definition write_influxdb_udp_init (st : statics) : Z * statics :=
  (0, write_influxdb_udp_init_buffer st).

Definition write_influxdb_udp_flush (fuel : nat) (timeout : Z)
  (st : statics) (w : os) : option (Z * statics * os) :=
  if 0 <? send_buffer_fill st then
    let flush w :=
      match flush_buffer fuel st w with
      | None => None
      | Some (st', w') => Some (0, st', w')
      end in
    if 0 <? timeout then
      let '(now, w1) := cdtime w in
      if u64 (send_buffer_last_update st + timeout) >? now
      then Some (0, st, w1)
      else flush w1
    else flush w
  else Some (0, st, w).

(** *** Notions the properties are stated with *)



(** The [sendto] call of an endpoint for a buffer. *)
Definition sendto_call (se : sockent_t) (buffer : list Byte.byte) : syscall :=
  sys_sendto (fd (client se)) buffer (addr (client se)) (addrlen (client se)).

(** The system after [n] rounds of the send loop on a connected endpoint
    that is not due for resolving: each round asked the clock and called
    [sendto]. *)
Definition after_rounds (n : nat) (se : sockent_t) (buffer : list Byte.byte)
  (w : os) : os :=
  {| oracle := oracle w; calls := (calls w + 2 * n)%nat;
     trace := trace w ++ repeat (sendto_call se buffer) n |}.

(** What is seen of a call's outcome from outside: the status returned,
    the configured packet size, the fill of the buffer, whether a copy has
    left the block, and the calls made to the system so far. *)
Definition observed (outcome : option (Z * statics * os))
  : option (Z * Z * Z * bool * list syscall) :=
  match outcome with
  | Some (r, st, w) =>
      Some (r, wifxudp_config_packet_size st, send_buffer_fill st,
            heap_overrun st, trace w)
  | None => None
  end.

(** One more point written after a call that returned. *)
Definition then_write (fuel : nat) (status : Z) (buffer : list Byte.byte)
  (outcome : option (Z * statics * os)) : option (Z * statics * os) :=
  match outcome with
  | Some (_, st, w) => write_influxdb_udp_write fuel status buffer st w
  | None => None
  end.


(** The state of the send buffer between two calls of the plugin when no
    [memcpy] has left the block: the block has the configured size, the
    write pointer stands at the fill, and the fill is within the block. *)
Definition buffer_ok (st : statics) : Prop :=
  1024 <= wifxudp_config_packet_size st <= 65535
  /\ Z.of_nat (List.length (send_buffer st)) = wifxudp_config_packet_size st
  /\ send_buffer_ptr st = send_buffer_fill st
  /\ 0 <= send_buffer_fill st <= wifxudp_config_packet_size st
  /\ heap_overrun st = false.

(** A run of [write_influxdb_udp_write] calls, one per rendered point (the
    length the formatter returned and the local buffer it filled). *)
Fixpoint write_points (fuel : nat) (points : list (Z * list Byte.byte))
  (st : statics) (w : os) : option (statics * os) :=
  match points with
  | [] => Some (st, w)
  | (status, buffer) :: rest =>
      match write_influxdb_udp_write fuel status buffer st w with
      | Some (_, st', w') => write_points fuel rest st' w'
      | None => None
      end
  end.

(** A rendered point that the block of [st] can hold. *)
Definition fits (st : statics) (point : Z * list Byte.byte) : Prop :=
  0 < fst point <= wifxudp_config_packet_size st
  /\ fst point <= Z.of_nat (List.length (snd point)).

(** An endpoint with an open socket that is never due for resolving. *)
Definition healthy (se : sockent_t) : Prop :=
  0 <= fd (client se) /\ resolve_interval (client se) = 0.

(** A system in which no call fails. *)
Definition never_fails (w : os) : Prop :=
  forall i, 0 <= r_status (oracle w i).

(** The bytes of a rendered point, and of a run of points. *)
Definition point_bytes (point : Z * list Byte.byte) : list Byte.byte :=
  firstn (Z.to_nat (fst point)) (snd point).

Definition flatten (points : list (Z * list Byte.byte)) : list Byte.byte :=
  List.concat (map point_bytes points).

(** One datagram sent to every endpoint, in the order of the list. *)
Definition sent_to_all (sockets : list sockent_t) (datagram : list Byte.byte)
  : list syscall :=
  map (fun se => sendto_call se datagram) sockets.

(** An endpoint that holds a socket has the address of its peer cached. *)
Definition endpoint_ok (se : sockent_t) : Prop :=
  0 <= fd (client se) -> addr (client se) <> None.

(** What identifies an endpoint and never changes once it is configured. *)
Definition identity (se : sockent_t)
  : option string * option string * Z * option sockaddr :=
  (node se, service se, resolve_interval (client se), bind_addr (client se)).

(** A call that names an open descriptor, and for [sendto] a destination. *)
Definition call_ok (c : syscall) : Prop :=
  match c with
  | sys_sendto fd _ dest _ => 0 <= fd /\ dest <> None
  | sys_close fd => 0 <= fd
  | sys_setsockopt fd _ optval => 0 <= fd /\ 1 <= optval <= 255
  | sys_bind fd _ => 0 <= fd
  | sys_getaddrinfo _ _ | sys_socket _ => True
  end.

(** The second system has made the calls [l] since the first. *)
Definition made (w w' : os) (l : list syscall) : Prop :=
  trace w' = trace w ++ l /\ oracle w' = oracle w.

(** What the daemon asks of the plugin after [write_influxdb_udp_init]: to
    write a rendered point, or to flush. *)
Inductive wifxudp_event : Type :=
| point_written (status : Z) (buffer : list Byte.byte)
| flush_called (timeout : Z).

Fixpoint wifxudp_run (fuel : nat) (events : list wifxudp_event)
  (st : statics) (w : os) : option (statics * os) :=
  match events with
  | [] => Some (st, w)
  | ev :: rest =>
      match
        match ev with
        | point_written status buffer =>
            write_influxdb_udp_write fuel status buffer st w
        | flush_called timeout => write_influxdb_udp_flush fuel timeout st w
        end
      with
      | Some (_, st', w') => wifxudp_run fuel rest st' w'
      | None => None
      end
  end.

(** An operation on an endpoint kept its identity, left it with an address
    if it has a socket, and made only calls on open descriptors. *)
Definition endpoint_step_ok (se : sockent_t) (w : os)
  (se' : sockent_t) (w' : os) : Prop :=
  identity se' = identity se
  /\ endpoint_ok se'
  /\ exists l, made w w' l /\ Forall call_ok l.

(** The same for an operation on the plugin's variables. *)
Definition plugin_step_ok (st : statics) (w : os)
  (st' : statics) (w' : os) : Prop :=
  map identity (sending_sockets st') = map identity (sending_sockets st)
  /\ Forall endpoint_ok (sending_sockets st')
  /\ exists l, made w w' l /\ Forall call_ok l.



End Wifxudp.

(** ** Configuration items

    The fields of liboconfig's [oconfig_item_t] that the two plugins read:
    the key and the values of an item; the children of the block a plugin
    is configured with are a list of items.  The [cf_util_get_*] helpers of
    [utils/common/common.c] are outside the two files: each takes the item
    and what the variable holds, and returns its status and what the
    variable holds afterwards. *)
Module Oconfig.

Inductive oconfig_value_t : Type :=
| OCONFIG_TYPE_STRING (s : string)
| OCONFIG_TYPE_NUMBER (d : Double.double)
| OCONFIG_TYPE_BOOLEAN (b : bool).

Record oconfig_item_t : Type := {
  key : string;
  values : list oconfig_value_t
}.

Class ConfigUtils : Type := {
  cf_util_get_int : oconfig_item_t -> Z -> Z * Z;
  cf_util_get_boolean : oconfig_item_t -> bool -> Z * bool;
  cf_util_get_double : oconfig_item_t -> Double.double -> Z * Double.double;
  cf_util_get_string : oconfig_item_t -> option string -> Z * option string;
  cf_util_get_service : oconfig_item_t -> option string -> Z * option string
}.

(** [tolower] in the C locale. *)
Definition tolower (c : ascii) : ascii :=
  let n := nat_of_ascii c in
  if ((65 <=? n) && (n <=? 90))%nat then ascii_of_nat (n + 32) else c.

(** [strcasecmp (a, b) == 0]. *)
Fixpoint strcasecmp_eq (a b : string) : bool :=
  match a, b with
  | EmptyString, EmptyString => true
  | String x a', String y b' =>
      Ascii.eqb (tolower x) (tolower y) && strcasecmp_eq a' b'
  | _, _ => false
  end.

(** [ci->values[i].type == OCONFIG_TYPE_STRING] and the string then. *)
Definition is_string (v : oconfig_value_t) : bool :=
  match v with
  | OCONFIG_TYPE_STRING _ => true
  | _ => false
  end.

Definition value_string (v : oconfig_value_t) : string :=
  match v with
  | OCONFIG_TYPE_STRING s => s
  | _ => EmptyString
  end.

End Oconfig.

(** ** [src/write_influxdb_udp.c]: configuration, start and shutdown *)
Module WifxudpConfig.

Import CInt Wifxudp Oconfig.

Inductive format_influxdb_time_precision_t : Type := NS | US | MS.

(** The static variables of the file with those that [Wifxudp.statics]
    leaves out, and what the plugin has registered: [have_init] is the
    static of [write_influxdb_udp_init]; [write_registered] records the call
    of [plugin_register_write]. *)
Record plugin_vars : Type := {
  vars : statics;
  wifxudp_config_store_rates : bool;
  wifxudp_config_time_precision : format_influxdb_time_precision_t;
  have_init : bool;
  write_registered : bool
}.

Definition with_vars (st : statics) (p : plugin_vars) : plugin_vars :=
  {| vars := st;
     wifxudp_config_store_rates := wifxudp_config_store_rates p;
     wifxudp_config_time_precision := wifxudp_config_time_precision p;
     have_init := have_init p; write_registered := write_registered p |}.

Definition with_store_rates (b : bool) (p : plugin_vars) : plugin_vars :=
  {| vars := vars p;
     wifxudp_config_store_rates := b;
     wifxudp_config_time_precision := wifxudp_config_time_precision p;
     have_init := have_init p; write_registered := write_registered p |}.

Definition with_time_precision (t : format_influxdb_time_precision_t)
  (p : plugin_vars) : plugin_vars :=
  {| vars := vars p;
     wifxudp_config_store_rates := wifxudp_config_store_rates p;
     wifxudp_config_time_precision := t;
     have_init := have_init p; write_registered := write_registered p |}.


Section Config.

Context {U : ConfigUtils}.

(** [wifxudp_config_set_ttl] and [wifxudp_config_set_buffer_size] from the
    item: [int tmp = 0], then [cf_util_get_int]. *)
Definition config_set_ttl (ci : oconfig_item_t) (st : statics) : Z * statics :=
  let '(status, tmp) := cf_util_get_int ci 0 in
  if negb (status =? 0) then (-1, st) else wifxudp_config_set_ttl tmp st.

Definition config_set_buffer_size (ci : oconfig_item_t) (st : statics)
  : Z * statics :=
  let '(status, tmp) := cf_util_get_int ci 0 in
  if negb (status =? 0) then (-1, st)
  else wifxudp_config_set_buffer_size tmp st.

(** Add a sockent to the global list of sockets: at the end.  The entry is
    never NULL here, [sockent_create] having succeeded. *)
Definition sockent_add (se : sockent_t) (sockets : list sockent_t)
  : Z * list sockent_t :=
  (0, sockets ++ [se]).

Definition wifxudp_config_set_server (ci : oconfig_item_t) (st : statics)
  : Z * statics :=
  let values_num := List.length (values ci) in
  let type_is_string i :=
    match nth_error (values ci) i with
    | Some v => is_string v
    | None => false
    end in
  if (values_num <? 1)%nat || (2 <? values_num)%nat
     || negb (type_is_string 0%nat)
     || ((1 <? values_num)%nat && negb (type_is_string 1%nat))
  then (-1, st)
  else
    let sending_socket := sockent_create in
    let sending_socket :=
      {| node := option_map value_string (nth_error (values ci) 0);
         service := service sending_socket;
         interface := interface sending_socket;
         client := client sending_socket |} in
    let sending_socket :=
      if (2 <=? values_num)%nat
      then {| node := node sending_socket;
              service := option_map value_string (nth_error (values ci) 1);
              interface := interface sending_socket;
              client := client sending_socket |}
      else sending_socket in
    let '(status, sockets) := sockent_add sending_socket (sending_sockets st) in
    if negb (status =? 0) then (-1, st)
    else (0, with_sending_sockets sockets st).

Definition wifxudp_config_set_time_precision (ci : oconfig_item_t)
  (p : plugin_vars) : Z * plugin_vars :=
  match values ci with
  | [OCONFIG_TYPE_STRING s] =>
      if strcasecmp_eq "ns" s then (0, with_time_precision NS p)
      else if strcasecmp_eq "us" s then (0, with_time_precision US p)
      else if strcasecmp_eq "ms" s then (0, with_time_precision MS p)
      else (-1, p)
  | _ => (-1, p)
  end.

(** One child of the block: the status of the function called for it is
    dropped. *)
Definition config_child (p : plugin_vars) (child : oconfig_item_t)
  : plugin_vars :=
  if strcasecmp_eq "Server" (key child)
  then with_vars (snd (wifxudp_config_set_server child (vars p))) p
  else if strcasecmp_eq "TimeToLive" (key child)
  then with_vars (snd (config_set_ttl child (vars p))) p
  else if strcasecmp_eq "MaxPacketSize" (key child)
  then with_vars (snd (config_set_buffer_size child (vars p))) p
  else if strcasecmp_eq "TimePrecision" (key child)
  then snd (wifxudp_config_set_time_precision child p)
  else if strcasecmp_eq "StoreRates" (key child)
  then with_store_rates
         (snd (cf_util_get_boolean child (wifxudp_config_store_rates p))) p
  else (* Option is not allowed here. *) p.


End Config.

(** [write_influxdb_udp_init] with its [have_init] guard; [malloc]
    succeeds.  The write callback is registered when there is a server. *)
Definition write_influxdb_udp_init (p : plugin_vars) : Z * plugin_vars :=
  if have_init p then (0, p)
  else
    (0, {| vars := write_influxdb_udp_init_buffer (vars p);
           wifxudp_config_store_rates := wifxudp_config_store_rates p;
           wifxudp_config_time_precision := wifxudp_config_time_precision p;
           have_init := true;
           write_registered :=
             match sending_sockets (vars p) with
             | [] => write_registered p
             | _ :: _ => true
             end |}).

(** [free_sockent_client]: the socket is closed if there is one, the two
    addresses are freed. *)
Definition free_sockent_client (sec : sockent_client) (w : os)
  : sockent_client * os :=
  let '(sec1, w1) :=
    if 0 <=? fd sec then (with_fd (-1) sec, close (fd sec) w) else (sec, w) in
  ({| fd := fd sec1; addr := None; addrlen := addrlen sec1;
      next_resolve_reconnect := next_resolve_reconnect sec1;
      resolve_interval := resolve_interval sec1; bind_addr := None |}, w1).

(** [sockent_destroy]: every entry of the list is freed; what is left is
    the system. *)
Definition sockent_destroy (sockets : list sockent_t) (w : os) : os :=
  fold_left (fun w se => snd (free_sockent_client (client se) w)) sockets w.

(** The loop of [write_influxdb_udp_shutdown] over the endpoints. *)
Fixpoint disconnect_all (sockets : list sockent_t) (w : os)
  : list sockent_t * os :=
  match sockets with
  | [] => ([], w)
  | se :: rest =>
      let '(se', w1) := sockent_client_disconnect se w in
      let '(rest', w2) := disconnect_all rest w1 in
      (se' :: rest', w2)
  end.

(** [write_influxdb_udp_shutdown]: the status and the system afterwards;
    the buffer and the endpoints are freed. *)
Definition write_influxdb_udp_shutdown (fuel : nat) (st : statics) (w : os)
  : option (Z * os) :=
  match
    (if 0 <? send_buffer_fill st then flush_buffer fuel st w
     else Some (st, w))
  with
  | None => None
  | Some (st1, w1) =>
      let '(sockets, w2) := disconnect_all (sending_sockets st1) w1 in
      Some (0, sockent_destroy sockets w2)
  end.





(** The descriptors of the endpoints that hold a socket, in the order of
    the list. *)
Definition open_descriptors (sockets : list sockent_t) : list Z :=
  map (fun se => fd (client se))
    (filter (fun se => 0 <=? fd (client se)) sockets).

End WifxudpConfig.

(** ** [src/statsd.c]: configuration *)
Module StatsdConfig.

Import Double Statsd Oconfig.

(** The configuration variables of the file: the options that a flush
    reads, and where the plugin listens. *)
Record settings : Type := {
  conf : statsd_conf;
  conf_node : option string;
  conf_service : option string
}.

Definition ERANGE : Z := 34.

(** Assignments to the single options. *)
Definition with_conf (c : statsd_conf) (s : settings) : settings :=
  {| conf := c; conf_node := conf_node s; conf_service := conf_service s |}.

Definition with_percentiles (l : list double) (c : statsd_conf) : statsd_conf :=
  {| conf_delete_counters := conf_delete_counters c;
     conf_delete_timers := conf_delete_timers c;
     conf_delete_gauges := conf_delete_gauges c;
     conf_delete_sets := conf_delete_sets c;
     conf_timer_percentile := l;
     conf_counter_sum := conf_counter_sum c;
     conf_counter_gauge := conf_counter_gauge c;
     conf_timer_lower := conf_timer_lower c;
     conf_timer_upper := conf_timer_upper c;
     conf_timer_sum := conf_timer_sum c;
     conf_timer_count := conf_timer_count c |}.

(** The boolean options, by the variable they are kept in. *)
Inductive flag : Type :=
| DeleteCounters | DeleteTimers | DeleteGauges | DeleteSets
| CounterGauge | CounterSum
| TimerLower | TimerUpper | TimerSum | TimerCount.

Definition flag_value (f : flag) (c : statsd_conf) : bool :=
  match f with
  | DeleteCounters => conf_delete_counters c
  | DeleteTimers => conf_delete_timers c
  | DeleteGauges => conf_delete_gauges c
  | DeleteSets => conf_delete_sets c
  | CounterGauge => conf_counter_gauge c
  | CounterSum => conf_counter_sum c
  | TimerLower => conf_timer_lower c
  | TimerUpper => conf_timer_upper c
  | TimerSum => conf_timer_sum c
  | TimerCount => conf_timer_count c
  end.

Definition flag_eqb (f g : flag) : bool :=
  match f, g with
  | DeleteCounters, DeleteCounters | DeleteTimers, DeleteTimers
  | DeleteGauges, DeleteGauges | DeleteSets, DeleteSets
  | CounterGauge, CounterGauge | CounterSum, CounterSum
  | TimerLower, TimerLower | TimerUpper, TimerUpper
  | TimerSum, TimerSum | TimerCount, TimerCount => true
  | _, _ => false
  end.

Definition with_flag (f : flag) (b : bool) (c : statsd_conf) : statsd_conf :=
  let pick g := if flag_eqb f g then b else flag_value g c in
  {| conf_delete_counters := pick DeleteCounters;
     conf_delete_timers := pick DeleteTimers;
     conf_delete_gauges := pick DeleteGauges;
     conf_delete_sets := pick DeleteSets;
     conf_timer_percentile := conf_timer_percentile c;
     conf_counter_sum := pick CounterSum;
     conf_counter_gauge := pick CounterGauge;
     conf_timer_lower := pick TimerLower;
     conf_timer_upper := pick TimerUpper;
     conf_timer_sum := pick TimerSum;
     conf_timer_count := pick TimerCount |}.

(** The variables as their initialisers leave them. *)
Definition initial_settings : settings :=
  {| conf := {| conf_delete_counters := false; conf_delete_timers := false;
                conf_delete_gauges := false; conf_delete_sets := false;
                conf_timer_percentile := [];
                conf_counter_sum := false; conf_counter_gauge := false;
                conf_timer_lower := false; conf_timer_upper := false;
                conf_timer_sum := false; conf_timer_count := false |};
     conf_node := None; conf_service := None |}.

Section Config.

Context {U : ConfigUtils}.

Definition statsd_config_timer_percentile (ci : oconfig_item_t) (s : settings)
  : Z * settings :=
  let '(status, percent) := cf_util_get_double ci NAN in
  if negb (status =? 0) then (status, s)
  else if le percent (S754_zero false) || le (of_Z 100) percent
  then (ERANGE, s)
  else
    (0, with_conf
          (with_percentiles (conf_timer_percentile (conf s) ++ [percent])
             (conf s)) s).

(** [cf_util_get_boolean (child, &conf_...)]. *)
Definition get_flag (f : flag) (child : oconfig_item_t) (s : settings)
  : settings :=
  with_conf
    (with_flag f (snd (cf_util_get_boolean child (flag_value f (conf s))))
       (conf s)) s.

(** One child of the block; the status of what is called for it is
    dropped. *)
Definition config_child (s : settings) (child : oconfig_item_t) : settings :=
  if strcasecmp_eq "Host" (key child)
  then {| conf := conf s;
          conf_node := snd (cf_util_get_string child (conf_node s));
          conf_service := conf_service s |}
  else if strcasecmp_eq "Port" (key child)
  then {| conf := conf s; conf_node := conf_node s;
          conf_service := snd (cf_util_get_service child (conf_service s)) |}
  else if strcasecmp_eq "DeleteCounters" (key child)
  then get_flag DeleteCounters child s
  else if strcasecmp_eq "DeleteTimers" (key child)
  then get_flag DeleteTimers child s
  else if strcasecmp_eq "DeleteGauges" (key child)
  then get_flag DeleteGauges child s
  else if strcasecmp_eq "DeleteSets" (key child)
  then get_flag DeleteSets child s
  else if strcasecmp_eq "CounterGauge" (key child)
  then get_flag CounterGauge child s
  else if strcasecmp_eq "CounterSum" (key child)
  then get_flag CounterSum child s
  else if strcasecmp_eq "TimerLower" (key child)
  then get_flag TimerLower child s
  else if strcasecmp_eq "TimerUpper" (key child)
  then get_flag TimerUpper child s
  else if strcasecmp_eq "TimerSum" (key child)
  then get_flag TimerSum child s
  else if strcasecmp_eq "TimerCount" (key child)
  then get_flag TimerCount child s
  else if strcasecmp_eq "TimerPercentile" (key child)
  then snd (statsd_config_timer_percentile child s)
  else (* The config option is not valid. *) s.



End Config.


End StatsdConfig.

(** ** [src/statsd.c]: the network thread and the life of the plugin *)
Module StatsdNet.

Import CInt CStr Avl Statsd.

Definition STATSD_DEFAULT_SERVICE : string := "8125".
Definition ENOENT : Z := 2.
Definition EINTR : Z := 4.
Definition EAGAIN : Z := 11.
Definition POLLIN : Z := 1.
Definition POLLPRI : Z := 2.

(** The calls the network thread makes.  [getnameinfo], which only serves
    the log messages, is left out. *)
Inductive net_call : Type :=
| net_getaddrinfo (node : option string) (service : string)
| net_socket (ai : Wifxudp.addrinfo)
| net_setsockopt_reuseaddr (fd : Z)
| net_bind (fd : Z) (addr : Wifxudp.sockaddr)
| net_close (fd : Z)
| net_poll (fds : list Z)
| net_recv (fd : Z).

(** What the system answers: the status, [errno] after a failure, the
    address list of [getaddrinfo], the [revents] that [poll] stores for
    each descriptor of its array, and the bytes that [recv] delivers. *)
Record net_reply : Type := {
  n_status : Z;
  n_errno : Z;
  n_addrinfo : list Wifxudp.addrinfo;
  n_revents : list Z;
  n_data : string
}.

(** The system: an oracle answers the calls in the order they are made,
    and each call is recorded with the status it returned. *)
Record net : Type := {
  answers : nat -> net_reply;
  asked : nat;
  done : list (net_call * Z)
}.

Definition ask (c : net_call) (n : net) : net_reply * net :=
  (answers n (asked n),
   {| answers := answers n; asked := S (asked n);
      done := done n ++ [(c, n_status (answers n (asked n)))] |}).

(** [close] is recorded; its result is never looked at. *)
Definition close (fd : Z) (n : net) : net :=
  {| answers := answers n; asked := asked n;
     done := done n ++ [(net_close fd, 0)] |}.

(** The loop of [statsd_network_init] over the addresses: the descriptors
    collected in [fds] so far, and those of the addresses still to come. *)
Fixpoint listen_on (ai_list : list Wifxudp.addrinfo) (fds : list Z) (n : net)
  : list Z * net :=
  match ai_list with
  | [] => (fds, n)
  | ai_ptr :: rest =>
      let '(r, n1) := ask (net_socket ai_ptr) n in
      let fd := i32 (n_status r) in
      if fd <? 0 then listen_on rest fds n1
      else
        (* allow multiple sockets to use the same PORT number *)
        let '(r2, n2) := ask (net_setsockopt_reuseaddr fd) n1 in
        if n_status r2 =? -1 then listen_on rest fds (close fd n2)
        else
          let '(r3, n3) := ask (net_bind fd (Wifxudp.ai_addr ai_ptr)) n2 in
          if negb (n_status r3 =? 0) then listen_on rest fds (close fd n3)
          else listen_on rest (fds ++ [fd]) n3
  end.

(** [statsd_network_init]: the status, the descriptors of [*ret_fds] and
    the system; [realloc] succeeds. *)
Definition statsd_network_init (conf_node conf_service : option string)
  (n : net) : Z * list Z * net :=
  let service := match conf_service with
                 | Some s => s
                 | None => STATSD_DEFAULT_SERVICE
                 end in
  let '(r, n1) := ask (net_getaddrinfo conf_node service) n in
  if negb (n_status r =? 0) then (n_status r, [], n1)
  else
    let '(fds, n2) := listen_on (n_addrinfo r) [] n1 in
    match fds with
    | [] => (ENOENT, [], n2)
    | _ :: _ => (0, fds, n2)
    end.

(** [statsd_network_read] up to the call of [statsd_parse_buffer]: the
    bytes that [recv] stored, if it delivered a datagram; it stores at most
    the 4096 bytes of the buffer.  [Statsd.statsd_network_read] is the rest
    of the function: it ends the text after at most 4095 bytes and parses
    it. *)
Definition network_read (fd : Z) (n : net) : option string * net :=
  let '(r, n1) := ask (net_recv fd) n in
  if n_status r <? 0 then (None, n1)
  else (Some (take 4096 (n_data r)), n1).

(** The [for] loop over the descriptors after a [poll]: those with
    [POLLIN] or [POLLPRI] in their [revents] are read, in order. *)
Fixpoint read_ready (fds : list Z) (revents : list Z) (n : net)
  : list string * net :=
  match fds with
  | [] => ([], n)
  | fd :: rest =>
      let ready := match revents with
                   | ev :: _ => negb (Z.land ev (Z.lor POLLIN POLLPRI) =? 0)
                   | [] => false
                   end in
      let '(got, n1) := if ready then network_read fd n else (None, n) in
      let '(more, n2) := read_ready rest (List.tl revents) n1 in
      (match got with
       | Some datagram => datagram :: more
       | None => more
       end, n2)
  end.

(** [while (!network_thread_shutdown)]: [shutdown i] is what the variable
    holds the [i]-th time the thread reads it; [fuel] bounds the rounds the
    model follows.  The result is the datagrams received, in order, and
    the system. *)
Fixpoint network_loop (fuel : nat) (shutdown : nat -> bool) (i : nat)
  (fds : list Z) (n : net) : option (list string * net) :=
  match fuel with
  | O => None
  | S fuel' =>
      if shutdown i then Some ([], n)
      else
        let '(r, n1) := ask (net_poll fds) n in
        if n_status r <? 0 then
          if (n_errno r =? EINTR) || (n_errno r =? EAGAIN)
          then network_loop fuel' shutdown (S i) fds n1
          else Some ([], n1)
        else
          let '(got, n2) := read_ready fds (n_revents r) n1 in
          match network_loop fuel' shutdown (S i) fds n2 with
          | Some (more, n3) => Some (got ++ more, n3)
          | None => None
          end
  end.

(** The clean-up of the thread. *)
Definition close_all (fds : list Z) (n : net) : net :=
  fold_left (fun n fd => close fd n) fds n.

Definition statsd_network_thread (fuel : nat) (shutdown : nat -> bool)
  (conf_node conf_service : option string) (n : net)
  : option (list string * net) :=
  let '(status, fds, n1) := statsd_network_init conf_node conf_service n in
  if negb (status =? 0) then Some ([], n1)
  else
    match network_loop fuel shutdown 0 fds n1 with
    | Some (datagrams, n2) => Some (datagrams, close_all fds n2)
    | None => None
    end.

(** *** The callbacks of the daemon *)

(** [metrics_tree] and the two flags of the thread. *)
Record plugin_state : Type := {
  metrics_tree : option metrics_tree_t;
  network_thread_running : bool;
  network_thread_shutdown : bool
}.

Definition initial_state : plugin_state :=
  {| metrics_tree := None; network_thread_running := false;
     network_thread_shutdown := false |}.

(** [statsd_init]: the status, the state, and whether a thread was
    started; [created] is what [pthread_create] returns if it is called. *)
Definition statsd_init (created : Z) (s : plugin_state)
  : Z * plugin_state * bool :=
  let tree := match metrics_tree s with
              | None => Some c_avl_create
              | Some t => Some t
              end in
  if negb (network_thread_running s) then
    if negb (created =? 0)
    then (created,
          {| metrics_tree := tree;
             network_thread_running := network_thread_running s;
             network_thread_shutdown := network_thread_shutdown s |}, false)
    else (0, {| metrics_tree := tree; network_thread_running := true;
                network_thread_shutdown := network_thread_shutdown s |}, true)
  else (0, {| metrics_tree := tree; network_thread_running := true;
              network_thread_shutdown := network_thread_shutdown s |}, false).

(** [statsd_shutdown]: every entry of the tree is picked and freed, the
    tree destroyed.  Without a tree [c_avl_pick] is handed NULL, which the
    model does not follow ([None]). *)
Definition statsd_shutdown (s : plugin_state) : option (Z * plugin_state) :=
  match metrics_tree s with
  | None => None
  | Some _ =>
      Some (0, {| metrics_tree := None; network_thread_running := false;
                  network_thread_shutdown :=
                    if network_thread_running s then true
                    else network_thread_shutdown s |})
  end.

(** *** Notions the properties are stated with *)

(** The descriptors that [socket] returned, and those that were closed. *)
Definition opened (l : list (net_call * Z)) : list Z :=
  flat_map (fun c => match c with
                     | (net_socket _, fd) =>
                         if i32 fd <? 0 then [] else [i32 fd]
                     | _ => []
                     end) l.

Definition closed (l : list (net_call * Z)) : list Z :=
  flat_map (fun c => match c with
                     | (net_close fd, _) => [fd]
                     | _ => []
                     end) l.

(** The descriptors that were bound with success. *)
Definition bound (l : list (net_call * Z)) : list Z :=
  flat_map (fun c => match c with
                     | (net_bind fd _, 0) => [fd]
                     | _ => []
                     end) l.

(** The descriptors that were polled or read. *)
Definition waited_on (l : list (net_call * Z)) : list (net_call * Z) :=
  filter (fun c => match c with
                   | (net_poll _, _) | (net_recv _, _) => true
                   | _ => false
                   end) l.

(** The second system has made the calls [l] since the first. *)
Definition since (n n' : net) (l : list (net_call * Z)) : Prop :=
  done n' = done n ++ l /\ answers n' = answers n.

(** A call of the loop of the thread: [poll] on the descriptors it listens
    on, or [recv] on one of them. *)
Definition wait_on (fds : list Z) (c : net_call * Z) : Prop :=
  match fst c with
  | net_poll polled => polled = fds
  | net_recv fd => In fd fds
  | _ => False
  end.

(** One [close] for each descriptor, in order. *)
Definition closes (fds : list Z) : list (net_call * Z) :=
  map (fun fd => (net_close fd, 0)) fds.

End StatsdNet.

(** ** A reference instance of the externals

    collectd's value of [DATA_MAX_NAME_LEN] and its two time macros, and the
    plain decimal fragment of [strtod]: an optional sign, digits, an optional
    point and digits.  On that fragment, while the digits read as an integer
    below [2^53] and there are at most 22 of them after the point, the
    quotient of the two exactly represented integers is the correctly rounded
    value, which is what [strtod] returns.  It serves to run the model on
    concrete lines. *)
Module Reference.

Import Double.

Definition is_digit (c : ascii) : bool :=
  let n := nat_of_ascii c in ((48 <=? n) && (n <=? 57))%nat.

(** The digits at the start of [s], read onto [acc]: the number, how many
    digits were read, and the rest of [s]. *)
Fixpoint scan_digits (s : string) (acc : Z) (count : nat)
  : Z * nat * string :=
  match s with
  | String c r =>
      if is_digit c
      then scan_digits r (10 * acc + Z.of_nat (nat_of_ascii c - 48)) (S count)
      else (acc, count, s)
  | EmptyString => (acc, count, s)
  end.

Definition strtod_decimal (s : string) : double * nat :=
  let '(negative, sign_len, s1) :=
    match s with
    | String "-"%char r => (true, 1%nat, r)
    | String "+"%char r => (false, 1%nat, r)
    | _ => (false, 0%nat, s)
    end in
  let '(int_part, int_len, s2) := scan_digits s1 0 0 in
  let '(digits, frac_len, point_len) :=
    match s2 with
    | String "."%char r =>
        let '(m, n, _) := scan_digits r int_part 0 in (m, n, 1%nat)
    | _ => (int_part, 0%nat, 0%nat)
    end in
  if (int_len + frac_len =? 0)%nat then (S754_zero false, 0%nat)
  else
    let magnitude := div (of_Z digits) (of_Z (10 ^ Z.of_nat frac_len)) in
    (if negative then opp magnitude else magnitude,
     (sign_len + int_len + point_len + frac_len)%nat).

(** [(uint64_t) x] for [x] in range. *)
Definition to_uint64 (x : double) : Z :=
  match trunc_Z x with
  | Some n => CInt.u64 n
  | None => 0
  end.

Definition ms_to_cdtime_t (ms : double) : Z :=
  let n := to_uint64 ms in
  CInt.u64
    (Z.lor (Z.shiftl (n / 1000) 30)
       ((Z.shiftl (n mod 1000) 30 + 500) / 1000)).

Definition cdtime_t_to_double (t : Z) : double :=
  div (of_Z t) (of_Z 1073741824).

Lemma name_len_holds_types : (8 <= 128)%nat.
Proof. repeat constructor. Qed.

Definition externals : Externals :=
  {| DATA_MAX_NAME_LEN := 128;
     DATA_MAX_NAME_LEN_holds_types := name_len_holds_types;
     strtod := strtod_decimal;
     MS_TO_CDTIME_T := ms_to_cdtime_t;
     CDTIME_T_TO_DOUBLE := cdtime_t_to_double |}.

End Reference.

(** ** Concrete configurations and inputs

    The inputs at which the properties are exercised. *)
Module Examples.

Import Double Statsd.

(** Every option off (the defaults). *)
Definition conf_default : statsd_conf :=
  {| conf_delete_counters := false; conf_delete_timers := false;
     conf_delete_gauges := false; conf_delete_sets := false;
     conf_timer_percentile := [];
     conf_counter_sum := false; conf_counter_gauge := false;
     conf_timer_lower := false; conf_timer_upper := false;
     conf_timer_sum := false; conf_timer_count := false |}.

(** [CounterGauge true]. *)
Definition conf_counter_gauge_on : statsd_conf :=
  {| conf_delete_counters := false; conf_delete_timers := false;
     conf_delete_gauges := false; conf_delete_sets := false;
     conf_timer_percentile := [];
     conf_counter_sum := false; conf_counter_gauge := true;
     conf_timer_lower := false; conf_timer_upper := false;
     conf_timer_sum := false; conf_timer_count := false |}.

(** [DeleteGauges true]. *)
Definition conf_delete_gauges_on : statsd_conf :=
  {| conf_delete_counters := false; conf_delete_timers := false;
     conf_delete_gauges := true; conf_delete_sets := false;
     conf_timer_percentile := [];
     conf_counter_sum := false; conf_counter_gauge := false;
     conf_timer_lower := false; conf_timer_upper := false;
     conf_timer_sum := false; conf_timer_count := false |}.

(** Every timer statistic on, and [TimerPercentile 90]. *)
Definition conf_timer_all : statsd_conf :=
  {| conf_delete_counters := false; conf_delete_timers := false;
     conf_delete_gauges := false; conf_delete_sets := false;
     conf_timer_percentile := [of_Z 90];
     conf_counter_sum := false; conf_counter_gauge := false;
     conf_timer_lower := true; conf_timer_upper := true;
     conf_timer_sum := true; conf_timer_count := true |}.

(** A clock that stands still. *)
Definition clock_1000 : nat -> Z := fun _ => 1000.

(** The doubles 0.25, 1.25, 1.5 and -0.5. *)
Definition d_0_25 : double := S754_finite false 4503599627370496 (-54).
Definition d_1_25 : double := S754_finite false 5629499534213120 (-52).
Definition d_1_5 : double := S754_finite false 6755399441055744 (-52).
Definition d_minus_0_5 : double := S754_finite true 4503599627370496 (-53).

(** The tree after the lines of a datagram, from the empty tree, with the
    reference externals. *)
Definition tree_after (lines : list string) : metrics_tree_t :=
  fold_left
    (fun t line => snd (statsd_parse_line (E := Reference.externals) line t))
    lines [].

(** A counter cell with residual [v] and total [c], updated once. *)
Definition counter_cell (v : double) (c : Z) : statsd_metric_t :=
  {| type := STATSD_COUNTER; value := v; counter := c; latency := None;
     set := None; updates_num := 1 |}.

(** A timer cell that was flushed and not updated since. *)
Definition idle_timer_cell : statsd_metric_t :=
  {| type := STATSD_TIMER; value := S754_zero false; counter := 0;
     latency := Some []; set := None; updates_num := 0 |}.

(** A gauge cell with value [v] and [n] updates since the last flush. *)
Definition gauge_cell (v : double) (n : Z) : statsd_metric_t :=
  {| type := STATSD_GAUGE; value := v; counter := 0; latency := None;
     set := None; updates_num := n |}.

(** An IPv4 destination, an endpoint with an open socket that is to be
    resolved again every 10 ticks, from tick 100 on, and an endpoint that
    never resolves again. *)
Definition destination : Wifxudp.addrinfo :=
  {| Wifxudp.ai_family := Wifxudp.AF_INET;
     Wifxudp.ai_addr := Wifxudp.sockaddr_in 167772161 8089;
     Wifxudp.ai_addrlen := 16 |}.

Definition endpoint (interval next : Z) : Wifxudp.sockent_t :=
  {| Wifxudp.node := Some "influx"%string; Wifxudp.service := None;
     Wifxudp.interface := 0;
     Wifxudp.client :=
       {| Wifxudp.fd := 5;
          Wifxudp.addr := Some (Wifxudp.sockaddr_in 167772161 8089);
          Wifxudp.addrlen := 16;
          Wifxudp.next_resolve_reconnect := next;
          Wifxudp.resolve_interval := interval;
          Wifxudp.bind_addr := None |} |}.

(** A system in which the clock shows [now] and every call returns
    [status] with [errno]. *)
Definition constant_oracle (now status errno : Z) : nat -> Wifxudp.reply :=
  fun _ => {| Wifxudp.r_time := now; Wifxudp.r_status := status;
              Wifxudp.r_errno := errno; Wifxudp.r_addrinfo := [destination] |}.


Definition boot (oracle : nat -> Wifxudp.reply) : Wifxudp.os :=
  {| Wifxudp.oracle := oracle; Wifxudp.calls := 0; Wifxudp.trace := [] |}.

(** The plugin configured with one server and [MaxPacketSize size], after
    [write_influxdb_udp_init]. *)
Definition configured (size : Z) : Wifxudp.statics :=
  snd (Wifxudp.write_influxdb_udp_init
         (snd (Wifxudp.wifxudp_config_set_buffer_size size
                 (Wifxudp.with_sending_sockets [endpoint 0 0]
                    Wifxudp.initial_statics)))).

(** The same with a point of [fill] bytes already in the buffer, appended
    at time [last]. *)
Definition holding (size fill last : Z) : Wifxudp.statics :=
  Wifxudp.with_send_buffer
    (repeat Byte.x61 (Z.to_nat fill)
     ++ repeat Byte.x00 (Z.to_nat (size - fill)))
    fill fill last false (configured size).

(** The local buffer of [write_influxdb_udp_write] holding a point. *)
Definition rendered : list Byte.byte :=
  repeat Byte.x78 (Z.to_nat Wifxudp.NET_DEFAULT_PACKET_SIZE).

(** A flush of the tree the lines leave, with the reference externals and
    the clock at 1000: the values dispatched. *)
Definition flush_of (conf : statsd_conf) (lines : list string)
  : list value_list_t :=
  snd (statsd_read (E := Reference.externals) conf clock_1000
         (Some (tree_after lines))).

Definition dispatched_as (ty instance : string) (v : value_t) (now : Z)
  : value_list_t :=
  {| vl_values := v; vl_time := now; vl_plugin := "statsd"%string;
     vl_type := ty; vl_type_instance := instance |}.

(** A name of 127 characters, the longest the key buffer holds with the
    reference externals. *)
Definition long_name : string :=
  string_of_list_ascii (repeat "a"%char 127).



(** Ten points of 100 bytes. *)
Definition ten_points : list (Z * list Byte.byte) := repeat (100, rendered) 10.

(** The network of the statsd plugin answering by a list of statuses: one
    address is resolved, [poll] reports the first descriptor readable and
    [recv] delivers one line. *)
Definition net_script (statuses : list Z) : nat -> StatsdNet.net_reply :=
  fun i => {| StatsdNet.n_status := nth i statuses 0;
              StatsdNet.n_errno := 0;
              StatsdNet.n_addrinfo := [destination];
              StatsdNet.n_revents := [StatsdNet.POLLIN];
              StatsdNet.n_data := "a:1|c"%string |}.

Definition net_boot (answers : nat -> StatsdNet.net_reply) : StatsdNet.net :=
  {| StatsdNet.answers := answers; StatsdNet.asked := 0;
     StatsdNet.done := [] |}.

(** The shutdown flag found clear once and set from then on. *)
Definition set_after_one_round : nat -> bool := fun i => (1 <=? i)%nat.

End Examples.

(* ================================================================== *)
(** * Part II: the proofs *)
(* ================================================================== *)

(** ** C strings *)
Section CStrFacts.

Import CStr.

Lemma take_all (n : nat) (s : string) :
  (String.length s <= n)%nat -> take n s = s.
Proof.
  revert n; induction s as [|a s IH]; intros [|n] H; simpl in *;
    try reflexivity; try lia.
  f_equal; apply IH; lia.
Qed.

Lemma take_length (n : nat) (s : string) :
  (String.length (take n s) <= n)%nat.
Proof.
  revert s; induction n as [|n IH]; intros [|a s]; simpl; try lia.
  specialize (IH s); lia.
Qed.



Lemma sstrncpy_short (n : nat) (s : string) :
  (String.length s < n)%nat -> sstrncpy s n = s.
Proof. intros H; unfold sstrncpy; apply take_all; lia. Qed.








End CStrFacts.

(** ** The tree *)
Section AvlFacts.

Import Avl.

Context {V : Type}.

Implicit Types (t : c_avl_tree_t V) (k key : string) (v : V).

Lemma c_avl_get_In t k v : c_avl_get t k = Some v -> In (k, v) t.
Proof.
  induction t as [|[k' w] t IH]; simpl; [discriminate|].
  destruct (String.eqb k k') eqn:Hk.
  - apply String.eqb_eq in Hk; subst k'. intros H; injection H as ->; auto.
  - auto.
Qed.

Lemma c_avl_get_None t k : c_avl_get t k = None <-> ~ In k (keys t).
Proof.
  induction t as [|[k' w] t IH]; simpl; [tauto|].
  destruct (String.eqb k k') eqn:Hk.
  - apply String.eqb_eq in Hk; subst k'. split; [discriminate|tauto].
  - apply String.eqb_neq in Hk. rewrite IH. intuition congruence.
Qed.

Lemma In_c_avl_get t k v :
  NoDup (keys t) -> In (k, v) t -> c_avl_get t k = Some v.
Proof.
  induction t as [|[k' w] t IH]; simpl; [tauto|].
  intros Hnd [H|H]; inversion Hnd as [|? ? Hnotin Hnd']; subst.
  - injection H as -> ->. rewrite String.eqb_refl; reflexivity.
  - destruct (String.eqb k k') eqn:Hk; [|auto].
    apply String.eqb_eq in Hk; subst k'.
    exfalso; apply Hnotin. apply (in_map fst) in H; exact H.
Qed.

Lemma keys_store t key v : keys (store t key v) = keys t.
Proof.
  induction t as [|[k' w] t IH]; simpl; [reflexivity|].
  destruct (String.eqb key k'); simpl; [reflexivity|].
  f_equal; exact IH.
Qed.

Lemma c_avl_get_store t key v k :
  c_avl_get (store t key v) k =
  if String.eqb k key
  then match c_avl_get t key with Some _ => Some v | None => None end
  else c_avl_get t k.
Proof.
  induction t as [|[k' w] t IH]; simpl.
  - destruct (String.eqb k key); reflexivity.
  - destruct (String.eqb key k') eqn:Hkey; simpl.
    + apply String.eqb_eq in Hkey; subst k'.
      destruct (String.eqb k key); reflexivity.
    + rewrite IH. destruct (String.eqb k k') eqn:Hk; [|reflexivity].
      apply String.eqb_eq in Hk; subst k'.
      rewrite String.eqb_sym, Hkey; reflexivity.
Qed.

(** After a failed lookup [c_avl_insert] succeeds, and the new entry is the
    only change a lookup can see. *)
Lemma c_avl_insert_fresh t key v :
  c_avl_get t key = None ->
  exists t', c_avl_insert t key v = (t', 0)
    /\ (forall k, c_avl_get t' k
                  = if String.eqb k key then Some v else c_avl_get t k)
    /\ (forall k, In k (keys t') <-> k = key \/ In k (keys t))
    /\ (NoDup (keys t) -> NoDup (keys t')).
Proof.
  induction t as [|[k' w] t IH]; simpl; intros Hget.
  - eexists; split; [reflexivity|]. split; [|split].
    + intros k; simpl. reflexivity.
    + intros k; simpl. intuition congruence.
    + intros _; constructor; [simpl; tauto|constructor].
  - destruct (String.eqb key k') eqn:Hk; [discriminate|].
    apply String.eqb_neq in Hk.
    destruct (String.compare key k') eqn:Hc.
    + apply String.compare_eq_iff in Hc; contradiction.
    + eexists; split; [reflexivity|]. split; [|split].
      * intros k; reflexivity.
      * intros k; simpl. intuition congruence.
      * intros Hnd; simpl; constructor; [|exact Hnd].
        intros [H|H]; [congruence|].
        apply c_avl_get_None in Hget; contradiction.
    + destruct (IH Hget) as (t' & Hins & Hlook & Hkeys & Hnd).
      rewrite Hins. eexists; split; [reflexivity|]. split; [|split].
      * intros k; simpl. rewrite Hlook.
        destruct (String.eqb k k') eqn:Hkk; [|reflexivity].
        apply String.eqb_eq in Hkk; subst k'.
        apply String.eqb_neq in Hk. rewrite String.eqb_sym, Hk; reflexivity.
      * intros k; simpl. rewrite Hkeys. tauto.
      * intros Hnd'; inversion Hnd' as [|? ? Hnotin Hnd'']; subst.
        simpl; constructor; [|auto].
        rewrite Hkeys. intros [H|H]; [congruence|contradiction].
Qed.

Lemma c_avl_insert_In t key v t' status e :
  c_avl_insert t key v = (t', status) -> In e t' -> e = (key, v) \/ In e t.
Proof.
  revert t' status; induction t as [|[k' w] t IH]; simpl; intros t' status.
  - intros H; injection H as <- <-. simpl. intros [H|[]]; auto.
  - destruct (String.compare key k').
    + intros H; injection H as <- <-. auto.
    + intros H; injection H as <- <-. simpl. intros [H|H]; auto.
    + destruct (c_avl_insert t key v) as [r st] eqn:Hins.
      intros H; injection H as <- <-. simpl.
      intros [H|H]; [auto|]. destruct (IH r st eq_refl H); auto.
Qed.

Lemma store_In t key v e : In e (store t key v) -> e = (key, v) \/ In e t.
Proof.
  induction t as [|[k' w] t IH]; simpl; [tauto|].
  destruct (String.eqb key k') eqn:Hk; simpl.
  - apply String.eqb_eq in Hk; subst k'. intros [H|H]; auto.
  - intros [H|H]; [auto|]. destruct (IH H); auto.
Qed.

Lemma c_avl_remove_None t key :
  c_avl_remove t key = None -> c_avl_get t key = None.
Proof.
  induction t as [|[k' w] t IH]; simpl; [reflexivity|].
  destruct (String.eqb key k'); [discriminate|].
  destruct (c_avl_remove t key) as [[x r]|]; [discriminate|auto].
Qed.

(** Removing a key of a tree without duplicate keys leaves no entry under
    that key and every other entry in place. *)
Lemma c_avl_remove_Some t key v t' :
  NoDup (keys t) ->
  c_avl_remove t key = Some (v, t') ->
  NoDup (keys t')
  /\ forall k, c_avl_get t' k
               = if String.eqb k key then None else c_avl_get t k.
Proof.
  revert t'; induction t as [|[k' w] t IH]; simpl; intros t' Hnd;
    [discriminate|].
  inversion Hnd as [|? ? Hnotin Hnd']; subst.
  destruct (String.eqb key k') eqn:Hk.
  - apply String.eqb_eq in Hk; subst k'.
    intros H; injection H as <- <-. split; [exact Hnd'|].
    intros k. destruct (String.eqb k key) eqn:Hkk; [|reflexivity].
    apply String.eqb_eq in Hkk; subst k. apply c_avl_get_None; exact Hnotin.
  - destruct (c_avl_remove t key) as [[x r]|] eqn:Hr; [|discriminate].
    intros H; injection H as <- <-.
    destruct (IH r Hnd' eq_refl) as [Hnd_r Hlook]. split.
    + simpl; constructor; [|exact Hnd_r].
      intros Hin. apply Hnotin.
      apply c_avl_get_None in Hnotin.
      destruct (c_avl_get r k') eqn:Hg.
      * rewrite Hlook in Hg.
        destruct (String.eqb k' key); [discriminate|congruence].
      * apply c_avl_get_None in Hg; contradiction.
    + intros k; simpl. rewrite Hlook.
      destruct (String.eqb k k') eqn:Hkk; [|reflexivity].
      apply String.eqb_eq in Hkk; subst k'.
      rewrite String.eqb_sym, Hk; reflexivity.
Qed.

End AvlFacts.

(** ** Doubles *)
Section DoubleFacts.

Import Double.






(** The difference of a number with itself is zero. *)
Lemma sub_diag (x : double) : isfinite x = true -> sub x x = S754_zero false.
Proof.
  destruct x as [s|s| |s m e]; simpl; try discriminate; intros _.
  - destruct s; reflexivity.
  - unfold sub; simpl. rewrite Z.min_id, Z.sub_diag. reflexivity.
Qed.

(** Shifting a non-negative mantissa right keeps it non-negative. *)
Lemma shr_1_nonneg (mrs : shr_record) :
  0 <= shr_m mrs -> 0 <= shr_m (shr_1 mrs).
Proof.
  destruct mrs as [m r s]; simpl.
  destruct m as [|p|p]; simpl; try lia.
  - destruct p; simpl; lia.
Qed.

Lemma iter_shr_1_nonneg (p : positive) (mrs : shr_record) :
  0 <= shr_m mrs -> 0 <= shr_m (iter_pos shr_1 p mrs).
Proof.
  revert mrs; induction p as [p IH|p IH|]; intros mrs H; simpl.
  - apply IH, IH, shr_1_nonneg, H.
  - apply IH, IH, H.
  - apply shr_1_nonneg, H.
Qed.

Lemma shr_fexp_nonneg (m e : Z) (l : location) :
  0 <= m -> 0 <= shr_m (fst (shr_fexp prec emax m e l)).
Proof.
  intros Hm. unfold shr_fexp, shr.
  assert (H0 : 0 <= shr_m (shr_record_of_loc m l))
    by (destruct l as [|[| |]]; simpl; exact Hm).
  destruct (fexp prec emax (Zdigits2 m + e) - e); simpl;
    [exact H0 | apply iter_shr_1_nonneg, H0 | exact H0].
Qed.

Lemma binary_round_aux_not_nan (s : bool) (m e : Z) (l : location) :
  0 <= m -> isnan (binary_round_aux prec emax s m e l) = false.
Proof.
  intros Hm. unfold binary_round_aux.
  pose proof (shr_fexp_nonneg m e l Hm) as H1.
  destruct (shr_fexp prec emax m e l) as [mrs' e']; simpl in H1.
  assert (H2 : 0 <= round_nearest_even (shr_m mrs') (loc_of_shr_record mrs')).
  { unfold round_nearest_even.
    destruct (loc_of_shr_record mrs') as [|[| |]]; try lia.
    destruct (Z.even (shr_m mrs')); lia. }
  pose proof (shr_fexp_nonneg _ e' loc_Exact H2) as H3.
  destruct (shr_fexp prec emax _ e' loc_Exact) as [mrs'' e'']; simpl in H3.
  destruct (shr_m mrs''); try reflexivity; try lia.
  destruct (e'' <=? emax - prec); reflexivity.
Qed.

(** The conversion of an integer is never NaN. *)
Lemma of_Z_not_nan (n : Z) : isnan (of_Z n) = false.
Proof.
  unfold of_Z, binary_normalize.
  destruct n as [|p|p]; [reflexivity| |];
    unfold binary_round;
    destruct (shl_align p 0 _) as [mz ez];
    apply binary_round_aux_not_nan; lia.
Qed.

End DoubleFacts.

(** ** Machine integers *)
Section CIntFacts.

Import CInt.

Lemma i64_in_range (x : Z) : INT64_MIN <= x <= INT64_MAX -> i64 x = x.
Proof.
  unfold INT64_MIN, INT64_MAX, i64, wrap_signed. intros H.
  rewrite Z.mod_small; lia.
Qed.

Lemma i64_range (x : Z) : INT64_MIN <= i64 x <= INT64_MAX.
Proof.
  unfold INT64_MIN, INT64_MAX, i64, wrap_signed.
  pose proof (Z.mod_pos_bound (x + 2 ^ (64 - 1)) (2 ^ 64) ltac:(lia)). lia.
Qed.

Lemma i64_add_l (a b : Z) : i64 (i64 a + b) = i64 (a + b).
Proof.
  unfold i64, wrap_signed. f_equal.
  replace ((a + 2 ^ (64 - 1)) mod 2 ^ 64 - 2 ^ (64 - 1) + b + 2 ^ (64 - 1))
    with ((a + 2 ^ (64 - 1)) mod 2 ^ 64 + b) by lia.
  rewrite Zplus_mod_idemp_l. f_equal; lia.
Qed.

Lemma u64_small (x : Z) : 0 <= x <= UINT64_MAX -> u64 x = x.
Proof.
  unfold UINT64_MAX, u64, wrap_unsigned. intros H.
  apply Z.mod_small; lia.
Qed.

Lemma u64_range (x : Z) : 0 <= u64 x <= UINT64_MAX.
Proof.
  unfold UINT64_MAX, u64, wrap_unsigned.
  pose proof (Z.mod_pos_bound x (2 ^ 64) ltac:(lia)). lia.
Qed.

End CIntFacts.

(** ** [src/statsd.c]: keys and names *)
Section StatsdNames.

Import CInt Double CStr Avl Latency Statsd.

Context {E : Externals}.

Implicit Types (t : metrics_tree_t) (name key : string) (ty : metric_type_t).


Lemma first_char_metric_key name ty :
  first_char (metric_key name ty) = key_tag ty.
Proof. reflexivity. Qed.

Lemma key_tag_inj ty1 ty2 : key_tag ty1 = key_tag ty2 -> ty1 = ty2.
Proof. destruct ty1, ty2; simpl; intros H; try reflexivity; discriminate. Qed.

(** The literal type and plugin names fit their buffers. *)
Lemma sstrncpy_literal (s : string) :
  (String.length s < 8)%nat -> sstrncpy s DATA_MAX_NAME_LEN = s.
Proof.
  intros H. apply sstrncpy_short.
  pose proof DATA_MAX_NAME_LEN_holds_types. lia.
Qed.

End StatsdNames.

(** Rewrites the copies of literal names into the literals. *)
Ltac literal_names :=
  repeat match goal with
         | |- context [CStr.sstrncpy ?s DATA_MAX_NAME_LEN] =>
             rewrite (sstrncpy_literal s) by (simpl; lia)
         end.

(** ** [src/statsd.c]: updates *)
Section StatsdUpdates.

Import CInt Double CStr Avl Latency Statsd.

Context {E : Externals}.

Implicit Types (t : metrics_tree_t) (name key : string) (ty : metric_type_t).

(** [statsd_metric_lookup_unsafe] never returns NULL in the model: it
    returns the entry under the key, creating it when it is missing, and
    changes nothing else. *)
Lemma statsd_metric_lookup_unsafe_spec name ty t :
  exists t',
    statsd_metric_lookup_unsafe name ty t
    = Some (metric_key name ty, looked_up t name ty, t')
    /\ c_avl_get t' (metric_key name ty) = Some (looked_up t name ty)
    /\ (forall k, k <> metric_key name ty -> c_avl_get t' k = c_avl_get t k)
    /\ (NoDup (keys t) -> NoDup (keys t'))
    /\ (forall e, In e t' -> e = (metric_key name ty, new_metric ty) \/ In e t).
Proof.
  unfold statsd_metric_lookup_unsafe, looked_up.
  destruct (c_avl_get t (metric_key name ty)) as [metric|] eqn:Hget.
  - exists t. split; [reflexivity|]. split; [exact Hget|].
    split; [reflexivity|]. split; auto.
  - destruct (c_avl_insert_fresh t (metric_key name ty) (new_metric ty) Hget)
      as (t' & Hins & Hlook & Hkeys & Hnd).
    exists t'. rewrite Hins; simpl. split; [reflexivity|].
    split; [|split; [|split]].
    + rewrite Hlook, String.eqb_refl; reflexivity.
    + intros k Hk. rewrite Hlook.
      apply String.eqb_neq in Hk; rewrite Hk; reflexivity.
    + exact Hnd.
    + intros e Hin. eapply c_avl_insert_In; eauto.
Qed.

Lemma looked_up_type name ty t :
  tree_ok t -> type (looked_up t name ty) = ty.
Proof.
  intros [_ Htags]. unfold looked_up.
  destruct (c_avl_get t (metric_key name ty)) as [m|] eqn:Hget;
    [|reflexivity].
  apply c_avl_get_In in Hget.
  rewrite Forall_forall in Htags. specialize (Htags _ Hget); simpl in Htags.
  symmetry; apply key_tag_inj; exact Htags.
Qed.

(** A lookup followed by a write through the returned pointer: the entry
    under the key becomes the written metric, and nothing else changes. *)
Lemma lookup_then_store name ty t (f : statsd_metric_t -> statsd_metric_t) :
  let key := metric_key name ty in
  let old := looked_up t name ty in
  exists t',
    statsd_metric_lookup_unsafe name ty t = Some (key, old, t')
    /\ c_avl_get (store t' key (f old)) key = Some (f old)
    /\ (forall k, k <> key ->
                  c_avl_get (store t' key (f old)) k = c_avl_get t k)
    /\ (NoDup (keys t) -> NoDup (keys (store t' key (f old))))
    /\ (tree_ok t -> type (f old) = type old ->
        tree_ok (store t' key (f old))).
Proof.
  intros key old.
  destruct (statsd_metric_lookup_unsafe_spec name ty t)
    as (t' & Hlook & Hget & Hframe & Hnd & Hin).
  exists t'. split; [exact Hlook|]. split; [|split; [|split]].
  - rewrite c_avl_get_store, String.eqb_refl. fold key old in Hget.
    rewrite Hget; reflexivity.
  - intros k Hk. rewrite c_avl_get_store.
    apply String.eqb_neq in Hk as Hk'; rewrite Hk'. apply Hframe, Hk.
  - intros H. rewrite keys_store. apply Hnd, H.
  - intros Hok Htype. split.
    + change (NoDup (keys (store t' key (f old)))).
      rewrite keys_store. apply Hnd, Hok.
    + apply Forall_forall. intros e He.
      pose proof (looked_up_type name ty t Hok) as Hty. fold old in Hty.
      destruct (store_In _ _ _ _ He) as [->|He'].
      * simpl. rewrite Htype, Hty. reflexivity.
      * destruct (Hin _ He') as [->|He'']; [reflexivity|].
        destruct Hok as [_ Htags]. rewrite Forall_forall in Htags.
        apply Htags, He''.
Qed.

Lemma statsd_metric_add_eq name delta ty t :
  exists t',
    statsd_metric_lookup_unsafe name ty t
    = Some (metric_key name ty, looked_up t name ty, t')
    /\ statsd_metric_add name delta ty t
       = (0, store t' (metric_key name ty)
               (incr_updates_num
                  (with_value (add (value (looked_up t name ty)) delta)
                     (looked_up t name ty)))).
Proof.
  destruct (statsd_metric_lookup_unsafe_spec name ty t) as (t' & Hlook & _).
  exists t'. split; [exact Hlook|].
  unfold statsd_metric_add. rewrite Hlook. reflexivity.
Qed.


(** [statsd_metric_add] adds [delta] to the value of the looked-up metric
    and counts the update; every other entry stays as it was. *)
Lemma statsd_metric_add_spec name delta ty t :
  let key := metric_key name ty in
  let old := looked_up t name ty in
  exists t',
    statsd_metric_add name delta ty t = (0, t')
    /\ c_avl_get t' key
       = Some (incr_updates_num (with_value (add (value old) delta) old))
    /\ (forall k, k <> key -> c_avl_get t' k = c_avl_get t k)
    /\ (tree_ok t -> tree_ok t').
Proof.
  intros key old.
  destruct (lookup_then_store name ty t
              (fun m => incr_updates_num
                          (with_value (add (value m) delta) m)))
    as (t1 & Hlook & Hget & Hframe & _ & Hok).
  destruct (statsd_metric_add_eq name delta ty t) as (t2 & Hlook2 & Hadd).
  rewrite Hlook in Hlook2; injection Hlook2 as <-.
  eexists; split; [exact Hadd|]. split; [exact Hget|].
  split; [exact Hframe|]. intros H; apply Hok; [exact H|reflexivity].
Qed.


Lemma tree_ok_nil : tree_ok [].
Proof. split; constructor. Qed.

End StatsdUpdates.

(** ** [src/statsd.c]: the read callback *)
Section StatsdRead.

Import CInt Double CStr Avl Latency Statsd.

Context {E : Externals}.

Implicit Types (t pre post : metrics_tree_t) (k key : string)
  (m : statsd_metric_t) (conf : statsd_conf) (clock : nat -> Z).

(** One round of the loop, for an entry followed by [rest]. *)
Lemma statsd_read_loop_cons conf clock i k m rest :
  statsd_read_loop conf clock i ((k, m) :: rest)
  = let '(rest', dispatched, to_be_deleted) :=
      statsd_read_loop conf clock (S i) rest in
    if delete_when_idle conf m
    then ((k, m) :: rest', dispatched, k :: to_be_deleted)
    else ((k, flushed conf k m (clock i)) :: rest',
          emitted conf k m (clock i) ++ dispatched, to_be_deleted).
Proof.
  cbn [statsd_read_loop].
  destruct (statsd_read_loop conf clock (S i) rest) as [[r d] del].
  destruct (delete_when_idle conf m); [reflexivity|].
  unfold flushed, emitted.
  destruct (statsd_metric_submit_unsafe conf (skip 2 k) m (clock i));
    reflexivity.
Qed.

(** The loop over a concatenation is the loop over its parts. *)
Lemma statsd_read_loop_app conf clock i pre post :
  statsd_read_loop conf clock i (pre ++ post)
  = let '(t1, out1, del1) := statsd_read_loop conf clock i pre in
    let '(t2, out2, del2) :=
      statsd_read_loop conf clock (i + List.length pre) post in
    (t1 ++ t2, out1 ++ out2, del1 ++ del2).
Proof.
  revert i; induction pre as [|[k m] pre IH]; intros i.
  - simpl. rewrite Nat.add_0_r.
    destruct (statsd_read_loop conf clock i post) as [[a b] c]; reflexivity.
  - rewrite <- app_comm_cons, !statsd_read_loop_cons, IH.
    simpl List.length. rewrite <- Nat.add_succ_comm.
    destruct (statsd_read_loop conf clock (S i) pre) as [[t1 out1] del1].
    destruct (statsd_read_loop conf clock (S i + List.length pre) post)
      as [[t2 out2] del2].
    destruct (delete_when_idle conf m); simpl; try reflexivity.
    rewrite app_assoc; reflexivity.
Qed.

(** The loop neither adds nor removes an entry, and collects exactly the
    keys of the idle entries whose kind is configured for deletion. *)
Lemma statsd_read_loop_keys conf clock i t :
  let '(t', _, to_be_deleted) := statsd_read_loop conf clock i t in
  keys t' = keys t
  /\ to_be_deleted
     = keys (filter (fun e => delete_when_idle conf (snd e)) t).
Proof.
  revert i; induction t as [|[k m] t IH]; intros i.
  - simpl; auto.
  - rewrite statsd_read_loop_cons. specialize (IH (S i)).
    destruct (statsd_read_loop conf clock (S i) t) as [[t' out] del].
    destruct IH as [IHk IHd]. simpl.
    destruct (delete_when_idle conf m); simpl; rewrite IHk, IHd; auto.
Qed.

Lemma remove_deleted_spec t (del : list string) :
  NoDup (keys t) ->
  NoDup (keys (remove_deleted t del))
  /\ forall k, c_avl_get (remove_deleted t del) k
               = if existsb (String.eqb k) del then None else c_avl_get t k.
Proof.
  revert t; induction del as [|d del IH]; intros t Hnd.
  - simpl; auto.
  - unfold remove_deleted; simpl fold_left.
    destruct (c_avl_remove t d) as [[v t1]|] eqn:Hrem.
    + destruct (c_avl_remove_Some t d v t1 Hnd Hrem) as [Hnd1 Hlook1].
      destruct (IH t1 Hnd1) as [Hnd2 Hlook2]. split; [exact Hnd2|].
      intros k. unfold remove_deleted in Hlook2. rewrite Hlook2, Hlook1.
      simpl. destruct (String.eqb k d), (existsb (String.eqb k) del);
        reflexivity.
    + destruct (IH t Hnd) as [Hnd2 Hlook2]. split; [exact Hnd2|].
      intros k. unfold remove_deleted in Hlook2. rewrite Hlook2. simpl.
      destruct (String.eqb k d) eqn:Hk; [|reflexivity].
      apply String.eqb_eq in Hk; subst k. simpl.
      rewrite (c_avl_remove_None t d Hrem).
      destruct (existsb (String.eqb d) del); reflexivity.
Qed.

Lemma existsb_eqb_In k (l : list string) :
  existsb (String.eqb k) l = true <-> In k l.
Proof.
  rewrite existsb_exists. split.
  - intros (x & Hin & Hx). apply String.eqb_eq in Hx; subst; exact Hin.
  - intros H; exists k; split; [exact H|apply String.eqb_refl].
Qed.

Lemma In_keys_filter k (f : string * statsd_metric_t -> bool) t :
  In k (keys (filter f t)) -> exists m, In (k, m) t /\ f (k, m) = true.
Proof.
  unfold keys. rewrite in_map_iff. intros ([k' m] & Hk & Hin).
  simpl in Hk; subst k'. apply filter_In in Hin. eauto.
Qed.

(** [statsd_read] seen from one entry of a tree without duplicate keys.
    The values dispatched are those of the entries before it, then its own,
    then those of the entries after it.  An idle entry whose kind is
    configured for deletion contributes nothing and is gone from the tree
    afterwards; any other entry is submitted and stays, reset. *)
Lemma statsd_read_entry conf clock pre k m post :
  NoDup (keys (pre ++ (k, m) :: post)) ->
  exists t',
    statsd_read conf clock (Some (pre ++ (k, m) :: post))
    = (0, Some t',
       dispatched_over conf clock 0 pre
       ++ (if delete_when_idle conf m then []
           else emitted conf k m (clock (List.length pre)))
       ++ dispatched_over conf clock (S (List.length pre)) post)
    /\ NoDup (keys t')
    /\ c_avl_get t' k
       = if delete_when_idle conf m then None
         else Some (flushed conf k m (clock (List.length pre))).
Proof.
  intros Hnd. unfold statsd_read.
  pose proof (statsd_read_loop_keys conf clock 0 (pre ++ (k, m) :: post))
    as Hkeys.
  rewrite statsd_read_loop_app, statsd_read_loop_cons in *.
  unfold dispatched_over. simpl Nat.add in *.
  destruct (statsd_read_loop conf clock 0 pre) as [[t1 out1] del1].
  destruct (statsd_read_loop conf clock (S (List.length pre)) post)
    as [[t2 out2] del2].
  simpl fst; simpl snd.
  set (loop_tree := t1 ++ (if delete_when_idle conf m
                           then (k, m)
                           else (k, flushed conf k m (clock (List.length pre))))
                         :: t2).
  assert (Hloop_keys : keys loop_tree = keys (pre ++ (k, m) :: post)).
  { destruct (delete_when_idle conf m); apply Hkeys. }
  assert (Hnd_loop : NoDup (keys loop_tree)) by (rewrite Hloop_keys; exact Hnd).
  assert (Hget_loop :
            c_avl_get loop_tree k
            = Some (if delete_when_idle conf m then m
                    else flushed conf k m (clock (List.length pre)))).
  { apply In_c_avl_get; [exact Hnd_loop|].
    unfold loop_tree. apply in_or_app; right; left.
    destruct (delete_when_idle conf m); reflexivity. }
  destruct (delete_when_idle conf m) eqn:Hidle.
  - destruct Hkeys as [_ Hdel].
    destruct (remove_deleted_spec loop_tree (del1 ++ k :: del2) Hnd_loop)
      as [Hnd' Hlook].
    eexists; split; [reflexivity|]. split; [exact Hnd'|].
    rewrite Hlook.
    replace (existsb (String.eqb k) (del1 ++ k :: del2)) with true;
      [reflexivity|].
    symmetry; apply existsb_eqb_In, in_or_app; right; left; reflexivity.
  - destruct Hkeys as [_ Hdel].
    destruct (remove_deleted_spec loop_tree (del1 ++ del2) Hnd_loop)
      as [Hnd' Hlook].
    eexists; split; [reflexivity|]. split; [exact Hnd'|].
    rewrite Hlook, Hget_loop.
    destruct (existsb (String.eqb k) (del1 ++ del2)) eqn:Hex; [|reflexivity].
    exfalso. apply existsb_eqb_In in Hex. rewrite Hdel in Hex.
    apply In_keys_filter in Hex as (m' & Hin & Hf). simpl in Hf.
    assert (Hm' : c_avl_get (pre ++ (k, m) :: post) k = Some m')
      by (apply In_c_avl_get; assumption).
    assert (Hm : c_avl_get (pre ++ (k, m) :: post) k = Some m)
      by (apply In_c_avl_get; [assumption|]; apply in_or_app; right; left;
          reflexivity).
    congruence.
Qed.

End StatsdRead.

(** ** [src/statsd.c]: what a flush does to a cell *)
Section StatsdFlush.

Import CInt Double CStr Avl Latency Statsd.

Context {E : Externals}.

Implicit Types (t pre post : metrics_tree_t) (k key name : string)
  (m : statsd_metric_t) (conf : statsd_conf) (clock : nat -> Z).

Lemma delete_when_idle_flag conf m :
  delete_when_idle conf m
  = (updates_num m =? 0) && delete_flag conf (type m).
Proof.
  unfold delete_when_idle, delete_flag.
  destruct (type m); simpl;
    rewrite ?andb_false_r, ?andb_true_r, ?orb_false_r; try reflexivity.
Qed.

(** Every submit dispatches at least one value. *)
Lemma emitted_nonempty conf k m now : emitted conf k m now <> [].
Proof.
  unfold emitted, statsd_metric_submit_unsafe.
  destruct (type m); simpl; try discriminate.
  destruct (submit_counter conf m _) as [[out vl'] m']; simpl.
  destruct out; discriminate.
Qed.

(** A gauge is dispatched as its value, once, and only loses its update
    count. *)
Lemma emitted_gauge conf k m now :
  type m = STATSD_GAUGE ->
  emitted conf k m now = [gauge_value_list (skip 2 k) (value m)].
Proof.
  intros Hty. unfold emitted, statsd_metric_submit_unsafe, vl_init.
  rewrite Hty; simpl.
  unfold vl_set_values, vl_set_type_instance, vl_set_type, gauge_value_list,
    statsd_value_list; simpl.
  literal_names. reflexivity.
Qed.

Lemma flushed_gauge conf k m now :
  type m = STATSD_GAUGE -> flushed conf k m now = with_updates_num 0 m.
Proof.
  intros Hty. unfold flushed, statsd_metric_submit_unsafe, reset_metric.
  rewrite Hty; simpl. rewrite Hty; reflexivity.
Qed.

(** A read, seen from a gauge that is not deleted: its value is dispatched
    as it is, and the entry keeps it. *)
Lemma statsd_read_gauge conf clock t k m :
  NoDup (keys t) -> c_avl_get t k = Some m ->
  type m = STATSD_GAUGE -> delete_when_idle conf m = false ->
  exists pre post t',
    t = pre ++ (k, m) :: post
    /\ statsd_read conf clock (Some t)
       = (0, Some t',
          dispatched_over conf clock 0 pre
          ++ [gauge_value_list (skip 2 k) (value m)]
          ++ dispatched_over conf clock (S (List.length pre)) post)
    /\ NoDup (keys t')
    /\ c_avl_get t' k = Some (with_updates_num 0 m).
Proof.
  intros Hnd Hget Hty Hidle.
  destruct (in_split _ _ (c_avl_get_In _ _ _ Hget)) as (pre & post & ->).
  destruct (statsd_read_entry conf clock pre k m post Hnd)
    as (t' & Hread & Hnd' & Hget').
  rewrite Hidle in Hread, Hget'.
  rewrite (emitted_gauge conf k m _ Hty) in Hread.
  rewrite (flushed_gauge conf k m _ Hty) in Hget'.
  exists pre, post, t'. auto.
Qed.

End StatsdFlush.

(** ** [src/statsd.c]: the line parser *)
Section StatsdParser.

Import CInt Double CStr Avl Latency Statsd.

Context {E : Externals}.

Implicit Types (t : metrics_tree_t) (name value_str ty buffer : string)
  (extra : option string).


Lemma parse_scale_inl extra status :
  parse_scale extra = inl status -> status = -1.
Proof.
  unfold parse_scale. destruct extra as [e|]; [|discriminate].
  destruct (negb _); [congruence|].
  destruct (statsd_parse_value _) as [s|]; [|congruence].
  destruct (_ || _ || _); congruence.
Qed.


Lemma statsd_handle_counter_refused name value_str extra t :
  fst (statsd_handle_counter name value_str extra t) <> 0 ->
  statsd_handle_counter name value_str extra t = (-1, t).
Proof.
  unfold statsd_handle_counter.
  destruct (parse_scale extra) as [status|scale] eqn:Hs.
  - apply parse_scale_inl in Hs; subst; reflexivity.
  - destruct (statsd_parse_value value_str) as [v|]; [|reflexivity].
    destruct (statsd_metric_add_spec name (div v scale) STATSD_COUNTER t)
      as (t' & -> & _). simpl; congruence.
Qed.




End StatsdParser.

(** ** [src/statsd.c]: submitting counters and timers *)
Section StatsdSubmit.

Import CInt Double CStr Avl Latency Statsd.

Context {E : Externals}.

Implicit Types (name : string) (m : statsd_metric_t) (conf : statsd_conf).

(** The counter branch written out: up to three values are dispatched, the
    residual loses [delta = nearbyint (residual)] and the total gains it,
    whatever the options are. *)
Lemma submit_counter_eq conf name m now :
  type m = STATSD_COUNTER ->
  let delta := nearbyint (value m) in
  let total := i64 (counter m + to_int64 delta) in
  statsd_metric_submit_unsafe conf name m now
  = ((if conf_counter_sum conf
      then [statsd_value_list "count" name (gauge delta) 0] else [])
     ++ (if conf_counter_gauge conf
         then [gauge_value_list name (value m)] else [])
     ++ [statsd_value_list "derive" name (derive total) 0],
     with_counter total (with_value (sub (value m) delta) m)).
Proof.
  intros Hty delta total.
  unfold statsd_metric_submit_unsafe, submit_counter, vl_init.
  rewrite Hty. fold delta.
  unfold gauge_value_list, statsd_value_list, vl_set_values, vl_set_type,
    vl_set_type_instance, with_counter, with_value, type_of_metric; simpl.
  destruct (conf_counter_sum conf), (conf_counter_gauge conf); simpl;
    literal_names; reflexivity.
Qed.

Lemma flushed_counter conf key m now :
  type m = STATSD_COUNTER ->
  flushed conf key m now
  = with_updates_num 0
      (with_counter (i64 (counter m + to_int64 (nearbyint (value m))))
         (with_value (sub (value m) (nearbyint (value m))) m)).
Proof.
  intros Hty. unfold flushed.
  rewrite (submit_counter_eq conf _ m now Hty). unfold reset_metric; simpl.
  rewrite Hty. reflexivity.
Qed.

Lemma flushed_type conf key m now : type (flushed conf key m now) = type m.
Proof.
  destruct (type m) eqn:Hty.
  - rewrite (flushed_counter conf key m now Hty). exact Hty.
  - unfold flushed, statsd_metric_submit_unsafe, reset_metric.
    rewrite Hty; simpl. rewrite Hty; exact Hty.
  - unfold flushed, statsd_metric_submit_unsafe, reset_metric.
    rewrite Hty; simpl. rewrite Hty; exact Hty.
  - unfold flushed, statsd_metric_submit_unsafe, reset_metric.
    rewrite Hty; simpl. rewrite Hty.
    unfold statsd_metric_clear_set_unsafe; simpl.
    destruct (set m); exact Hty.
Qed.

Lemma counter_step_type conf m ev :
  type (counter_step conf m ev) = type m.
Proof.
  destruct ev as [v scale|]; [reflexivity|]. apply flushed_type.
Qed.

Lemma counter_run_type conf events m :
  type (counter_run conf events m) = type m.
Proof.
  revert m; induction events as [|ev events IH]; intros m; [reflexivity|].
  unfold counter_run in *; cbn [fold_left].
  rewrite IH. apply counter_step_type.
Qed.

Lemma to_int64_range (x : double) : INT64_MIN <= to_int64 x <= INT64_MAX.
Proof.
  unfold to_int64.
  destruct (trunc_Z x) as [n|]; [|unfold INT64_MIN, INT64_MAX; lia].
  destruct ((INT64_MIN <=? n) && (n <=? INT64_MAX)) eqn:H;
    [|unfold INT64_MIN, INT64_MAX; lia].
  apply andb_prop in H as [H1 H2]. lia.
Qed.

(** The total after a run of updates and flushes is the total before plus
    everything the flushes credited. *)
Lemma counter_run_total conf events m :
  type m = STATSD_COUNTER ->
  i64 (counter (counter_run conf events m))
  = i64 (counter m + fold_right Z.add 0 (credited conf events m)).
Proof.
  revert m; induction events as [|ev events IH]; intros m Hty.
  - simpl. rewrite Z.add_0_r; reflexivity.
  - unfold counter_run in *. cbn [fold_left credited].
    rewrite IH by (rewrite counter_step_type; exact Hty).
    destruct ev as [v scale|].
    + reflexivity.
    + cbn [counter_step app fold_right].
      rewrite (flushed_counter conf _ m 0 Hty). simpl counter.
      rewrite i64_add_l. f_equal; lia.
Qed.

Lemma counter_run_in_range conf events m :
  type m = STATSD_COUNTER ->
  INT64_MIN <= counter m <= INT64_MAX ->
  INT64_MIN <= counter (counter_run conf events m) <= INT64_MAX.
Proof.
  revert m; induction events as [|ev events IH]; intros m Hty Hr;
    [exact Hr|].
  unfold counter_run in *; cbn [fold_left]. apply IH.
  - rewrite counter_step_type; exact Hty.
  - destruct ev as [v scale|]; [exact Hr|].
    cbn [counter_step]. rewrite (flushed_counter conf _ m 0 Hty). simpl.
    apply i64_range.
Qed.

(** Updates alone leave the total alone and accumulate in the residual. *)
Lemma counter_run_updates conf (updates : list (double * double)) m :
  counter (counter_run conf
             (map (fun vr => counter_update (fst vr) (snd vr)) updates) m)
  = counter m
  /\ value (counter_run conf
              (map (fun vr => counter_update (fst vr) (snd vr)) updates) m)
     = fold_left (fun acc vr => add acc (div (fst vr) (snd vr))) updates
         (value m).
Proof.
  revert m; induction updates as [|[v r] updates IH]; intros m; [auto|].
  unfold counter_run in *; cbn [map fold_left fst snd].
  destruct (IH (counter_step conf m (counter_update v r))) as [Hc Hv].
  split; [rewrite Hc; reflexivity|]. rewrite Hv; reflexivity.
Qed.

(** The timer branch written out. *)
Lemma submit_timer_eq conf name m now :
  type m = STATSD_TIMER ->
  let lc := latency m in
  let stat x := if 0 <? updates_num m then CDTIME_T_TO_DOUBLE x else NAN in
  let latency_vl suffix x :=
    statsd_value_list "latency" (name ++ suffix) (gauge (stat x)) now in
  statsd_metric_submit_unsafe conf name m now
  = ([latency_vl "-average"%string (latency_counter_get_average lc)]
     ++ (if conf_timer_lower conf
         then [latency_vl "-lower"%string (latency_counter_get_min lc)]
         else [])
     ++ (if conf_timer_upper conf
         then [latency_vl "-upper"%string (latency_counter_get_max lc)]
         else [])
     ++ (if conf_timer_sum conf
         then [latency_vl "-sum"%string (latency_counter_get_sum lc)]
         else [])
     ++ map (fun percent =>
               latency_vl ("-percentile-" ++ printf_0f percent)%string
                 (latency_counter_get_percentile lc percent))
          (conf_timer_percentile conf)
     ++ (if conf_timer_count conf
         then [statsd_value_list "gauge" (name ++ "-count")
                 (gauge (of_Z (latency_counter_get_num lc))) now]
         else []),
     with_latency (latency_counter_reset (latency m)) m).
Proof.
  intros Hty lc stat latency_vl.
  unfold statsd_metric_submit_unsafe. rewrite Hty.
  unfold submit_timer, timer_stat, vl_init. rewrite Hty.
  fold lc. unfold latency_vl, stat, statsd_value_list, vl_set_values,
    vl_set_type_instance, vl_set_type, vl_set_time, type_of_metric; simpl.
  literal_names.
  reflexivity.
Qed.

End StatsdSubmit.

(** ** [src/statsd.c]: the trees the plugin reaches *)
Section StatsdReachable.

Import CInt Double CStr Avl Latency Statsd.

Context {E : Externals}.

Implicit Types (t : metrics_tree_t) (name key k : string)
  (ty : metric_type_t) (m : statsd_metric_t) (conf : statsd_conf).

(** What holds of every entry, of a new metric and of the metric written
    holds of every entry after a lookup and a write. *)
Lemma lookup_then_store_Forall name ty t t'
  (f : statsd_metric_t -> statsd_metric_t)
  (Q : string * statsd_metric_t -> Prop) :
  statsd_metric_lookup_unsafe name ty t
  = Some (metric_key name ty, looked_up t name ty, t') ->
  Forall Q t ->
  Q (metric_key name ty, new_metric ty) ->
  Q (metric_key name ty, f (looked_up t name ty)) ->
  Forall Q (store t' (metric_key name ty) (f (looked_up t name ty))).
Proof.
  intros Hlook Hall Hnew Hf.
  destruct (statsd_metric_lookup_unsafe_spec name ty t)
    as (t1 & Hlook1 & _ & _ & _ & Hin).
  rewrite Hlook in Hlook1; injection Hlook1 as <-.
  rewrite Forall_forall in *. intros e He.
  destruct (store_In _ _ _ _ He) as [->|He']; [exact Hf|].
  destruct (Hin _ He') as [->|He'']; [exact Hnew|auto].
Qed.

Lemma reachable_ok_tree_ok t : reachable_ok t -> tree_ok t.
Proof.
  intros [Hnd Hall]. split; [exact Hnd|].
  eapply Forall_impl; [|exact Hall]. intros e [H _]; exact H.
Qed.

Lemma entry_ok_new name ty : entry_ok (metric_key name ty, new_metric ty).
Proof. split; [reflexivity|]. intros _; reflexivity. Qed.

(** An update by lookup and write keeps the invariants when the written
    metric keeps the type and, if it is a timer, counts its samples. *)
Lemma reachable_ok_update name ty t (f : statsd_metric_t -> statsd_metric_t) :
  reachable_ok t ->
  type (f (looked_up t name ty)) = ty ->
  timer_counts_samples (f (looked_up t name ty)) ->
  exists t',
    statsd_metric_lookup_unsafe name ty t
    = Some (metric_key name ty, looked_up t name ty, t')
    /\ reachable_ok
         (store t' (metric_key name ty) (f (looked_up t name ty))).
Proof.
  intros [Hnd Hall] Hty Htimer.
  destruct (lookup_then_store name ty t f) as (t' & Hlook & _ & _ & Hnd' & _).
  exists t'. split; [exact Hlook|]. split; [apply Hnd', Hnd|].
  eapply lookup_then_store_Forall; [exact Hlook|exact Hall| |].
  - apply entry_ok_new.
  - split; [simpl; rewrite Hty; reflexivity|exact Htimer].
Qed.

Lemma reachable_looked_up name ty t :
  reachable_ok t ->
  type (looked_up t name ty) = ty
  /\ timer_counts_samples (looked_up t name ty).
Proof.
  intros Hok. split; [apply looked_up_type, reachable_ok_tree_ok, Hok|].
  unfold looked_up.
  destruct (c_avl_get t (metric_key name ty)) as [m|] eqn:Hget.
  - destruct Hok as [_ Hall]. rewrite Forall_forall in Hall.
    apply (Hall _ (c_avl_get_In _ _ _ Hget)).
  - intros _; reflexivity.
Qed.

Lemma u64_succ (n : Z) : u64 (u64 n + 1) = u64 (n + 1).
Proof. unfold u64, wrap_unsigned. apply Zplus_mod_idemp_l. Qed.

Lemma statsd_metric_add_reachable name delta ty t :
  ty <> STATSD_TIMER -> reachable_ok t ->
  reachable_ok (snd (statsd_metric_add name delta ty t)).
Proof.
  intros Hty Hok.
  destruct (reachable_looked_up name ty t Hok) as [Hold _].
  destruct (reachable_ok_update name ty t
              (fun m => incr_updates_num (with_value (add (value m) delta) m))
              Hok Hold)
    as (t' & Hlook & Hok').
  { intros H; simpl in H. congruence. }
  unfold statsd_metric_add. rewrite Hlook. exact Hok'.
Qed.

Lemma statsd_metric_set_reachable name v ty t :
  ty <> STATSD_TIMER -> reachable_ok t ->
  reachable_ok (snd (statsd_metric_set name v ty t)).
Proof.
  intros Hty Hok.
  destruct (reachable_looked_up name ty t Hok) as [Hold _].
  destruct (reachable_ok_update name ty t
              (fun m => incr_updates_num (with_value v m)) Hok Hold)
    as (t' & Hlook & Hok').
  { intros H; simpl in H. congruence. }
  unfold statsd_metric_set. rewrite Hlook. exact Hok'.
Qed.

Lemma statsd_handle_counter_reachable name value_str extra t :
  reachable_ok t ->
  reachable_ok (snd (statsd_handle_counter name value_str extra t)).
Proof.
  intros Hok. unfold statsd_handle_counter.
  destruct (parse_scale extra); [exact Hok|].
  destruct (statsd_parse_value value_str); [|exact Hok].
  apply statsd_metric_add_reachable; [discriminate|exact Hok].
Qed.

Lemma statsd_handle_gauge_reachable name value_str t :
  reachable_ok t ->
  reachable_ok (snd (statsd_handle_gauge name value_str t)).
Proof.
  intros Hok. unfold statsd_handle_gauge.
  destruct (statsd_parse_value value_str); [|exact Hok].
  destruct (_ || _).
  - apply statsd_metric_add_reachable; [discriminate|exact Hok].
  - apply statsd_metric_set_reachable; [discriminate|exact Hok].
Qed.

Lemma statsd_handle_timer_reachable name value_str extra t :
  reachable_ok t ->
  reachable_ok (snd (statsd_handle_timer name value_str extra t)).
Proof.
  intros Hok. unfold statsd_handle_timer.
  destruct (parse_scale extra); [exact Hok|].
  destruct (statsd_parse_value value_str) as [v|]; [|exact Hok].
  destruct (reachable_looked_up name STATSD_TIMER t Hok) as [Hold Hcount].
  destruct (reachable_ok_update name STATSD_TIMER t
              (fun m =>
                 incr_updates_num
                   (with_latency
                      (Some (latency_counter_add
                               match latency m with
                               | Some lc => lc
                               | None => latency_counter_create
                               end (MS_TO_CDTIME_T (div v d)))) m))
              Hok Hold)
    as (t' & Hlook & Hok').
  { intros _. simpl. rewrite (Hcount Hold), u64_succ. f_equal.
    unfold latency_counter_get_num, latency_counter_add; simpl.
    destruct (latency (looked_up t name STATSD_TIMER)); simpl; lia. }
  rewrite Hlook. exact Hok'.
Qed.

Lemma statsd_handle_set_reachable name set_key_orig t :
  reachable_ok t ->
  reachable_ok (snd (statsd_handle_set name set_key_orig t)).
Proof.
  intros Hok. unfold statsd_handle_set.
  destruct (reachable_looked_up name STATSD_SET t Hok) as [Hold _].
  destruct (c_avl_insert
              match set (looked_up t name STATSD_SET) with
              | Some s => s
              | None => c_avl_create
              end set_key_orig tt) as [members' status] eqn:Hins.
  destruct (reachable_ok_update name STATSD_SET t
              (fun m => incr_updates_num (with_set (Some members') m))
              Hok Hold)
    as (t' & Hlook & Hok').
  { intros H; simpl in H. congruence. }
  rewrite Hlook, Hins. exact Hok'.
Qed.

Lemma statsd_parse_line_reachable buffer t :
  reachable_ok t -> reachable_ok (snd (statsd_parse_line buffer t)).
Proof.
  intros Hok. unfold statsd_parse_line.
  destruct (split_line buffer) as [[[[name value_str] ty] extra]|];
    [|exact Hok].
  destruct (String.eqb "c" ty);
    [apply statsd_handle_counter_reachable, Hok|].
  destruct (String.eqb "ms" ty);
    [apply statsd_handle_timer_reachable, Hok|].
  destruct extra; [exact Hok|].
  destruct (String.eqb "g" ty); [apply statsd_handle_gauge_reachable, Hok|].
  destruct (String.eqb "s" ty); [apply statsd_handle_set_reachable, Hok|].
  exact Hok.
Qed.

Lemma statsd_parse_buffer_reachable buffer t :
  reachable_ok t -> reachable_ok (fst (statsd_parse_buffer buffer t)).
Proof.
  unfold statsd_parse_buffer.
  match goal with
  | |- context [fold_left ?f _ (t, ?e)] =>
      set (step := f); generalize e as errors
  end.
  revert t. induction (split_on "010" buffer) as [|line lines IH];
    intros t errors Hok; [exact Hok|].
  cbn [fold_left]. destruct line as [|a line]; [apply IH, Hok|].
  pose proof (statsd_parse_line_reachable (String a line) t Hok) as Hline.
  unfold step at 2.
  destruct (statsd_parse_line (String a line) t) as [status t'].
  destruct (status =? 0); apply IH, Hline.
Qed.

(** A flush leaves the update count and the sample count of a timer at
    zero, and keeps the type of every entry. *)
Lemma flushed_entry_ok conf k m now :
  entry_ok (k, m) -> entry_ok (k, flushed conf k m now).
Proof.
  intros [Htag _]. split; simpl in *.
  - rewrite flushed_type. exact Htag.
  - intros Hty. rewrite flushed_type in Hty.
    unfold flushed. rewrite (submit_timer_eq conf (skip 2 k) m now Hty).
    cbn [snd]. unfold reset_metric; simpl. rewrite Hty; simpl.
    destruct (latency m); reflexivity.
Qed.

Lemma statsd_read_loop_Forall conf clock i t :
  Forall entry_ok t ->
  Forall entry_ok (fst (fst (statsd_read_loop conf clock i t))).
Proof.
  revert i; induction t as [|[k m] t IH]; intros i Hall; [constructor|].
  rewrite statsd_read_loop_cons. inversion Hall as [|? ? Hm Ht]; subst.
  specialize (IH (S i) Ht).
  destruct (statsd_read_loop conf clock (S i) t) as [[t' out] del].
  destruct (delete_when_idle conf m); simpl; constructor; try exact IH.
  - exact Hm.
  - apply flushed_entry_ok, Hm.
Qed.

Lemma c_avl_remove_incl {V : Type} (t t' : c_avl_tree_t V) key v :
  c_avl_remove t key = Some (v, t') -> incl t' t.
Proof.
  revert t'; induction t as [|[k w] t IH]; simpl; intros t';
    [discriminate|].
  destruct (String.eqb key k).
  - intros [= _ <-]. apply incl_tl, incl_refl.
  - destruct (c_avl_remove t key) as [[w' rest']|]; [|discriminate].
    intros [= <- <-]. apply incl_cons; [left; reflexivity|].
    apply incl_tl, (IH rest' eq_refl).
Qed.

Lemma remove_deleted_incl t (del : list string) :
  incl (remove_deleted t del) t.
Proof.
  revert t; induction del as [|d del IH]; intros t; [apply incl_refl|].
  unfold remove_deleted; simpl fold_left.
  destruct (c_avl_remove t d) as [[v t1]|] eqn:Hrem; [|apply IH].
  eapply incl_tran; [apply IH|]. eapply c_avl_remove_incl, Hrem.
Qed.

Lemma statsd_read_reachable conf clock t :
  reachable_ok t ->
  exists t' dispatched,
    statsd_read conf clock (Some t) = (0, Some t', dispatched)
    /\ reachable_ok t'.
Proof.
  intros [Hnd Hall]. unfold statsd_read.
  pose proof (statsd_read_loop_keys conf clock 0 t) as Hkeys.
  pose proof (statsd_read_loop_Forall conf clock 0 t Hall) as Hloop.
  destruct (statsd_read_loop conf clock 0 t) as [[t1 out] del].
  destruct Hkeys as [Hk _]. simpl in Hloop.
  exists (remove_deleted t1 del), out. split; [reflexivity|]. split.
  - apply remove_deleted_spec. rewrite Hk; exact Hnd.
  - rewrite Forall_forall in *. intros e He.
    apply Hloop, (remove_deleted_incl t1 del), He.
Qed.

Lemma plugin_step_reachable conf t ev :
  reachable_ok t -> reachable_ok (plugin_step conf t ev).
Proof.
  intros Hok. destruct ev as [bytes|clock]; cbn [plugin_step].
  - apply statsd_parse_buffer_reachable, Hok.
  - destruct (statsd_read_reachable conf clock t Hok)
      as (t' & out & Hread & Hok').
    rewrite Hread. exact Hok'.
Qed.

(** Every tree the plugin reaches from the empty one has one entry per key,
    the key's tag is that of the entry's type, and a timer's update count is
    its number of samples. *)
Lemma plugin_run_reachable conf (events : list plugin_event) :
  reachable_ok (plugin_run conf events).
Proof.
  unfold plugin_run.
  assert (Hinit : reachable_ok c_avl_create)
    by (split; constructor).
  revert Hinit. generalize (@c_avl_create statsd_metric_t) as t.
  induction events as [|ev events IH]; intros t Hok; [exact Hok|].
  simpl. apply IH, plugin_step_reachable, Hok.
Qed.

Lemma plugin_run_tree_ok conf (events : list plugin_event) :
  tree_ok (plugin_run conf events).
Proof. apply reachable_ok_tree_ok, plugin_run_reachable. Qed.

(** With fewer than 2^64 samples since the last flush, a timer that counts
    its samples is idle exactly when it holds none. *)
Lemma timer_counts_samples_idle m :
  type m = STATSD_TIMER ->
  timer_counts_samples m ->
  latency_counter_get_num (latency m) < 2 ^ 64 ->
  timer_idle_consistent m.
Proof.
  intros Hty Hcount Hlt Hidle. rewrite (Hcount Hty) in Hidle.
  rewrite u64_small in Hidle; [exact Hidle|].
  unfold latency_counter_get_num, UINT64_MAX in *. lia.
Qed.

End StatsdReachable.

(** ** [src/write_influxdb_udp.c]: endpoints *)
Section WifxudpEndpoints.

Import CInt Wifxudp.

Implicit Types (se : sockent_t) (w : os) (buffer : list Byte.byte)
  (ttl : Z) (fuel n : nat).

(** An endpoint with an open socket that is not due for resolving is left
    alone: [sockent_client_connect] only reads the clock. *)
Lemma sockent_client_connect_noop ttl se w :
  0 <= fd (client se) ->
  reconnect_due (client se) (r_time (oracle w (calls w))) = false ->
  sockent_client_connect ttl se w = (0, se, snd (cdtime w)).
Proof.
  intros Hfd Hdue. unfold sockent_client_connect, cdtime; simpl.
  rewrite Hdue. apply Z.leb_le in Hfd. rewrite Hfd. reflexivity.
Qed.


Lemma reconnect_never_due (c : sockent_client) (now : Z) :
  resolve_interval c = 0 -> reconnect_due c now = false.
Proof. intros H; unfold reconnect_due; rewrite H; reflexivity. Qed.











(** One round of the send loop on such an endpoint. *)
Lemma send_buffer_round fuel ttl se buffer w :
  0 <= fd (client se) ->
  reconnect_due (client se) (r_time (oracle w (calls w))) = false ->
  let r := oracle w (S (calls w)) in
  let w' := after_rounds 1 se buffer w in
  write_influxdb_udp_send_buffer (S fuel) ttl se buffer w
  = if r_status r <? 0 then
      if (r_errno r =? EINTR) || (r_errno r =? EAGAIN)
      then write_influxdb_udp_send_buffer fuel ttl se buffer w'
      else Some (sockent_client_disconnect se w')
    else Some (se, w').
Proof.
  intros Hfd Hdue r w'. cbn [write_influxdb_udp_send_buffer].
  rewrite (sockent_client_connect_noop ttl se w Hfd Hdue).
  unfold cdtime, call, after_rounds, sendto_call in *. cbn [snd oracle calls trace Z.eqb negb].
  subst r w'. cbn [repeat Nat.mul Nat.add].
  replace (calls w + 2)%nat with (S (S (calls w))) by lia.
  reflexivity.
Qed.





Lemma send_buffer_out_of_fuel ttl se buffer w :
  write_influxdb_udp_send_buffer 0 ttl se buffer w = None.
Proof. reflexivity. Qed.

End WifxudpEndpoints.

(** ** [src/write_influxdb_udp.c]: the send buffer *)
Section WifxudpBuffer.

Import CInt Wifxudp.

Implicit Types (se : sockent_t) (w : os) (buffer : list Byte.byte)
  (ttl status timeout : Z) (fuel n : nat) (st : statics).

(** [write_influxdb_udp_write] returns 0 for every point it is given,
    whatever became of the sends. *)
Lemma write_influxdb_udp_write_status fuel status buffer st w r st' w' :
  0 < status ->
  write_influxdb_udp_write fuel status buffer st w = Some (r, st', w') ->
  r = 0.
Proof.
  intros Hpos. unfold write_influxdb_udp_write.
  assert (H1 : (status <? 0) = false) by (apply Z.ltb_ge; lia).
  assert (H2 : (status =? 0) = false) by (apply Z.eqb_neq; lia).
  rewrite H1, H2.
  destruct (if u64 _ <? u64 status then _ else _) as [[st1 w1]|];
    [|discriminate].
  destruct (cdtime w1) as [now w2].
  destruct (if u64 _ <? 120 then _ else _) as [[st3 w3]|]; [|discriminate].
  intros H; injection H as <- _ _. reflexivity.
Qed.

Lemma flush_buffer_state fuel st w st' w' :
  flush_buffer fuel st w = Some (st', w') ->
  exists sockets,
    st' = write_influxdb_udp_init_buffer (with_sending_sockets sockets st).
Proof.
  unfold flush_buffer.
  destruct (write_influxdb_send_buffers _ _ _ _ _) as [[sockets w1]|];
    [|discriminate].
  intros H; injection H as <- _. exists sockets; reflexivity.
Qed.

Lemma init_buffer_ok st :
  1024 <= wifxudp_config_packet_size st <= 65535 ->
  heap_overrun st = false ->
  buffer_ok (write_influxdb_udp_init_buffer st).
Proof.
  intros Hsize Hov. unfold buffer_ok, write_influxdb_udp_init_buffer; simpl.
  rewrite repeat_length, Z2Nat.id by lia. repeat split; try lia. exact Hov.
Qed.

Lemma flush_buffer_ok fuel st w st' w' :
  buffer_ok st -> flush_buffer fuel st w = Some (st', w') -> buffer_ok st'.
Proof.
  intros (Hsize & _ & _ & _ & Hov) H.
  destruct (flush_buffer_state _ _ _ _ _ H) as [sockets ->].
  apply init_buffer_ok; simpl; assumption.
Qed.

(** Copying into a block at an offset that leaves room for the source puts
    the source right behind the first [offset] bytes and keeps the size. *)
Lemma memcpy_prefix (block src : list Byte.byte) (offset : Z) :
  0 <= offset ->
  offset + Z.of_nat (List.length src) <= Z.of_nat (List.length block) ->
  List.length (memcpy block offset src) = List.length block
  /\ firstn (Z.to_nat (offset + Z.of_nat (List.length src)))
       (memcpy block offset src)
     = firstn (Z.to_nat offset) block ++ src.
Proof.
  intros H0 Hfit. unfold memcpy.
  set (o := Z.to_nat offset).
  assert (Ho : (o + List.length src <= List.length block)%nat)
    by (unfold o; lia).
  assert (Hlen : List.length (firstn o block ++ src
                              ++ skipn (o + List.length src) block)
                 = List.length block).
  { rewrite !length_app, length_firstn, length_skipn. lia. }
  split.
  - rewrite length_firstn.
    etransitivity; [apply f_equal, Hlen|apply Nat.min_id].
  - rewrite firstn_firstn.
    assert (Hn : Z.to_nat (offset + Z.of_nat (List.length src))
                 = List.length (firstn o block ++ src))
      by (rewrite length_app, length_firstn; unfold o; lia).
    rewrite Nat.min_l by (rewrite Hn, length_app, length_firstn; lia).
    rewrite Hn, app_assoc, firstn_app, firstn_all, Nat.sub_diag. simpl.
    apply app_nil_r.
Qed.

Lemma i32_small (x : Z) : 0 <= x <= 65535 -> i32 x = x.
Proof.
  intros H. unfold i32, wrap_signed. rewrite Z.mod_small; lia.
Qed.

Lemma u64_of_size (x : Z) : 0 <= x <= 65535 -> u64 x = x.
Proof. intros H. apply u64_small. unfold UINT64_MAX. lia. Qed.

(** A point that is no longer than the block is appended whole: the buffer
    is flushed first exactly when the point does not fit behind what it
    holds, the point then lies right behind the bytes held, the fill stays
    within the block, and the buffer is flushed afterwards exactly when
    fewer than 120 bytes are left. *)
Lemma write_of_fitting_point fuel status buffer st w r st' w' :
  buffer_ok st ->
  0 < status <= wifxudp_config_packet_size st ->
  status <= Z.of_nat (List.length buffer) ->
  write_influxdb_udp_write fuel status buffer st w = Some (r, st', w') ->
  let size := wifxudp_config_packet_size st in
  let point := firstn (Z.to_nat status) buffer in
  r = 0 /\ buffer_ok st'
  /\ exists st1 w1 st2,
      (if size - send_buffer_fill st <? status
       then flush_buffer fuel st w = Some (st1, w1)
       else (st1, w1) = (st, w))
      /\ buffer_ok st2
      /\ send_buffer_fill st2 = send_buffer_fill st1 + status
      /\ buffer_prefix st2 (send_buffer_fill st2)
         = buffer_prefix st1 (send_buffer_fill st1) ++ point
      /\ send_buffer_last_update st2 = r_time (oracle w1 (calls w1))
      /\ (if size - send_buffer_fill st2 <? 120
          then flush_buffer fuel st2 (snd (cdtime w1)) = Some (st', w')
          else (st', w') = (st2, snd (cdtime w1))).
Proof.
  intros Hok Hstatus Hbuf Hwrite size point.
  split; [eapply write_influxdb_udp_write_status; [|exact Hwrite]; lia|].
  unfold write_influxdb_udp_write in Hwrite.
  assert (H1 : (status <? 0) = false) by (apply Z.ltb_ge; lia).
  assert (H2 : (status =? 0) = false) by (apply Z.eqb_neq; lia).
  rewrite H1, H2 in Hwrite. clear H1 H2.
  pose proof Hok as (Hsize & Hlen & Hptr & Hfill & Hov).
  rewrite (u64_of_size (_ - _)), (u64_of_size status) in Hwrite by lia.
  fold size in Hwrite.
  (* the state the point is appended to *)
  assert (Hst1 : exists st1 w1,
             (if size - send_buffer_fill st <? status
              then flush_buffer fuel st w else Some (st, w)) = Some (st1, w1)
             /\ buffer_ok st1
             /\ wifxudp_config_packet_size st1 = size
             /\ send_buffer_fill st1 + status <= size).
  { destruct (size - send_buffer_fill st <? status) eqn:Hfit.
    - destruct (flush_buffer fuel st w) as [[st1 w1]|] eqn:Hflush;
        [|discriminate].
      exists st1, w1. split; [reflexivity|].
      split; [eapply flush_buffer_ok; eassumption|].
      destruct (flush_buffer_state _ _ _ _ _ Hflush) as [sockets ->].
      simpl. fold size. split; [reflexivity|lia].
    - exists st, w. apply Z.ltb_ge in Hfit. repeat split; try assumption; lia. }
  destruct Hst1 as (st1 & w1 & Hstep1 & Hok1 & Hsize1 & Hfit1).
  rewrite Hstep1 in Hwrite. cbv zeta in Hwrite. fold point in Hwrite.
  pose proof Hok1 as (_ & Hlen1 & Hptr1 & Hfill1 & Hov1).
  destruct (cdtime w1) as [now w2] eqn:Hclock.
  assert (Hpoint : Z.of_nat (List.length point) = status)
    by (unfold point; rewrite length_firstn; lia).
  destruct (memcpy_prefix (send_buffer st1) point (send_buffer_ptr st1))
    as [Hmlen Hmprefix]; [lia|lia|].
  set (st2 := with_send_buffer
                (memcpy (send_buffer st1) (send_buffer_ptr st1) point)
                (send_buffer_ptr st1 + status)
                (i32 (send_buffer_fill st1 + status)) now
                (heap_overrun st1
                 || (Z.of_nat (List.length (send_buffer st1))
                     <? send_buffer_ptr st1 + status)) st1) in *.
  assert (Hfill2 : send_buffer_fill st2 = send_buffer_fill st1 + status)
    by (unfold st2; simpl; apply i32_small; lia).
  assert (Hok2 : buffer_ok st2).
  { unfold buffer_ok. rewrite Hfill2. unfold st2; simpl.
    rewrite Hmlen, Hov1, Hsize1.
    replace (_ <? _) with false by (symmetry; apply Z.ltb_ge; lia).
    repeat split; try lia. }
  assert (Hsize2 : wifxudp_config_packet_size st2 = size) by exact Hsize1.
  rewrite Hsize2, (u64_of_size (_ - _)) in Hwrite by (rewrite Hfill2; lia).
  split.
  - destruct (size - send_buffer_fill st2 <? 120).
    + destruct (flush_buffer fuel st2 w2) as [[st3 w3]|] eqn:Hflush;
        [|discriminate].
      injection Hwrite as _ <- <-. eapply flush_buffer_ok; eassumption.
    + injection Hwrite as _ <- <-. exact Hok2.
  - exists st1, w1, st2.
    split; [destruct (size - send_buffer_fill st <? status);
            [exact Hstep1|injection Hstep1 as <- <-; reflexivity]|].
    split; [exact Hok2|]. split; [exact Hfill2|]. split.
    + unfold buffer_prefix. rewrite Hfill2.
      unfold st2 at 1; simpl send_buffer.
      rewrite Hptr1, Hpoint in Hmprefix. rewrite Hptr1. exact Hmprefix.
    + split.
      * unfold st2; simpl. unfold cdtime in Hclock.
        injection Hclock as <- _. reflexivity.
      * replace (snd (cdtime w1)) with w2 by (rewrite Hclock; reflexivity).
        destruct (size - send_buffer_fill st2 <? 120).
        -- destruct (flush_buffer fuel st2 w2) as [[st3 w3]|];
             [|discriminate].
           injection Hwrite as _ <- <-. reflexivity.
        -- injection Hwrite as _ <- <-. reflexivity.
Qed.

(** No write changes the configured packet size. *)
Lemma write_keeps_packet_size fuel status buffer st w r st' w' :
  write_influxdb_udp_write fuel status buffer st w = Some (r, st', w') ->
  wifxudp_config_packet_size st' = wifxudp_config_packet_size st.
Proof.
  unfold write_influxdb_udp_write.
  destruct (status <? 0); [intros [= _ <- _]; reflexivity|].
  destruct (status =? 0); [intros [= _ <- _]; reflexivity|].
  destruct (u64 _ <? u64 status).
  - destruct (flush_buffer fuel st w) as [[st1 w1]|] eqn:Hflush;
      [|discriminate].
    destruct (flush_buffer_state _ _ _ _ _ Hflush) as [sockets ->].
    cbv zeta. destruct (cdtime w1) as [now w2].
    destruct (u64 _ <? 120).
    + destruct (flush_buffer fuel _ w2) as [[st3 w3]|] eqn:Hflush2;
        [|discriminate].
      destruct (flush_buffer_state _ _ _ _ _ Hflush2) as [sockets2 ->].
      intros [= _ <- _]. reflexivity.
    + intros [= _ <- _]. reflexivity.
  - cbv zeta. destruct (cdtime w) as [now w2].
    destruct (u64 _ <? 120).
    + destruct (flush_buffer fuel _ w2) as [[st3 w3]|] eqn:Hflush2;
        [|discriminate].
      destruct (flush_buffer_state _ _ _ _ _ Hflush2) as [sockets2 ->].
      intros [= _ <- _]. reflexivity.
    + intros [= _ <- _]. reflexivity.
Qed.

End WifxudpBuffer.

Section StatsdParserProperties.

Import CInt Double CStr Avl Latency Statsd.

Context {E : Externals}.


End StatsdParserProperties.

(** Splits a [Forall] over the values a timer dispatches into one goal per
    value. *)
Ltac each_timer_value :=
  repeat first
    [ apply Forall_nil
    | apply Forall_cons
    | apply Forall_app; split
    | apply Forall_map, Forall_forall; intros ? _ ].

Section StatsdCounterTimerProperties.

Import CInt Double CStr Avl Latency Statsd.

Context {E : Externals}.

Implicit Types (name : string) (m : statsd_metric_t) (conf : statsd_conf).

(** C2 (counter residual law, amended: the rounding is [nearbyint], to the
    nearest integer with ties to even, and not the floor).  For a counter
    cell [m] whose total is a [derive_t] value:
    - an accepted counter line with value [v] and sample rate [r] (1.0
      without a rate) makes the cell's residual [residual + v / r], in
      double arithmetic, and leaves its total as it is;
    - a flush makes the total [total + (derive_t) nearbyint (residual)] and
      the residual [residual - nearbyint (residual)], whatever the options;
    - so after any run of updates and flushes the total is the total before
      the run plus the sum, over the flushes, of [nearbyint] of the residual
      each flush found: no step resets it;
    - and the first flush of a new cell after updates [v1/r1 .. vn/rn]
      leaves the total [nearbyint] of their accumulated sum. *)
Theorem C2_counter_residual_law conf m :
  type m = STATSD_COUNTER ->
  INT64_MIN <= counter m <= INT64_MAX ->
  (forall name value_str extra t t',
      statsd_handle_counter name value_str extra t = (0, t') ->
      exists v scale,
        statsd_parse_value value_str = Some v
        /\ parse_scale extra = inr scale
        /\ (extra = None -> scale = one)
        /\ let old := looked_up t name STATSD_COUNTER in
           let new := incr_updates_num
                        (with_value (add (value old) (div v scale)) old) in
           c_avl_get t' (metric_key name STATSD_COUNTER) = Some new
           /\ counter new = counter old)
  /\ (forall name now,
         let m' := snd (statsd_metric_submit_unsafe conf name m now) in
         counter m' = i64 (counter m + to_int64 (nearbyint (value m)))
         /\ value m' = sub (value m) (nearbyint (value m)))
  /\ (forall events,
         counter (counter_run conf events m)
         = i64 (counter m + fold_right Z.add 0 (credited conf events m)))
  /\ (forall updates : list (double * double),
         counter
           (counter_run conf
              (map (fun vr => counter_update (fst vr) (snd vr)) updates
               ++ [counter_flush])
              (new_metric STATSD_COUNTER))
         = to_int64 (nearbyint (accumulated updates))).
Proof.
  intros Hty Hrange. split; [|split; [|split]].
  - intros name value_str extra t t' H.
    unfold statsd_handle_counter in H.
    destruct (parse_scale extra) as [status|scale] eqn:Hs.
    + apply parse_scale_inl in Hs. subst status. discriminate.
    + destruct (statsd_parse_value value_str) as [v|] eqn:Hv; [|discriminate].
      exists v, scale. split; [reflexivity|]. split; [reflexivity|].
      split.
      * intros ->. injection Hs as <-; reflexivity.
      * destruct (statsd_metric_add_spec name (div v scale) STATSD_COUNTER t)
          as (t1 & Hadd & Hget & _).
        rewrite Hadd in H; injection H as <-.
        split; [exact Hget|reflexivity].
  - intros name now. rewrite (submit_counter_eq conf name m now Hty).
    split; reflexivity.
  - intros events.
    rewrite <- (i64_in_range (counter (counter_run conf events m))).
    + apply counter_run_total, Hty.
    + apply counter_run_in_range; assumption.
  - intros updates. unfold counter_run. rewrite fold_left_app.
    cbn [fold_left counter_step].
    destruct (counter_run_updates conf updates (new_metric STATSD_COUNTER))
      as [Hc Hv].
    unfold counter_run in Hc, Hv.
    rewrite flushed_counter
      by (apply (counter_run_type conf _ (new_metric STATSD_COUNTER))).
    cbn [counter with_updates_num with_counter]. rewrite Hc, Hv.
    cbn [counter value new_metric]. fold (accumulated updates).
    apply i64_in_range, to_int64_range.
Qed.

(** C3 (counter gauge, amended: the residual is not reset to zero).  With
    [CounterGauge] on, submitting a counter cell dispatches, between the
    optional "count" and the final "derive", one value of type "gauge"
    whose value is the residual as the flush found it, before [delta] is
    subtracted.  The residual is zero only while that value is dispatched:
    it is restored and then, as without the option, reduced by
    [delta = nearbyint (residual)].  Afterwards it is
    [residual - nearbyint (residual)]; that is zero when the residual was a
    whole number, and the flush's reset of the update count leaves it as it
    is. *)
Theorem C3_counter_gauge_keeps_residual conf name m now :
  type m = STATSD_COUNTER ->
  conf_counter_gauge conf = true ->
  let delta := nearbyint (value m) in
  let total := i64 (counter m + to_int64 delta) in
  let result := statsd_metric_submit_unsafe conf name m now in
  fst result
  = (if conf_counter_sum conf
     then [statsd_value_list "count" name (gauge delta) 0] else [])
    ++ [statsd_value_list "gauge" name (gauge (value m)) 0]
    ++ [statsd_value_list "derive" name (derive total) 0]
  /\ value (snd result) = sub (value m) delta
  /\ value (reset_metric (snd result)) = sub (value m) delta
  /\ (isfinite (value m) = true -> delta = value m ->
      value (snd result) = S754_zero false).
Proof.
  intros Hty Hgauge delta total result. unfold result.
  rewrite (submit_counter_eq conf name m now Hty), Hgauge.
  fold delta total. cbn [fst snd].
  split; [reflexivity|]. split; [reflexivity|]. split.
  - unfold reset_metric. cbn [type with_updates_num with_counter with_value].
    rewrite Hty. reflexivity.
  - intros Hfin Hint. cbn [value with_counter with_value].
    rewrite Hint. apply sub_diag, Hfin.
Qed.

(** C6 (timer flush).  Submitting a timer cell [m] at clock reading [now],
    the cell holding no sample whenever its update count is zero:
    - the values dispatched are "-average", then "-lower", "-upper" and
      "-sum" for the options that are set, then one "-percentile-<P>" per
      configured percentile, then "-count" if that option is set;
    - every one of them carries the time [now];
    - if the update count is zero, each of them is NaN, except "-count",
      which is the number 0;
    - "-count", the only value of type "gauge", is never NaN;
    - afterwards the cell is as it was but for its histogram, which was
      reset and holds no sample. *)
Theorem C6_timer_flush conf name m now :
  type m = STATSD_TIMER ->
  timer_idle_consistent m ->
  let lc := latency m in
  let stat x := if 0 <? updates_num m then CDTIME_T_TO_DOUBLE x else NAN in
  let latency_vl suffix x :=
    statsd_value_list "latency" (name ++ suffix) (gauge (stat x)) now in
  let count_vl n :=
    statsd_value_list "gauge" (name ++ "-count") (gauge n) now in
  let result := statsd_metric_submit_unsafe conf name m now in
  fst result
  = [latency_vl "-average"%string (latency_counter_get_average lc)]
    ++ (if conf_timer_lower conf
        then [latency_vl "-lower"%string (latency_counter_get_min lc)]
        else [])
    ++ (if conf_timer_upper conf
        then [latency_vl "-upper"%string (latency_counter_get_max lc)]
        else [])
    ++ (if conf_timer_sum conf
        then [latency_vl "-sum"%string (latency_counter_get_sum lc)]
        else [])
    ++ map (fun percent =>
              latency_vl ("-percentile-" ++ printf_0f percent)%string
                (latency_counter_get_percentile lc percent))
         (conf_timer_percentile conf)
    ++ (if conf_timer_count conf
        then [count_vl (of_Z (latency_counter_get_num lc))]
        else [])
  /\ Forall (fun vl => vl_time vl = now) (fst result)
  /\ (updates_num m = 0 ->
      Forall (fun vl => vl_values vl = gauge NAN
                        \/ vl = count_vl (S754_zero false))
        (fst result))
  /\ Forall (fun vl => vl_type vl = "gauge"%string ->
                       exists g, vl_values vl = gauge g /\ isnan g = false)
       (fst result)
  /\ snd result = with_latency (latency_counter_reset (latency m)) m
  /\ latency_counter_get_num (latency (snd result)) = 0.
Proof.
  intros Hty Hinv lc stat latency_vl count_vl result.
  assert (Hres : result = _) by (apply (submit_timer_eq conf name m now Hty)).
  cbv zeta in Hres. fold lc stat in Hres. rewrite Hres. cbn [fst snd].
  split; [reflexivity|]. split; [|split; [|split; [|split]]].
  - destruct (conf_timer_lower conf), (conf_timer_upper conf),
      (conf_timer_sum conf), (conf_timer_count conf);
      each_timer_value; reflexivity.
  - intros H0.
    assert (Hstat : forall x, stat x = NAN)
      by (intros x; unfold stat; rewrite H0; reflexivity).
    assert (Hnum : latency_counter_get_num lc = 0) by (apply Hinv, H0).
    rewrite Hnum.
    destruct (conf_timer_lower conf), (conf_timer_upper conf),
      (conf_timer_sum conf), (conf_timer_count conf);
      each_timer_value;
      first [ left; simpl; rewrite Hstat; reflexivity | right; reflexivity ].
  - destruct (conf_timer_lower conf), (conf_timer_upper conf),
      (conf_timer_sum conf), (conf_timer_count conf);
      each_timer_value;
      first [ simpl; discriminate
            | intros _; eexists; split; [reflexivity|apply of_Z_not_nan] ].
  - reflexivity.
  - simpl. destruct (latency m); reflexivity.
Qed.

End StatsdCounterTimerProperties.

Section StatsdProperties.

Import CInt Double CStr Avl Latency Statsd.

Context {E : Externals}.

Implicit Types (t pre post : metrics_tree_t) (k key name : string)
  (m : statsd_metric_t) (conf : statsd_conf) (clock : nat -> Z).

(** C5 (idle deletion).  [statsd_read] on a tree without duplicate keys,
    seen from any one of its entries [(k, m)]:
    - the iterator loop removes nothing: it leaves the keys as they were and
      collects in [to_be_deleted] exactly the keys of the entries with no
      update whose kind has its delete option set; the removals are applied
      to the tree the finished loop leaves;
    - what is dispatched is what the entries before [(k, m)] dispatch, then
      the entry's own share, then what the entries after it dispatch;
    - an entry with [updates_num = 0] whose kind has its delete option set
      has an empty share and is absent from the tree afterwards;
    - an entry with [updates_num <> 0] is submitted (its share is what
      [statsd_metric_submit_unsafe] dispatches, at least one value) and is
      still in the tree, reset. *)
Theorem C5_idle_deletion conf clock pre k m post :
  NoDup (keys (pre ++ (k, m) :: post)) ->
  let t := pre ++ (k, m) :: post in
  let now := clock (List.length pre) in
  exists loop_tree dispatched to_be_deleted t',
    statsd_read_loop conf clock 0 t = (loop_tree, dispatched, to_be_deleted)
    /\ keys loop_tree = keys t
    /\ to_be_deleted
       = keys (filter (fun e => delete_when_idle conf (snd e)) t)
    /\ t' = remove_deleted loop_tree to_be_deleted
    /\ statsd_read conf clock (Some t) = (0, Some t', dispatched)
    /\ dispatched
       = dispatched_over conf clock 0 pre
         ++ (if delete_when_idle conf m then [] else emitted conf k m now)
         ++ dispatched_over conf clock (S (List.length pre)) post
    /\ (updates_num m = 0 -> delete_flag conf (type m) = true ->
        delete_when_idle conf m = true /\ c_avl_get t' k = None)
    /\ (updates_num m <> 0 ->
        delete_when_idle conf m = false
        /\ emitted conf k m now <> []
        /\ c_avl_get t' k = Some (flushed conf k m now)).
Proof.
  intros Hnd t now.
  destruct (statsd_read_entry conf clock pre k m post Hnd)
    as (t' & Hread & _ & Hget).
  fold t now in Hread, Hget.
  pose proof (statsd_read_loop_keys conf clock 0 t) as Hkeys.
  destruct (statsd_read_loop conf clock 0 t)
    as [[loop_tree dispatched] to_be_deleted] eqn:Hloop.
  destruct Hkeys as [Hk Hdel].
  assert (Hread' : statsd_read conf clock (Some t)
                   = (0, Some (remove_deleted loop_tree to_be_deleted),
                      dispatched))
    by (unfold statsd_read; rewrite Hloop; reflexivity).
  rewrite Hread' in Hread. injection Hread as Ht' Hdisp.
  exists loop_tree, dispatched, to_be_deleted, t'.
  split; [reflexivity|]. split; [exact Hk|]. split; [exact Hdel|].
  split; [symmetry; exact Ht'|]. split; [rewrite Hread', Ht'; reflexivity|].
  split; [exact Hdisp|].
  rewrite delete_when_idle_flag in *. split.
  - intros Hu Hflag. rewrite Hu, Hflag in *. simpl in *. auto.
  - intros Hu. apply Z.eqb_neq in Hu. rewrite Hu in *. simpl in *.
    split; [reflexivity|]. split; [apply emitted_nonempty|exact Hget].
Qed.

(** C10 (gauge persistence).  In a tree without duplicate keys, with the
    gauges' delete option off, a gauge cell that receives no update keeps
    its value through any number of flushes: after [n] of them the entry is
    the original one with only [updates_num] reset to zero (untouched for
    [n = 0]), and the next flush again dispatches exactly one value for it,
    the "gauge" with the same value. *)
Theorem C10_gauge_persists conf clocks t k m :
  NoDup (keys t) -> c_avl_get t k = Some m ->
  type m = STATSD_GAUGE -> conf_delete_gauges conf = false ->
  forall n : nat,
    let tn := flushes conf clocks n t in
    let cell := if (n =? 0)%nat then m else with_updates_num 0 m in
    c_avl_get tn k = Some cell
    /\ exists pre post t',
         tn = pre ++ (k, cell) :: post
         /\ statsd_read conf (clocks n) (Some tn)
            = (0, Some t',
               dispatched_over conf (clocks n) 0 pre
               ++ [gauge_value_list (skip 2 k) (value m)]
               ++ dispatched_over conf (clocks n) (S (List.length pre)) post)
         /\ c_avl_get t' k = Some (with_updates_num 0 m).
Proof.
  intros Hnd Hget Hty Hflag n.
  assert (Hinv : NoDup (keys (flushes conf clocks n t))
                 /\ c_avl_get (flushes conf clocks n t) k
                    = Some (if (n =? 0)%nat then m else with_updates_num 0 m)).
  { induction n as [|n [IHnd IHget]]; [auto|].
    assert (Hty' : type (if (n =? 0)%nat then m else with_updates_num 0 m)
                   = STATSD_GAUGE) by (destruct (n =? 0)%nat; exact Hty).
    assert (Hidle : delete_when_idle conf
                      (if (n =? 0)%nat then m else with_updates_num 0 m)
                    = false).
    { rewrite delete_when_idle_flag, Hty'. simpl. rewrite Hflag.
      apply andb_false_r. }
    destruct (statsd_read_gauge conf (clocks n) _ k _ IHnd IHget Hty' Hidle)
      as (pre & post & t' & _ & Hread & Hnd' & Hget').
    cbn [flushes]. rewrite Hread. cbn iota.
    split; [exact Hnd'|]. rewrite Hget'. destruct (n =? 0)%nat; reflexivity. }
  destruct Hinv as [Hnd_n Hget_n]. intros tn cell.
  split; [exact Hget_n|].
  assert (Hty' : type cell = STATSD_GAUGE)
    by (unfold cell; destruct (n =? 0)%nat; exact Hty).
  assert (Hidle : delete_when_idle conf cell = false).
  { rewrite delete_when_idle_flag, Hty'. simpl. rewrite Hflag.
    apply andb_false_r. }
  destruct (statsd_read_gauge conf (clocks n) tn k cell Hnd_n Hget_n Hty' Hidle)
    as (pre & post & t' & Hsplit & Hread & _ & Hget').
  exists pre, post, t'. split; [exact Hsplit|].
  assert (Hval : value cell = value m)
    by (unfold cell; destruct (n =? 0)%nat; reflexivity).
  rewrite Hval in Hread. split; [exact Hread|].
  rewrite Hget'. unfold cell; destruct (n =? 0)%nat; reflexivity.
Qed.


End StatsdProperties.

Section WifxudpProperties.

Import CInt Wifxudp.

Implicit Types (se : sockent_t) (w : os) (buffer : list Byte.byte)
  (ttl status timeout : Z) (fuel n : nat) (st : statics).


(** C9 (explicit flush gate, amended: the sum is taken in [cdtime_t],
    modulo [2^64]).  For a flush with a positive [timeout], at clock
    reading [now], with [due] the sum of [send_buffer_last_update] and
    [timeout] as the program computes it in [cdtime_t] (the plain sum
    unless it passes [2^64]):
    - with an empty buffer the call returns 0 and changes nothing, not even
      reading the clock;
    - with a filled buffer and [due > now] it returns 0, leaves every
      variable (contents, fill, last update among them) as it was, and
      makes no system call;
    - with a filled buffer and [due <= now] it is [flush_buffer]: the
      buffer's prefix is sent and the buffer reinitialised (zeroed, fill 0);
    - whenever it returns, it returns 0. *)
Theorem C9_explicit_flush_gate fuel timeout st w :
  0 < timeout ->
  let now := r_time (oracle w (calls w)) in
  let due := u64 (send_buffer_last_update st + timeout) in
  (send_buffer_fill st <= 0 ->
   write_influxdb_udp_flush fuel timeout st w = Some (0, st, w))
  /\ (0 < send_buffer_fill st -> now < due ->
      write_influxdb_udp_flush fuel timeout st w = Some (0, st, snd (cdtime w))
      /\ trace (snd (cdtime w)) = trace w)
  /\ (0 < send_buffer_fill st -> due <= now ->
      write_influxdb_udp_flush fuel timeout st w
      = match flush_buffer fuel st (snd (cdtime w)) with
        | Some (st', w') => Some (0, st', w')
        | None => None
        end
      /\ forall st' w',
          flush_buffer fuel st (snd (cdtime w)) = Some (st', w') ->
          send_buffer_fill st' = 0
          /\ send_buffer st'
             = repeat Byte.x00 (Z.to_nat (wifxudp_config_packet_size st)))
  /\ (forall r st' w',
         write_influxdb_udp_flush fuel timeout st w = Some (r, st', w') ->
         r = 0)
  /\ (0 <= send_buffer_last_update st ->
      send_buffer_last_update st + timeout <= UINT64_MAX ->
      due = send_buffer_last_update st + timeout).
Proof.
  intros Htimeout now due.
  assert (Ht : (0 <? timeout) = true) by (apply Z.ltb_lt; exact Htimeout).
  split; [|split; [|split; [|split]]].
  - intros Hempty. unfold write_influxdb_udp_flush.
    replace (0 <? send_buffer_fill st) with false
      by (symmetry; apply Z.ltb_ge; exact Hempty).
    reflexivity.
  - intros Hfill Hgate. split; [|reflexivity].
    unfold write_influxdb_udp_flush.
    apply Z.ltb_lt in Hfill. rewrite Hfill, Ht. unfold cdtime.
    fold now due. cbn [snd].
    replace (due >? now) with true
      by (symmetry; apply Z.gtb_lt; exact Hgate).
    reflexivity.
  - intros Hfill Hgate. split.
    + unfold write_influxdb_udp_flush.
      apply Z.ltb_lt in Hfill. rewrite Hfill, Ht. unfold cdtime.
      fold now due. cbn [snd].
      replace (due >? now) with false
        by (symmetry; rewrite Z.gtb_ltb; apply Z.ltb_ge; exact Hgate).
      reflexivity.
    + intros st' w' Hflush.
      destruct (flush_buffer_state _ _ _ _ _ Hflush) as [sockets ->].
      split; reflexivity.
  - intros r st' w'. unfold write_influxdb_udp_flush.
    destruct (0 <? send_buffer_fill st);
      [|intros H; injection H as <- _ _; reflexivity].
    rewrite Ht. destruct (cdtime w) as [t w1].
    destruct (_ >? _); [intros H; injection H as <- _ _; reflexivity|].
    destruct (flush_buffer fuel st w1) as [[st1 w2]|]; [|discriminate].
    intros H; injection H as <- _ _; reflexivity.
  - intros H0 Hmax. apply u64_small. lia.
Qed.

End WifxudpProperties.

(** ** Invariants of the two plugins *)
Section Invariants.

Import CInt Double CStr Avl Latency Statsd Wifxudp.

Context {E : Externals}.

(** X1 (the metric tree is well formed): whatever datagrams the network
    thread has read and whatever reads the daemon has made since
    [statsd_init], the tree holds one entry per key, the first character of
    each key is the tag of the entry's type, and the update count of each
    timer is its number of samples since the last flush, as an unsigned
    long. *)
Theorem X1_reachable_trees_are_well_formed :
  forall (conf : statsd_conf) (events : list plugin_event),
    tree_ok (plugin_run conf events)
    /\ Forall (fun e => timer_counts_samples (snd e))
         (plugin_run conf events).
Proof.
  intros conf events.
  pose proof (plugin_run_reachable conf events) as Hok.
  split; [apply reachable_ok_tree_ok, Hok|].
  destruct Hok as [_ Hall].
  eapply Forall_impl; [|exact Hall]. intros e [_ H]; exact H.
Qed.

(** X2 (batcher bound for points that fit): from a state between two calls
    in which no copy has left the block, a run of writes of points none of
    which is longer than the configured packet size ends, when every send
    returns, in such a state again: the fill is at most the packet size,
    the write pointer stands at the fill, and the packet size is the one
    configured.  Every prefix of a run being a run, this holds after each
    write. *)
Theorem X2_fitting_points_stay_within_the_block :
  forall (fuel : nat) (points : list (Z * list Byte.byte))
    (st st' : statics) (w w' : os),
    buffer_ok st ->
    Forall (fits st) points ->
    write_points fuel points st w = Some (st', w') ->
    buffer_ok st'
    /\ wifxudp_config_packet_size st' = wifxudp_config_packet_size st
    /\ 0 <= send_buffer_fill st' <= wifxudp_config_packet_size st.
Proof.
  intros fuel points.
  induction points as [|[status buffer] points IH];
    intros st st' w w' Hok Hfits Hrun.
  - injection Hrun as <- <-. split; [exact Hok|]. split; [reflexivity|].
    apply Hok.
  - inversion Hfits as [|? ? [Hstatus Hbuf] Hrest]; subst.
    cbn [write_points] in Hrun. simpl in Hstatus, Hbuf.
    destruct (write_influxdb_udp_write fuel status buffer st w)
      as [[[r st1] w1]|] eqn:Hwrite; [|discriminate].
    destruct (write_of_fitting_point _ _ _ _ _ _ _ _ Hok Hstatus Hbuf Hwrite)
      as (_ & Hok1 & _).
    pose proof (write_keeps_packet_size _ _ _ _ _ _ _ _ Hwrite) as Hsize.
    assert (Hfits1 : Forall (fits st1) points).
    { eapply Forall_impl; [|exact Hrest]. unfold fits.
      intros p Hp. rewrite Hsize. exact Hp. }
    destruct (IH st1 st' w1 w' Hok1 Hfits1 Hrun) as (Hok' & Hsize' & Hfill).
    rewrite Hsize in Hsize', Hfill. auto.
Qed.

End Invariants.

(** ** [src/statsd.c]: what one line does to the tree *)
Section StatsdLines.

Import CInt Double CStr Avl Latency Statsd.

Context {E : Externals}.

Implicit Types (t : metrics_tree_t) (name key k : string)
  (ty : metric_type_t) (m : statsd_metric_t).









End StatsdLines.

(** ** [src/statsd.c]: the lines of a datagram *)
Section StatsdDatagrams.

Import CInt Double CStr Avl Latency Statsd.

Context {E : Externals}.

Implicit Types (t : metrics_tree_t) (a b line : string).

Lemma split_on_app (c : ascii) a b :
  split_on c (a ++ String c b) = split_on c a ++ split_on c b.
Proof.
  induction a as [|x a IH]; simpl.
  - rewrite Ascii.eqb_refl. reflexivity.
  - destruct (Ascii.eqb x c); [rewrite IH; reflexivity|].
    rewrite IH. destruct (split_on c a) as [|h l] eqn:Ha; [|reflexivity].
    destruct a as [|y a]; simpl in Ha; [discriminate|].
    destruct (Ascii.eqb y c); [discriminate|].
    destruct (split_on c a); discriminate.
Qed.

Lemma split_on_one (c : ascii) line :
  mem c line = false -> split_on c line = [line].
Proof.
  induction line as [|x line IH]; simpl; [reflexivity|].
  intros H. apply orb_false_iff in H. destruct H as [Hx Hrest].
  rewrite Hx, (IH Hrest). reflexivity.
Qed.

(** The errors logged so far do not influence what the remaining lines
    do. *)
Lemma parse_lines_errors
  (step : metrics_tree_t * list string -> string
          -> metrics_tree_t * list string)
  (lines : list string) t (errors : list string) :
  (forall t0 e0 line,
      step (t0, e0) line
      = (fst (step (t0, []) line), e0 ++ snd (step (t0, []) line))) ->
  fold_left step lines (t, errors)
  = (fst (fold_left step lines (t, [])),
     errors ++ snd (fold_left step lines (t, []))).
Proof.
  intros Hstep. revert t errors.
  induction lines as [|line lines IH]; intros t errors; simpl.
  - rewrite app_nil_r. reflexivity.
  - rewrite (Hstep t errors line).
    destruct (step (t, []) line) as [t1 e1]. cbn [fst snd].
    rewrite (IH t1 (errors ++ e1)), (IH t1 e1). cbn [fst snd].
    rewrite app_assoc. reflexivity.
Qed.

(** X4 (the lines of a datagram are applied in order): parsing two texts
    joined by a newline is parsing the first and then the second on the
    tree the first left, the failures logged being those of the first
    followed by those of the second.  The empty text does nothing, and a
    non-empty text without a newline is one line: its tree is the one
    [statsd_parse_line] leaves, and it is logged, cut to 63 characters,
    exactly when the status is not 0.  So empty lines and a trailing
    newline change nothing, and a refused line does not stop the lines
    after it. *)
Theorem X4_datagram_lines_in_order :
  forall (a b line : string) (t : metrics_tree_t),
    statsd_parse_buffer (a ++ String "010" b) t
    = (fst (statsd_parse_buffer b (fst (statsd_parse_buffer a t))),
       snd (statsd_parse_buffer a t)
       ++ snd (statsd_parse_buffer b (fst (statsd_parse_buffer a t))))
    /\ statsd_parse_buffer EmptyString t = (t, [])
    /\ (mem "010" line = false -> line <> EmptyString ->
        statsd_parse_buffer line t
        = (snd (statsd_parse_line line t),
           if fst (statsd_parse_line line t) =? 0 then []
           else [sstrncpy line 64])).
Proof.
  intros a b line t. split; [|split].
  - unfold statsd_parse_buffer. rewrite split_on_app, fold_left_app.
    match goal with
    | |- context [fold_left ?f (split_on _ a) _] => set (step := f)
    end.
    rewrite (surjective_pairing (fold_left step (split_on "010" a) (t, [])))
      at 1.
    apply parse_lines_errors.
    intros t0 e0 l. unfold step. destruct l as [|x l].
    + cbn [fst snd]. rewrite app_nil_r. reflexivity.
    + destruct (statsd_parse_line (String x l) t0) as [status t1].
      destruct (status =? 0); cbn [fst snd];
        [rewrite app_nil_r|]; reflexivity.
  - reflexivity.
  - intros Hmem Hne. unfold statsd_parse_buffer.
    rewrite (split_on_one _ _ Hmem). cbn [fold_left].
    destruct line as [|x l]; [congruence|].
    destruct (statsd_parse_line (String x l) t) as [status t1].
    cbn [fst snd]. destruct (status =? 0); reflexivity.
Qed.

End StatsdDatagrams.

(** ** [src/statsd.c]: sets *)
Section StatsdSets.

Import CInt Double CStr Avl Latency Statsd.

Context {E : Externals}.

Implicit Types (t : metrics_tree_t) (name key k : string)
  (ty : metric_type_t) (m : statsd_metric_t) (s : c_avl_tree_t unit).





(** What holds of every entry of a tree, of a new metric, and is kept by
    the updates of the four handlers and by a flush, holds of every entry
    of every tree the plugin reaches. *)
Section Invariant.

Variable Q : string * statsd_metric_t -> Prop.

Hypothesis Q_new : forall name ty, Q (metric_key name ty, new_metric ty).
Hypothesis Q_value :
  forall k m v, Q (k, m) -> Q (k, incr_updates_num (with_value v m)).
Hypothesis Q_latency :
  forall k m lc, Q (k, m) -> Q (k, incr_updates_num (with_latency lc m)).
Hypothesis Q_set :
  forall k m member,
    Q (k, m) ->
    Q (k, incr_updates_num
            (with_set
               (Some (fst (c_avl_insert
                             match set m with
                             | Some s => s
                             | None => c_avl_create
                             end member tt))) m)).
Hypothesis Q_flushed :
  forall conf k m now, Q (k, m) -> Q (k, flushed conf k m now).









End Invariant.






End StatsdSets.

(** ** [src/statsd.c]: the values handed to the daemon *)
Section StatsdValues.

Import CInt Double CStr Avl Latency Statsd.

Context {E : Externals}.

Implicit Types (t : metrics_tree_t) (name key k : string)
  (ty : metric_type_t) (m : statsd_metric_t) (conf : statsd_conf).

Lemma sstrncpy_fits (s : string) :
  (String.length (sstrncpy s DATA_MAX_NAME_LEN) < DATA_MAX_NAME_LEN)%nat.
Proof.
  pose proof DATA_MAX_NAME_LEN_holds_types as Hn.
  pose proof (take_length (Nat.pred DATA_MAX_NAME_LEN) s) as Hlen.
  unfold sstrncpy. lia.
Qed.

Lemma gauge_value_ok (ty instance : string) (g : double) (now : Z) :
  In ty ["count"%string; "gauge"%string; "latency"%string; "objects"%string] ->
  value_list_ok (statsd_value_list ty instance (gauge g) now).
Proof.
  intros Hty. split; [reflexivity|]. split; [apply sstrncpy_fits|exact Hty].
Qed.

Lemma derive_value_ok (instance : string) (d now : Z) :
  value_list_ok (statsd_value_list "derive" instance (derive d) now).
Proof. split; [reflexivity|]. split; [apply sstrncpy_fits|reflexivity]. Qed.

Lemma submit_set_eq conf name m now :
  type m = STATSD_SET ->
  statsd_metric_submit_unsafe conf name m now
  = ([statsd_value_list "objects" name
        (gauge match set m with
               | None => S754_zero false
               | Some s => of_Z (c_avl_size s)
               end) 0], m).
Proof.
  intros Hty. unfold statsd_metric_submit_unsafe. rewrite Hty.
  unfold vl_init, vl_set_values, vl_set_type_instance, vl_set_type,
    statsd_value_list, type_of_metric; simpl.
  rewrite Hty. literal_names. reflexivity.
Qed.

Lemma emitted_ok conf k m now : Forall value_list_ok (emitted conf k m now).
Proof.
  unfold emitted. destruct (type m) eqn:Hty.
  - rewrite (submit_counter_eq conf _ m now Hty). cbn [fst].
    destruct (conf_counter_sum conf), (conf_counter_gauge conf);
      each_timer_value;
      first [apply derive_value_ok
            |apply gauge_value_ok; simpl; tauto].
  - rewrite (submit_timer_eq conf _ m now Hty). cbn [fst].
    destruct (conf_timer_lower conf), (conf_timer_upper conf),
      (conf_timer_sum conf), (conf_timer_count conf);
      each_timer_value; apply gauge_value_ok; simpl; tauto.
  - fold (emitted conf k m now). rewrite (emitted_gauge conf k m now Hty).
    each_timer_value. apply gauge_value_ok; simpl; tauto.
  - rewrite (submit_set_eq conf _ m now Hty). cbn [fst].
    each_timer_value. apply gauge_value_ok; simpl; tauto.
Qed.

(** X6 (what a read dispatches is well formed): whatever the tree and the
    options, every value list that [statsd_read] hands to
    [plugin_dispatch_values] names the plugin "statsd", has a type instance
    shorter than [DATA_MAX_NAME_LEN], and has the type "derive" exactly when
    its value was written through the [derive] member of the union;
    otherwise the value is a gauge and the type is "count", "gauge",
    "latency" or "objects". *)
Theorem X6_dispatched_values_are_well_formed :
  forall (conf : statsd_conf) (clock : nat -> Z) (t : metrics_tree_t),
    Forall value_list_ok (snd (statsd_read conf clock (Some t)))
    /\ forall vl, In vl (snd (statsd_read conf clock (Some t))) ->
                  (vl_type vl = "derive"%string
                   <-> exists d, vl_values vl = derive d).
Proof.
  intros conf clock t.
  assert (Hall : Forall value_list_ok (snd (statsd_read conf clock (Some t)))).
  { unfold statsd_read.
    assert (Hloop : forall i,
               Forall value_list_ok
                 (snd (fst (statsd_read_loop conf clock i t)))).
    { induction t as [|[k m] t IH]; intros i; [constructor|].
      rewrite statsd_read_loop_cons. specialize (IH (S i)).
      destruct (statsd_read_loop conf clock (S i) t) as [[t' out] del].
      destruct (delete_when_idle conf m); cbn [fst snd] in *; [exact IH|].
      apply Forall_app. split; [apply emitted_ok|exact IH]. }
    specialize (Hloop 0%nat).
    destruct (statsd_read_loop conf clock 0 t) as [[t' out] del].
    exact Hloop. }
  split; [exact Hall|].
  intros vl Hin. rewrite Forall_forall in Hall.
  destruct (Hall vl Hin) as (_ & _ & Hty).
  destruct (vl_values vl) as [g|d].
  - split.
    + intros Hd. rewrite Hd in Hty. simpl in Hty.
      repeat destruct Hty as [Hty|Hty]; try discriminate; destruct Hty.
    + intros [d Hd]; discriminate.
  - split; [intros _; exists d; reflexivity|intros _; exact Hty].
Qed.

End StatsdValues.

(** ** [src/statsd.c]: names longer than the buffers *)
Section StatsdLongNames.

Import CInt Double CStr Avl Latency Statsd.

Context {E : Externals}.

Implicit Types (t : metrics_tree_t) (name key k : string)
  (ty : metric_type_t) (m : statsd_metric_t) (conf : statsd_conf).

Lemma take_append_long (n : nat) (s suffix : string) :
  (n <= String.length s)%nat -> take n (s ++ suffix) = take n s.
Proof.
  revert s; induction n as [|n IH]; intros s H; [destruct s; reflexivity|].
  destruct s as [|a s]; simpl in *; [lia|].
  f_equal. apply IH. lia.
Qed.

Lemma metric_key_eq name1 name2 ty1 ty2 :
  metric_key name1 ty1 = metric_key name2 ty2
  <-> ty1 = ty2
      /\ sstrncpy name1 DATA_MAX_NAME_LEN = sstrncpy name2 DATA_MAX_NAME_LEN.
Proof.
  unfold metric_key. split.
  - intros H. injection H as Htag Hname.
    split; [apply key_tag_inj, Htag|exact Hname].
  - intros [-> ->]. reflexivity.
Qed.

(** X7 (a name is cut to the key buffer): the key of a metric is built in
    a buffer of [DATA_MAX_NAME_LEN + 2] bytes, so two names address the same
    metric exactly when the types are the same and the names agree on their
    first [DATA_MAX_NAME_LEN - 1] characters.  Names shorter than
    [DATA_MAX_NAME_LEN] therefore never share a metric, while two longer
    names with a common start are one metric to every handler. *)
Theorem X7_names_are_cut_to_the_key_buffer :
  forall (name1 name2 : string) (ty1 ty2 : metric_type_t),
    (metric_key name1 ty1 = metric_key name2 ty2
     <-> ty1 = ty2
         /\ take (DATA_MAX_NAME_LEN - 1) name1
            = take (DATA_MAX_NAME_LEN - 1) name2)
    /\ ((String.length name1 < DATA_MAX_NAME_LEN)%nat ->
        (String.length name2 < DATA_MAX_NAME_LEN)%nat ->
        metric_key name1 ty1 = metric_key name2 ty2 ->
        name1 = name2 /\ ty1 = ty2)
    /\ (take (DATA_MAX_NAME_LEN - 1) name1
        = take (DATA_MAX_NAME_LEN - 1) name2 ->
        forall (value_str : string) (extra : option string)
          (t : metrics_tree_t),
          statsd_handle_counter name1 value_str extra t
          = statsd_handle_counter name2 value_str extra t
          /\ statsd_handle_timer name1 value_str extra t
             = statsd_handle_timer name2 value_str extra t
          /\ statsd_handle_gauge name1 value_str t
             = statsd_handle_gauge name2 value_str t
          /\ statsd_handle_set name1 value_str t
             = statsd_handle_set name2 value_str t).
Proof.
  intros name1 name2 ty1 ty2.
  assert (Hpred : Nat.pred DATA_MAX_NAME_LEN = (DATA_MAX_NAME_LEN - 1)%nat)
    by lia.
  split; [|split].
  - rewrite metric_key_eq. unfold sstrncpy. rewrite Hpred. reflexivity.
  - intros H1 H2 Hkey. apply metric_key_eq in Hkey.
    destruct Hkey as [Hty Hname].
    rewrite !sstrncpy_short in Hname by assumption. auto.
  - intros Hcut value_str extra t.
    assert (Hkey : forall ty, metric_key name1 ty = metric_key name2 ty).
    { intros ty. apply metric_key_eq. split; [reflexivity|].
      unfold sstrncpy. rewrite Hpred. exact Hcut. }
    unfold statsd_handle_counter, statsd_handle_timer, statsd_handle_gauge,
      statsd_handle_set, statsd_metric_add, statsd_metric_set,
      statsd_metric_lookup_unsafe.
    rewrite !Hkey. auto.
Qed.

(** X8 (the suffix of a timer statistic can be cut off): each statistic of
    a timer is written with [snprintf] into the type instance buffer of
    [DATA_MAX_NAME_LEN] bytes as the name followed by a suffix.  For a name
    of [DATA_MAX_NAME_LEN - 1] characters or more no room is left for the
    suffix: every value a flush of the timer dispatches, the average, the
    bounds, the sum, the percentiles and the count, carries the same type
    instance, the first [DATA_MAX_NAME_LEN - 1] characters of the name. *)
Theorem X8_long_timer_names_lose_the_suffix :
  forall (conf : statsd_conf) (name : string) (m : statsd_metric_t) (now : Z),
    type m = STATSD_TIMER ->
    (DATA_MAX_NAME_LEN - 1 <= String.length name)%nat ->
    Forall (fun vl => vl_type_instance vl = take (DATA_MAX_NAME_LEN - 1) name)
      (fst (statsd_metric_submit_unsafe conf name m now)).
Proof.
  intros conf name m now Hty Hlong.
  assert (Hcut : forall (text suffix : string) (v : value_t),
             vl_type_instance (statsd_value_list text (name ++ suffix) v now)
             = take (DATA_MAX_NAME_LEN - 1) name).
  { intros text suffix v. unfold statsd_value_list, sstrncpy; simpl.
    replace (Nat.pred DATA_MAX_NAME_LEN) with (DATA_MAX_NAME_LEN - 1)%nat
      by lia.
    apply take_append_long, Hlong. }
  rewrite (submit_timer_eq conf name m now Hty). cbn [fst].
  destruct (conf_timer_lower conf), (conf_timer_upper conf),
    (conf_timer_sum conf), (conf_timer_count conf);
    each_timer_value; apply Hcut.
Qed.

End StatsdLongNames.

(** ** [src/write_influxdb_udp.c]: batches on a system that does not fail *)
Section WifxudpBatches.

Import CInt Wifxudp.

Implicit Types (se : sockent_t) (w : os) (buffer : list Byte.byte)
  (ttl status timeout : Z) (fuel n : nat) (st : statics)
  (sockets : list sockent_t).

Lemma never_fails_oracle w w' :
  oracle w' = oracle w -> never_fails w -> never_fails w'.
Proof. intros Ho H i. rewrite Ho. apply H. Qed.

(** One send to an endpoint in good health on a system that does not fail:
    one call of [sendto], and the endpoint as it was. *)
Lemma send_healthy fuel ttl se buffer w :
  healthy se -> never_fails w ->
  write_influxdb_udp_send_buffer (S fuel) ttl se buffer w
  = Some (se, after_rounds 1 se buffer w).
Proof.
  intros [Hfd Hnever] Hw.
  rewrite send_buffer_round;
    [|exact Hfd|apply reconnect_never_due, Hnever].
  cbv zeta.
  replace (r_status (oracle w (S (calls w))) <? 0) with false; [reflexivity|].
  symmetry. apply Z.ltb_ge, Hw.
Qed.

Lemma send_all_healthy fuel ttl sockets buffer w :
  Forall healthy sockets -> never_fails w ->
  exists w',
    write_influxdb_send_buffers (S fuel) ttl sockets buffer w
    = Some (sockets, w')
    /\ oracle w' = oracle w
    /\ trace w' = trace w ++ sent_to_all sockets buffer.
Proof.
  revert w. induction sockets as [|se sockets IH]; intros w Hall Hw.
  - exists w. simpl. rewrite app_nil_r. auto.
  - inversion Hall as [|? ? Hse Hrest]; subst.
    cbn [write_influxdb_send_buffers].
    rewrite (send_healthy fuel ttl se buffer w Hse Hw).
    destruct (IH (after_rounds 1 se buffer w) Hrest)
      as (w' & Hsend & Ho & Htrace);
      [apply (never_fails_oracle w); [reflexivity|exact Hw]|].
    cbn [write_influxdb_send_buffers] in Hsend. rewrite Hsend.
    exists w'. split; [reflexivity|]. split; [exact Ho|].
    rewrite Htrace. simpl. rewrite <- app_assoc. reflexivity.
Qed.

Lemma with_sending_sockets_same st :
  with_sending_sockets (sending_sockets st) st = st.
Proof. destruct st; reflexivity. Qed.

Lemma flush_healthy fuel st w :
  Forall healthy (sending_sockets st) -> never_fails w ->
  exists w',
    flush_buffer (S fuel) st w = Some (write_influxdb_udp_init_buffer st, w')
    /\ oracle w' = oracle w
    /\ trace w'
       = trace w
         ++ sent_to_all (sending_sockets st)
              (buffer_prefix st (u64 (send_buffer_fill st))).
Proof.
  intros Hall Hw. unfold flush_buffer.
  destruct (send_all_healthy fuel (wifxudp_config_ttl st) (sending_sockets st)
              (buffer_prefix st (u64 (send_buffer_fill st))) w Hall Hw)
    as (w' & Hsend & Ho & Htrace).
  rewrite Hsend, with_sending_sockets_same. exists w'. auto.
Qed.

Lemma buffer_prefix_length st :
  buffer_ok st ->
  Z.of_nat (List.length (buffer_prefix st (send_buffer_fill st)))
  = send_buffer_fill st.
Proof.
  intros (Hsize & Hlen & Hptr & Hfill & Hov).
  unfold buffer_prefix. rewrite length_firstn. lia.
Qed.

Lemma init_buffer_prefix st :
  buffer_prefix (write_influxdb_udp_init_buffer st)
    (send_buffer_fill (write_influxdb_udp_init_buffer st)) = [].
Proof. reflexivity. Qed.

(** One point written on a system that does not fail, to endpoints in good
    health: what is sent before the point is appended and after it. *)
Lemma write_healthy fuel status buffer st w :
  buffer_ok st ->
  0 < status <= wifxudp_config_packet_size st ->
  status <= Z.of_nat (List.length buffer) ->
  Forall healthy (sending_sockets st) -> never_fails w ->
  let size := wifxudp_config_packet_size st in
  let held := buffer_prefix st (send_buffer_fill st) in
  let point := firstn (Z.to_nat status) buffer in
  let before := size - send_buffer_fill st <? status in
  let held1 := if before then [] else held in
  let after := size - Z.of_nat (List.length (held1 ++ point)) <? 120 in
  exists st' w',
    write_influxdb_udp_write (S fuel) status buffer st w = Some (0, st', w')
    /\ buffer_ok st'
    /\ sending_sockets st' = sending_sockets st
    /\ wifxudp_config_packet_size st' = size
    /\ oracle w' = oracle w
    /\ trace w'
       = trace w
         ++ (if before then sent_to_all (sending_sockets st) held else [])
         ++ (if after
             then sent_to_all (sending_sockets st) (held1 ++ point) else [])
    /\ buffer_prefix st' (send_buffer_fill st')
       = (if after then [] else held1 ++ point)
    /\ Z.of_nat (List.length (held1 ++ point)) <= size.
Proof.
  intros Hok Hstatus Hbuf Hall Hw size held point before held1 after.
  unfold write_influxdb_udp_write.
  assert (H1 : (status <? 0) = false) by (apply Z.ltb_ge; lia).
  assert (H2 : (status =? 0) = false) by (apply Z.eqb_neq; lia).
  rewrite H1, H2. clear H1 H2.
  pose proof Hok as (Hsize & Hlen & Hptr & Hfill & Hov).
  rewrite (u64_of_size (_ - _)), (u64_of_size status) by lia.
  fold size. fold before.
  (* the state the point is appended to *)
  assert (Hst1 : exists st1 w1,
             (if before then flush_buffer (S fuel) st w else Some (st, w))
             = Some (st1, w1)
             /\ buffer_ok st1
             /\ wifxudp_config_packet_size st1 = size
             /\ sending_sockets st1 = sending_sockets st
             /\ oracle w1 = oracle w
             /\ trace w1
                = trace w
                  ++ (if before then sent_to_all (sending_sockets st) held
                      else [])
             /\ buffer_prefix st1 (send_buffer_fill st1) = held1
             /\ send_buffer_fill st1 + status <= size).
  { unfold held1. destruct before eqn:Hbefore.
    - destruct (flush_healthy fuel st w Hall Hw) as (w1 & Hflush & Ho & Htr).
      exists (write_influxdb_udp_init_buffer st), w1.
      split; [exact Hflush|].
      split; [apply init_buffer_ok; assumption|].
      split; [reflexivity|]. split; [reflexivity|]. split; [exact Ho|].
      split; [rewrite Htr, u64_of_size by lia; reflexivity|].
      split; [reflexivity|]. simpl. fold size. lia.
    - exists st, w. unfold before in Hbefore. apply Z.ltb_ge in Hbefore.
      rewrite app_nil_r. repeat split; try assumption; try reflexivity; lia. }
  destruct Hst1 as (st1 & w1 & Hstep1 & Hok1 & Hsize1 & Hsock1 & Ho1 & Htr1
                    & Hheld1 & Hfit1).
  rewrite Hstep1. cbv zeta. fold point.
  pose proof Hok1 as (_ & Hlen1 & Hptr1 & Hfill1 & Hov1).
  destruct (cdtime w1) as [now w2] eqn:Hclock.
  assert (Ho2 : oracle w2 = oracle w1 /\ trace w2 = trace w1)
    by (unfold cdtime in Hclock; injection Hclock as _ <-; auto).
  destruct Ho2 as [Ho2 Htr2].
  assert (Hpoint : Z.of_nat (List.length point) = status)
    by (unfold point; rewrite length_firstn; lia).
  destruct (memcpy_prefix (send_buffer st1) point (send_buffer_ptr st1))
    as [Hmlen Hmprefix]; [lia|lia|].
  set (st2 := with_send_buffer
                (memcpy (send_buffer st1) (send_buffer_ptr st1) point)
                (send_buffer_ptr st1 + status)
                (i32 (send_buffer_fill st1 + status)) now
                (heap_overrun st1
                 || (Z.of_nat (List.length (send_buffer st1))
                     <? send_buffer_ptr st1 + status)) st1) in *.
  assert (Hfill2 : send_buffer_fill st2 = send_buffer_fill st1 + status)
    by (unfold st2; simpl; apply i32_small; lia).
  assert (Hok2 : buffer_ok st2).
  { unfold buffer_ok. rewrite Hfill2. unfold st2; simpl.
    rewrite Hmlen, Hov1, Hsize1.
    replace (_ <? _) with false by (symmetry; apply Z.ltb_ge; lia).
    repeat split; try lia. }
  assert (Hsize2 : wifxudp_config_packet_size st2 = size) by exact Hsize1.
  assert (Hsock2 : sending_sockets st2 = sending_sockets st) by exact Hsock1.
  assert (Hheld2 : buffer_prefix st2 (send_buffer_fill st2) = held1 ++ point).
  { unfold buffer_prefix. rewrite Hfill2.
    unfold st2 at 1; simpl send_buffer.
    rewrite Hptr1, Hpoint in Hmprefix. rewrite Hptr1, Hmprefix.
    unfold buffer_prefix in Hheld1. rewrite Hheld1. reflexivity. }
  assert (Hlen2 : Z.of_nat (List.length (held1 ++ point))
                  = send_buffer_fill st2).
  { rewrite <- Hheld2. apply buffer_prefix_length, Hok2. }
  rewrite Hsize2, (u64_of_size (_ - _)) by (rewrite Hfill2; lia).
  unfold after. rewrite Hlen2.
  destruct (size - send_buffer_fill st2 <? 120) eqn:Hafter.
  - assert (Hall2 : Forall healthy (sending_sockets st2))
      by (rewrite Hsock2; exact Hall).
    assert (Hw2 : never_fails w2).
    { apply (never_fails_oracle w); [|exact Hw]. congruence. }
    destruct (flush_healthy fuel st2 w2 Hall2 Hw2) as (w3 & Hflush & Ho3 & Htr3).
    rewrite Hflush.
    exists (write_influxdb_udp_init_buffer st2), w3.
    split; [reflexivity|].
    split; [apply init_buffer_ok; [rewrite Hsize2; exact Hsize|apply Hok2]|].
    split; [exact Hsock2|]. split; [exact Hsize2|].
    split; [congruence|].
    split.
    { rewrite Htr3, Htr2, Htr1, Hsock2, u64_of_size, Hheld2
        by (rewrite Hfill2; lia).
      rewrite <- app_assoc. reflexivity. }
    split; [reflexivity|]. rewrite Hfill2. lia.
  - exists st2, w2. split; [reflexivity|]. split; [exact Hok2|].
    split; [exact Hsock2|]. split; [exact Hsize2|].
    split; [congruence|].
    split; [rewrite Htr2, Htr1, app_nil_r; reflexivity|].
    split; [exact Hheld2|]. rewrite Hfill2. lia.
Qed.

Lemma flatten_app (a b : list (Z * list Byte.byte)) :
  flatten (a ++ b) = flatten a ++ flatten b.
Proof. unfold flatten. rewrite map_app, concat_app. reflexivity. Qed.

Lemma flatten_one (p : Z * list Byte.byte) : flatten [p] = point_bytes p.
Proof. unfold flatten. simpl. apply app_nil_r. Qed.

(** A run of writes, from a buffer that holds the points [held]. *)
Lemma write_points_healthy fuel (points : list (Z * list Byte.byte)) :
  forall st w (held : list (Z * list Byte.byte)),
    buffer_ok st -> Forall healthy (sending_sockets st) -> never_fails w ->
    Forall (fits st) points ->
    buffer_prefix st (send_buffer_fill st) = flatten held ->
    exists st' w' (groups : list (list (Z * list Byte.byte)))
      (pending : list (Z * list Byte.byte)),
      write_points (S fuel) points st w = Some (st', w')
      /\ held ++ points = List.concat groups ++ pending
      /\ trace w'
         = trace w
           ++ flat_map (fun g => sent_to_all (sending_sockets st) (flatten g))
                groups
      /\ buffer_prefix st' (send_buffer_fill st') = flatten pending
      /\ Forall (fun g => 0 < Z.of_nat (List.length (flatten g))
                                <= wifxudp_config_packet_size st) groups
      /\ buffer_ok st'
      /\ sending_sockets st' = sending_sockets st
      /\ wifxudp_config_packet_size st' = wifxudp_config_packet_size st.
Proof.
  induction points as [|[status buffer] points IH];
    intros st w held Hok Hall Hw Hfits Hheld.
  - exists st, w, [], held. simpl. rewrite !app_nil_r.
    split; [reflexivity|]. split; [reflexivity|]. split; [reflexivity|].
    split; [exact Hheld|]. split; [constructor|]. auto.
  - inversion Hfits as [|? ? [Hstatus Hbuf] Hrest]; subst.
    cbn [fst snd] in Hstatus, Hbuf.
    destruct (write_healthy fuel status buffer st w Hok Hstatus Hbuf Hall Hw)
      as (st1 & w1 & Hwrite & Hok1 & Hsock1 & Hsize1 & Ho1 & Htr1 & Hheld1
          & Hlen1).
    cbv zeta in Htr1, Hheld1, Hlen1.
    set (size := wifxudp_config_packet_size st) in *.
    set (point := firstn (Z.to_nat status) buffer) in *.
    set (before := size - send_buffer_fill st <? status) in *.
    set (held1 := if before then [] else held).
    assert (Hbytes1 : (if before then []
                       else buffer_prefix st (send_buffer_fill st))
                      = flatten held1)
      by (unfold held1; destruct before; [reflexivity|exact Hheld]).
    rewrite Hbytes1 in Htr1, Hheld1, Hlen1.
    assert (Hpoint : flatten held1 ++ point
                     = flatten (held1 ++ [(status, buffer)]))
      by (rewrite flatten_app, flatten_one; reflexivity).
    rewrite Hpoint in Htr1, Hheld1, Hlen1.
    set (after := size - Z.of_nat
                           (List.length
                              (flatten (held1 ++ [(status, buffer)])))
                  <? 120) in *.
    set (held2 := if after then [] else held1 ++ [(status, buffer)]).
    assert (Hbytes2 : buffer_prefix st1 (send_buffer_fill st1)
                      = flatten held2)
      by (rewrite Hheld1; unfold held2; destruct after; reflexivity).
    assert (Hfits1 : Forall (fits st1) points).
    { eapply Forall_impl; [|exact Hrest]. unfold fits.
      intros p Hp. rewrite Hsize1. exact Hp. }
    assert (Hall1 : Forall healthy (sending_sockets st1))
      by (rewrite Hsock1; exact Hall).
    assert (Hw1 : never_fails w1)
      by (apply (never_fails_oracle w); assumption).
    destruct (IH st1 w1 held2 Hok1 Hall1 Hw1 Hfits1 Hbytes2)
      as (st' & w' & groups & pending & Hrun & Hsplit & Htr & Hpend & Hgroups
          & Hok' & Hsock' & Hsize').
    exists st', w',
      ((if before then [held] else [])
       ++ (if after then [held1 ++ [(status, buffer)]] else []) ++ groups),
      pending.
    split; [cbn [write_points]; rewrite Hwrite; exact Hrun|].
    split.
    { rewrite !concat_app, <- !app_assoc, <- Hsplit.
      unfold held2, held1. destruct before, after; simpl;
        rewrite ?app_nil_r, <- ?app_assoc; reflexivity. }
    split.
    { rewrite Htr, Htr1, Hsock1, !flat_map_app, <- !app_assoc.
      f_equal. rewrite Hheld.
      destruct before, after; simpl; rewrite ?app_nil_r; reflexivity. }
    split; [exact Hpend|].
    split.
    { apply Forall_app. split; [|apply Forall_app; split].
      - destruct before eqn:Hbefore; [|constructor].
        constructor; [|constructor]. rewrite <- Hheld.
        rewrite (buffer_prefix_length st Hok).
        unfold before in Hbefore. apply Z.ltb_lt in Hbefore.
        destruct Hok as (_ & _ & _ & Hfill & _). fold size in Hfill |- *. lia.
      - destruct after; [|constructor].
        constructor; [|constructor]. split; [|exact Hlen1].
        rewrite <- Hpoint, length_app. unfold point.
        rewrite length_firstn. lia.
      - eapply Forall_impl; [|exact Hgroups].
        intros g Hg. rewrite Hsize1 in Hg. exact Hg. }
    split; [exact Hok'|]. split; [congruence|]. congruence.
Qed.

(** X9 (datagrams are runs of whole points): on a system in which no call
    fails, with every endpoint holding an open socket that is never due for
    resolving, a run of [write_influxdb_udp_write] calls that starts with
    an empty buffer and whose points are each at most as long as the
    configured packet size returns, and the points split, in their order,
    into consecutive groups and a rest such that the calls made are, group
    after group, one [sendto] for each endpoint (in the order of the list)
    with the bytes of the group's points as the datagram; every datagram
    holds at least one byte and at most the packet size; and the rest is
    what the buffer holds afterwards.  So no byte is lost, sent twice or
    reordered, and no point is split between two datagrams. *)
Theorem X9_datagrams_are_runs_of_whole_points :
  forall (fuel : nat) (points : list (Z * list Byte.byte))
    (st : statics) (w : os),
    buffer_ok st -> send_buffer_fill st = 0 ->
    Forall healthy (sending_sockets st) -> never_fails w ->
    Forall (fits st) points ->
    exists st' w' (groups : list (list (Z * list Byte.byte)))
      (pending : list (Z * list Byte.byte)),
      write_points (S fuel) points st w = Some (st', w')
      /\ points = List.concat groups ++ pending
      /\ trace w'
         = trace w
           ++ flat_map (fun g => sent_to_all (sending_sockets st) (flatten g))
                groups
      /\ buffer_prefix st' (send_buffer_fill st') = flatten pending
      /\ Forall (fun g => 0 < Z.of_nat (List.length (flatten g))
                                <= wifxudp_config_packet_size st) groups.
Proof.
  intros fuel points st w Hok Hempty Hall Hw Hfits.
  destruct (write_points_healthy fuel points st w [] Hok Hall Hw Hfits)
    as (st' & w' & groups & pending & Hrun & Hsplit & Htr & Hpend & Hgroups
        & _).
  { rewrite Hempty. reflexivity. }
  exists st', w', groups, pending. auto.
Qed.

End WifxudpBatches.

(** ** [src/write_influxdb_udp.c]: what an endpoint keeps *)
Section WifxudpInvariants.

Import CInt Wifxudp.

Implicit Types (se : sockent_t) (w : os) (buffer : list Byte.byte)
  (ttl status timeout : Z) (fuel n : nat) (st : statics)
  (sockets : list sockent_t) (l : list syscall).

Lemma made_refl w : made w w [].
Proof. split; [rewrite app_nil_r|]; reflexivity. Qed.

Lemma made_trans w1 w2 w3 l1 l2 :
  made w1 w2 l1 -> made w2 w3 l2 -> made w1 w3 (l1 ++ l2).
Proof.
  intros [Ht1 Ho1] [Ht2 Ho2]. split; [|congruence].
  rewrite Ht2, Ht1, app_assoc. reflexivity.
Qed.

Lemma made_call (c : syscall) w : made w (snd (call c w)) [c].
Proof. split; reflexivity. Qed.

Lemma made_cdtime w : made w (snd (cdtime w)) [].
Proof. split; [simpl; rewrite app_nil_r|]; reflexivity. Qed.

Lemma made_close (f : Z) w : made w (close f w) [sys_close f].
Proof. split; reflexivity. Qed.

(** Calls made one after the other, all on open descriptors. *)
Lemma calls_ok_trans w1 w2 w3 :
  (exists l, made w1 w2 l /\ Forall call_ok l) ->
  (exists l, made w2 w3 l /\ Forall call_ok l) ->
  exists l, made w1 w3 l /\ Forall call_ok l.
Proof.
  intros (l1 & H1 & Hok1) (l2 & H2 & Hok2). exists (l1 ++ l2).
  split; [eapply made_trans; eassumption|apply Forall_app; auto].
Qed.

Lemma set_ttl_calls ttl se (ai : addrinfo) w :
  0 <= fd (client se) ->
  exists l, made w (snd (set_ttl ttl se ai w)) l /\ Forall call_ok l.
Proof.
  intros Hfd. unfold set_ttl.
  destruct ((ttl <? 1) || (ttl >? 255)) eqn:Hrange;
    [exists []; split; [apply made_refl|constructor]|].
  apply orb_false_iff in Hrange. destruct Hrange as [Hlo Hhi].
  apply Z.ltb_ge in Hlo. rewrite Z.gtb_ltb in Hhi. apply Z.ltb_ge in Hhi.
  assert (Hopt : forall (optname : sockopt),
             exists l,
               made w (snd (let '(r, w') :=
                              call (sys_setsockopt (fd (client se)) optname
                                      ttl) w in
                            if negb (r_status r =? 0) then (-1, w')
                            else (0, w'))) l
               /\ Forall call_ok l).
  { intros optname. exists [sys_setsockopt (fd (client se)) optname ttl].
    split.
    - cbn [call]. destruct (negb _); apply (made_call _ w).
    - constructor; [|constructor]. simpl. lia. }
  destruct (ai_family ai), (ai_addr ai);
    try (exists []; split; [apply made_refl|constructor]); apply Hopt.
Qed.

Lemma bind_socket_to_addr_calls se (ai : addrinfo) w :
  0 <= fd (client se) ->
  exists l, made w (snd (bind_socket_to_addr se ai w)) l /\ Forall call_ok l.
Proof.
  intros Hfd. unfold bind_socket_to_addr.
  destruct (bind_addr (client se)) as [a|];
    [|exists []; split; [apply made_refl|constructor]].
  assert (Hbind : exists l,
             made w (snd (let '(r, w') :=
                            call (sys_bind (fd (client se)) a) w in
                          if r_status r =? -1 then (-1, w') else (0, w'))) l
             /\ Forall call_ok l).
  { exists [sys_bind (fd (client se)) a]. split.
    - cbn [call]. destruct (_ =? _); apply (made_call _ w).
    - constructor; [exact Hfd|constructor]. }
  destruct (ai_family ai);
    try exact Hbind; exists []; split; [apply made_refl|constructor].
Qed.

Lemma sockent_client_disconnect_ok se w :
  endpoint_step_ok se w (fst (sockent_client_disconnect se w))
    (snd (sockent_client_disconnect se w))
  /\ fd (client (fst (sockent_client_disconnect se w))) < 0.
Proof.
  unfold sockent_client_disconnect, endpoint_step_ok, endpoint_ok.
  destruct (0 <=? fd (client se)) eqn:Hfd; cbn [fst snd].
  - apply Z.leb_le in Hfd. split; [|simpl; lia].
    split; [reflexivity|]. split; [simpl; lia|].
    exists [sys_close (fd (client se))].
    split; [apply made_close|constructor; [exact Hfd|constructor]].
  - apply Z.leb_gt in Hfd. split; [|simpl; lia].
    split; [reflexivity|]. split; [simpl; lia|].
    exists []. split; [apply made_refl|constructor].
Qed.

Lemma connect_first_ok ttl (ai_list : list addrinfo) :
  forall se w,
    (fd (client se) < 0 \/ endpoint_ok se) ->
    let se' := fst (connect_first ttl ai_list se w) in
    let w' := snd (connect_first ttl ai_list se w) in
    identity se' = identity se
    /\ (fd (client se') < 0 \/ endpoint_ok se')
    /\ exists l, made w w' l /\ Forall call_ok l.
Proof.
  induction ai_list as [|ai_ptr rest IH]; intros se w Hse.
  - simpl. split; [reflexivity|]. split; [exact Hse|].
    exists []. split; [apply made_refl|constructor].
  - cbn [connect_first].
    assert (Hdis : exists se1 w1,
               (if 0 <=? fd (client se)
                then sockent_client_disconnect se w else (se, w))
               = (se1, w1)
               /\ identity se1 = identity se
               /\ exists l, made w w1 l /\ Forall call_ok l).
    { destruct (0 <=? fd (client se)).
      - destruct (sockent_client_disconnect_ok se w) as [(Hid & _ & Hl) _].
        destruct (sockent_client_disconnect se w) as [se1 w1].
        exists se1, w1. auto.
      - exists se, w. split; [reflexivity|]. split; [reflexivity|].
        exists []. split; [apply made_refl|constructor]. }
    destruct Hdis as (se1 & w1 & -> & Hid1 & Hl1).
    destruct (call (sys_socket ai_ptr) w1) as [r w2] eqn:Hcall.
    assert (Hl2 : exists l, made w1 w2 l /\ Forall call_ok l).
    { exists [sys_socket ai_ptr]. split.
      - replace w2 with (snd (call (sys_socket ai_ptr) w1))
          by (rewrite Hcall; reflexivity).
        apply made_call.
      - constructor; [exact I|constructor]. }
    set (se2 := with_client (with_fd (i32 (r_status r)) (client se1)) se1).
    assert (Hid2 : identity se2 = identity se) by (rewrite <- Hid1; reflexivity).
    destruct (fd (client se2) <? 0) eqn:Hfd2.
    + apply Z.ltb_lt in Hfd2.
      destruct (IH se2 w2 (or_introl Hfd2)) as (Hid & Hok & Hl).
      cbv zeta in Hid, Hok, Hl.
      split; [congruence|]. split; [exact Hok|].
      eapply calls_ok_trans; [|exact Hl].
      eapply calls_ok_trans; eassumption.
    + apply Z.ltb_ge in Hfd2.
      set (se3 := with_client
                    (with_addr (Some (ai_addr ai_ptr)) (ai_addrlen ai_ptr)
                       (client se2)) se2).
      assert (Hfd3 : 0 <= fd (client se3)) by exact Hfd2.
      pose proof (set_ttl_calls ttl se3 ai_ptr w2 Hfd3) as Hl3.
      destruct (set_ttl ttl se3 ai_ptr w2) as [s3 w3]. cbn [snd] in Hl3.
      pose proof (bind_socket_to_addr_calls se3 ai_ptr w3 Hfd3) as Hl4.
      destruct (bind_socket_to_addr se3 ai_ptr w3) as [s4 w4].
      cbn [fst snd] in *.
      split; [rewrite <- Hid2; reflexivity|].
      split; [right; intros _; discriminate|].
      eapply calls_ok_trans; [|exact Hl4].
      eapply calls_ok_trans; [|exact Hl3].
      eapply calls_ok_trans; eassumption.
Qed.

(** [sockent_client_connect]: the endpoint keeps its identity; it has an
    address if it has a socket; with status 0 it has a socket. *)
Lemma sockent_client_connect_ok ttl se w :
  endpoint_ok se ->
  let status := fst (fst (sockent_client_connect ttl se w)) in
  let se' := snd (fst (sockent_client_connect ttl se w)) in
  let w' := snd (sockent_client_connect ttl se w) in
  endpoint_step_ok se w se' w'
  /\ (status = 0 -> 0 <= fd (client se')).
Proof.
  intros Hse. unfold sockent_client_connect.
  destruct (cdtime w) as [now w0] eqn:Hclock.
  assert (Hl0 : made w w0 []).
  { replace w0 with (snd (cdtime w)) by (rewrite Hclock; reflexivity).
    apply made_cdtime. }
  destruct ((0 <=? fd (client se)) && negb (reconnect_due (client se) now))
    eqn:Hnoop.
  { cbn [fst snd]. apply andb_true_iff in Hnoop. destruct Hnoop as [Hfd _].
    apply Z.leb_le in Hfd. split; [|intros _; exact Hfd].
    split; [reflexivity|]. split; [exact Hse|].
    exists []. split; [exact Hl0|constructor]. }
  set (service' := match service se with
                   | Some s => s
                   | None => NET_DEFAULT_PORT
                   end).
  destruct (call (sys_getaddrinfo (node se) service') w0) as [r w1] eqn:Hcall.
  assert (Hl1 : exists l, made w w1 l /\ Forall call_ok l).
  { exists ([] ++ [sys_getaddrinfo (node se) service']). split.
    - eapply made_trans; [exact Hl0|].
      replace w1 with (snd (call (sys_getaddrinfo (node se) service') w0))
        by (rewrite Hcall; reflexivity).
      apply made_call.
    - constructor; [exact I|constructor]. }
  destruct (negb (r_status r =? 0)).
  { cbn [fst snd]. split; [|discriminate].
    split; [reflexivity|]. split; [exact Hse|exact Hl1]. }
  destruct (connect_first_ok ttl (r_addrinfo r) se w1 (or_intror Hse))
    as (Hid & Hok & Hl).
  destruct (connect_first ttl (r_addrinfo r) se w1) as [se1 w2].
  cbn [fst snd] in Hid, Hok, Hl.
  destruct (fd (client se1) <? 0) eqn:Hfd1; cbn [fst snd].
  { apply Z.ltb_lt in Hfd1. split; [|discriminate].
    split; [exact Hid|]. split; [intros H; lia|].
    eapply calls_ok_trans; eassumption. }
  apply Z.ltb_ge in Hfd1.
  assert (Hok1 : endpoint_ok se1) by (destruct Hok as [H|H]; [lia|exact H]).
  split.
  - split; [|split].
    + rewrite <- Hid. destruct (0 <? resolve_interval (client se1));
        reflexivity.
    + destruct (0 <? resolve_interval (client se1)); exact Hok1.
    + eapply calls_ok_trans; eassumption.
  - intros _. destruct (0 <? resolve_interval (client se1)); exact Hfd1.
Qed.

Lemma endpoint_step_ok_trans se1 w1 se2 w2 se3 w3 :
  endpoint_step_ok se1 w1 se2 w2 -> endpoint_step_ok se2 w2 se3 w3 ->
  endpoint_step_ok se1 w1 se3 w3.
Proof.
  intros (Hid1 & _ & Hl1) (Hid2 & Hok2 & Hl2).
  split; [congruence|]. split; [exact Hok2|].
  eapply calls_ok_trans; eassumption.
Qed.

Lemma write_influxdb_udp_send_buffer_ok fuel ttl buffer :
  forall se w se' w',
    endpoint_ok se ->
    write_influxdb_udp_send_buffer fuel ttl se buffer w = Some (se', w') ->
    endpoint_step_ok se w se' w'.
Proof.
  induction fuel as [|fuel IH]; intros se w se' w' Hse Hsend;
    [discriminate|].
  cbn [write_influxdb_udp_send_buffer] in Hsend.
  destruct (sockent_client_connect_ok ttl se w Hse) as [Hstep Hfd].
  destruct (sockent_client_connect ttl se w) as [[status se1] w1].
  cbn [fst snd] in Hstep, Hfd.
  destruct (negb (status =? 0)) eqn:Hstatus.
  { injection Hsend as <- <-. exact Hstep. }
  apply negb_false_iff, Z.eqb_eq in Hstatus. specialize (Hfd Hstatus).
  pose proof Hstep as (_ & Hok1 & _).
  set (c := sys_sendto (fd (client se1)) buffer (addr (client se1))
              (addrlen (client se1))) in *.
  destruct (call c w1) as [r w2] eqn:Hcall.
  assert (Hstep2 : endpoint_step_ok se w se1 w2).
  { eapply endpoint_step_ok_trans; [exact Hstep|].
    split; [reflexivity|]. split; [exact Hok1|].
    exists [c]. split.
    - replace w2 with (snd (call c w1)) by (rewrite Hcall; reflexivity).
      apply made_call.
    - constructor; [|constructor]. split; [exact Hfd|apply Hok1, Hfd]. }
  destruct (r_status r <? 0).
  - destruct ((r_errno r =? EINTR) || (r_errno r =? EAGAIN)).
    + eapply endpoint_step_ok_trans; [exact Hstep2|].
      apply IH; assumption.
    + destruct (sockent_client_disconnect_ok se1 w2) as [Hdis _].
      injection Hsend as Hsend. rewrite Hsend in Hdis.
      cbn [fst snd] in Hdis.
      eapply endpoint_step_ok_trans; eassumption.
  - injection Hsend as <- <-. exact Hstep2.
Qed.

Lemma write_influxdb_send_buffers_ok fuel ttl buffer sockets :
  forall w sockets' w',
    Forall endpoint_ok sockets ->
    write_influxdb_send_buffers fuel ttl sockets buffer w
    = Some (sockets', w') ->
    map identity sockets' = map identity sockets
    /\ Forall endpoint_ok sockets'
    /\ exists l, made w w' l /\ Forall call_ok l.
Proof.
  induction sockets as [|se sockets IH]; intros w sockets' w' Hall Hsend.
  - injection Hsend as <- <-. split; [reflexivity|]. split; [constructor|].
    exists []. split; [apply made_refl|constructor].
  - inversion Hall as [|? ? Hse Hrest]; subst.
    cbn [write_influxdb_send_buffers] in Hsend.
    destruct (write_influxdb_udp_send_buffer fuel ttl se buffer w)
      as [[se1 w1]|] eqn:Hone; [|discriminate].
    destruct (write_influxdb_send_buffers fuel ttl sockets buffer w1)
      as [[rest' w2]|] eqn:Hothers; [|discriminate].
    injection Hsend as <- <-.
    destruct (write_influxdb_udp_send_buffer_ok _ _ _ _ _ _ _ Hse Hone)
      as (Hid & Hok & Hl).
    destruct (IH _ _ _ Hrest Hothers) as (Hids & Hoks & Hls).
    split; [simpl; congruence|]. split; [constructor; assumption|].
    eapply calls_ok_trans; eassumption.
Qed.

Lemma plugin_step_ok_refl st w :
  Forall endpoint_ok (sending_sockets st) -> plugin_step_ok st w st w.
Proof.
  intros Hall. split; [reflexivity|]. split; [exact Hall|].
  exists []. split; [apply made_refl|constructor].
Qed.

Lemma plugin_step_ok_trans st1 w1 st2 w2 st3 w3 :
  plugin_step_ok st1 w1 st2 w2 -> plugin_step_ok st2 w2 st3 w3 ->
  plugin_step_ok st1 w1 st3 w3.
Proof.
  intros (Hid1 & _ & Hl1) (Hid2 & Hok2 & Hl2).
  split; [congruence|]. split; [exact Hok2|].
  eapply calls_ok_trans; eassumption.
Qed.

Lemma flush_buffer_step_ok fuel st w st' w' :
  Forall endpoint_ok (sending_sockets st) ->
  flush_buffer fuel st w = Some (st', w') ->
  plugin_step_ok st w st' w'.
Proof.
  intros Hall. unfold flush_buffer.
  destruct (write_influxdb_send_buffers _ _ _ _ _) as [[sockets w1]|] eqn:Hs;
    [|discriminate].
  intros H; injection H as <- <-.
  exact (write_influxdb_send_buffers_ok _ _ _ _ _ _ _ Hall Hs).
Qed.

Lemma write_influxdb_udp_write_step_ok fuel status buffer st w r st' w' :
  Forall endpoint_ok (sending_sockets st) ->
  write_influxdb_udp_write fuel status buffer st w = Some (r, st', w') ->
  plugin_step_ok st w st' w'.
Proof.
  intros Hall. unfold write_influxdb_udp_write.
  destruct (status <? 0);
    [intros [= _ <- <-]; apply plugin_step_ok_refl, Hall|].
  destruct (status =? 0);
    [intros [= _ <- <-]; apply plugin_step_ok_refl, Hall|].
  assert (H1 : forall o,
             (if u64 (wifxudp_config_packet_size st - send_buffer_fill st)
                 <? u64 status
              then flush_buffer fuel st w else Some (st, w)) = Some o ->
             plugin_step_ok st w (fst o) (snd o)).
  { intros [st1 w1]. destruct (_ <? _).
    - apply flush_buffer_step_ok, Hall.
    - intros [= <- <-]. apply plugin_step_ok_refl, Hall. }
  destruct (if _ <? u64 status then _ else _) as [[st1 w1]|];
    [|discriminate].
  specialize (H1 _ eq_refl). cbn [fst snd] in H1. cbv zeta.
  destruct (cdtime w1) as [now w2] eqn:Hclock.
  match goal with
  | |- context [flush_buffer fuel ?s w2] => set (st2 := s)
  end.
  assert (H2 : plugin_step_ok st w st2 w2).
  { eapply plugin_step_ok_trans; [exact H1|].
    split; [reflexivity|]. split; [apply H1|].
    exists []. split; [|constructor].
    replace w2 with (snd (cdtime w1)) by (rewrite Hclock; reflexivity).
    apply made_cdtime. }
  destruct (_ <? 120).
  - destruct (flush_buffer fuel st2 w2) as [[st3 w3]|] eqn:Hflush;
      [|discriminate].
    intros [= _ <- <-]. eapply plugin_step_ok_trans; [exact H2|].
    eapply flush_buffer_step_ok; [apply H2|exact Hflush].
  - intros [= _ <- <-]. exact H2.
Qed.

Lemma write_influxdb_udp_flush_step_ok fuel timeout st w r st' w' :
  Forall endpoint_ok (sending_sockets st) ->
  write_influxdb_udp_flush fuel timeout st w = Some (r, st', w') ->
  plugin_step_ok st w st' w'.
Proof.
  intros Hall. unfold write_influxdb_udp_flush.
  destruct (0 <? send_buffer_fill st);
    [|intros [= _ <- <-]; apply plugin_step_ok_refl, Hall].
  destruct (0 <? timeout).
  - destruct (cdtime w) as [now w1] eqn:Hclock.
    assert (H1 : plugin_step_ok st w st w1).
    { split; [reflexivity|]. split; [exact Hall|].
      exists []. split; [|constructor].
      replace w1 with (snd (cdtime w)) by (rewrite Hclock; reflexivity).
      apply made_cdtime. }
    destruct (_ >? now); [intros [= _ <- <-]; exact H1|].
    destruct (flush_buffer fuel st w1) as [[st2 w2]|] eqn:Hflush;
      [|discriminate].
    intros [= _ <- <-]. eapply plugin_step_ok_trans; [exact H1|].
    eapply flush_buffer_step_ok; eassumption.
  - destruct (flush_buffer fuel st w) as [[st2 w2]|] eqn:Hflush;
      [|discriminate].
    intros [= _ <- <-]. eapply flush_buffer_step_ok; eassumption.
Qed.

Lemma wifxudp_run_step_ok fuel (events : list wifxudp_event) :
  forall st st' w w',
    Forall endpoint_ok (sending_sockets st) ->
    wifxudp_run fuel events st w = Some (st', w') ->
    plugin_step_ok st w st' w'.
Proof.
  induction events as [|ev events IH]; intros st st' w w' Hall Hrun.
  - injection Hrun as <- <-. apply plugin_step_ok_refl, Hall.
  - cbn [wifxudp_run] in Hrun.
    assert (Hstep : forall o,
               match ev with
               | point_written status buffer =>
                   write_influxdb_udp_write fuel status buffer st w
               | flush_called timeout =>
                   write_influxdb_udp_flush fuel timeout st w
               end = Some o ->
               plugin_step_ok st w (snd (fst o)) (snd o)).
    { intros [[r st1] w1]. destruct ev as [status buffer|timeout].
      - apply write_influxdb_udp_write_step_ok, Hall.
      - apply write_influxdb_udp_flush_step_ok, Hall. }
    destruct (match ev with
              | point_written _ _ => _
              | flush_called _ => _
              end) as [[[r st1] w1]|]; [|discriminate].
    specialize (Hstep _ eq_refl). cbn [fst snd] in Hstep.
    eapply plugin_step_ok_trans; [exact Hstep|].
    apply IH; [apply Hstep|exact Hrun].
Qed.

(** X10 (only open descriptors are used, and an endpoint stays what it
    was configured as): let every endpoint that holds a socket have its
    peer's address cached, as is the case when none holds a socket.  Then
    after any run of writes and flushes that returns, the endpoints are the
    same in number and order, each with the node, service, resolve interval
    and bind address it had, and each still with an address if it holds a
    socket; and every [sendto], [close], [setsockopt] and [bind] the run
    made named a descriptor that is not negative, every [sendto] passed a
    destination address, and every [setsockopt] a value from 1 to 255. *)
Theorem X10_only_open_descriptors_are_used :
  forall (fuel : nat) (events : list wifxudp_event)
    (st st' : statics) (w w' : os),
    Forall endpoint_ok (sending_sockets st) ->
    wifxudp_run fuel events st w = Some (st', w') ->
    map identity (sending_sockets st') = map identity (sending_sockets st)
    /\ Forall endpoint_ok (sending_sockets st')
    /\ exists l, trace w' = trace w ++ l /\ Forall call_ok l.
Proof.
  intros fuel events st st' w w' Hall Hsome.
  destruct (wifxudp_run_step_ok fuel events st st' w w' Hall Hsome)
    as (Hid & Hok & l & [Htr _] & Hl).
  split; [exact Hid|]. split; [exact Hok|]. exists l. auto.
Qed.

End WifxudpInvariants.

(** ** [src/write_influxdb_udp.c]: configuration and start *)
Section WifxudpConfiguration.

Import CInt Wifxudp Oconfig WifxudpConfig.

Context {U : ConfigUtils}.

Implicit Types (p : plugin_vars) (child : oconfig_item_t) (st : statics)
  (se : sockent_t).









End WifxudpConfiguration.

(** ** [src/write_influxdb_udp.c]: shutdown *)
Section WifxudpShutdown.

Import CInt Wifxudp Oconfig WifxudpConfig.

Implicit Types (se : sockent_t) (w : os) (st : statics)
  (sockets : list sockent_t) (fuel : nat).

Lemma disconnect_all_spec sockets :
  forall w,
    let sockets' := fst (disconnect_all sockets w) in
    let w' := snd (disconnect_all sockets w) in
    trace w' = trace w ++ map sys_close (open_descriptors sockets)
    /\ oracle w' = oracle w
    /\ Forall (fun se => fd (client se) < 0) sockets'.
Proof.
  induction sockets as [|se sockets IH]; intros w.
  - simpl. rewrite app_nil_r. auto.
  - cbn [disconnect_all].
    destruct (sockent_client_disconnect se w) as [se1 w1] eqn:Hdis.
    assert (Hone : trace w1
                   = trace w
                     ++ map sys_close (open_descriptors [se])
                   /\ oracle w1 = oracle w /\ fd (client se1) < 0).
    { unfold sockent_client_disconnect in Hdis.
      unfold open_descriptors. cbn [filter].
      destruct (0 <=? fd (client se)) eqn:Hfd; injection Hdis as <- <-.
      - simpl. repeat split.
      - apply Z.leb_gt in Hfd. simpl. rewrite app_nil_r. auto. }
    destruct Hone as (Htr1 & Ho1 & Hfd1).
    specialize (IH w1). destruct (disconnect_all sockets w1) as [rest' w2].
    cbn [fst snd] in *. destruct IH as (Htr & Ho & Hall).
    split.
    { rewrite Htr, Htr1, <- app_assoc. f_equal.
      unfold open_descriptors. cbn [filter].
      destruct (0 <=? fd (client se)); reflexivity. }
    split; [congruence|]. constructor; assumption.
Qed.

Lemma sockent_destroy_closed sockets :
  forall w,
    Forall (fun se => fd (client se) < 0) sockets ->
    sockent_destroy sockets w = w.
Proof.
  induction sockets as [|se sockets IH]; intros w Hall; [reflexivity|].
  inversion Hall as [|? ? Hse Hrest]; subst.
  unfold sockent_destroy. cbn [fold_left].
  unfold free_sockent_client at 2.
  replace (0 <=? fd (client se)) with false
    by (symmetry; apply Z.leb_gt; exact Hse).
  cbn [snd]. apply IH, Hrest.
Qed.

Lemma shutdown_after_flush fuel st w st1 w1 :
  (if 0 <? send_buffer_fill st then flush_buffer fuel st w
   else Some (st, w)) = Some (st1, w1) ->
  exists w',
    write_influxdb_udp_shutdown fuel st w = Some (0, w')
    /\ trace w'
       = trace w1 ++ map sys_close (open_descriptors (sending_sockets st1))
    /\ oracle w' = oracle w1.
Proof.
  intros Hflush. unfold write_influxdb_udp_shutdown. rewrite Hflush.
  destruct (disconnect_all_spec (sending_sockets st1) w1) as (Htr & Ho & Hall).
  destruct (disconnect_all (sending_sockets st1) w1) as [sockets w2].
  cbn [fst snd] in *. rewrite (sockent_destroy_closed sockets w2 Hall).
  exists w2. auto.
Qed.

Lemma open_descriptors_healthy sockets :
  Forall healthy sockets ->
  open_descriptors sockets = map (fun se => fd (client se)) sockets.
Proof.
  intros Hall. unfold open_descriptors. f_equal.
  induction Hall as [|se sockets [Hfd _] _ IH]; [reflexivity|].
  cbn [filter]. replace (0 <=? fd (client se)) with true
    by (symmetry; apply Z.leb_le; exact Hfd).
  rewrite IH. reflexivity.
Qed.

(** X12 (shutdown flushes what is pending, then closes every socket once):
    when [write_influxdb_udp_shutdown] returns, it returns 0, the buffer
    was flushed first if and only if it held something, and the calls made
    after that are exactly one [close] for each endpoint that then held a
    socket, in the order of the list: no descriptor is closed twice, none
    is left open, and nothing is sent after a [close].  With an empty
    buffer it always returns.  On a system in which no call fails, with
    every endpoint in good health, it returns after sending the bytes held
    to every endpoint and closing every endpoint's socket. *)
Theorem X12_shutdown_flushes_then_closes :
  forall (fuel : nat) (st : statics) (w : os),
    (forall r w',
        write_influxdb_udp_shutdown fuel st w = Some (r, w') ->
        r = 0
        /\ exists st1 w1,
            (if 0 <? send_buffer_fill st
             then flush_buffer fuel st w = Some (st1, w1)
             else (st1, w1) = (st, w))
            /\ trace w'
               = trace w1
                 ++ map sys_close (open_descriptors (sending_sockets st1)))
    /\ (send_buffer_fill st <= 0 ->
        exists w',
          write_influxdb_udp_shutdown fuel st w = Some (0, w')
          /\ trace w'
             = trace w ++ map sys_close (open_descriptors (sending_sockets st)))
    /\ (buffer_ok st -> Forall healthy (sending_sockets st) ->
        never_fails w ->
        exists w',
          write_influxdb_udp_shutdown (S fuel) st w = Some (0, w')
          /\ trace w'
             = trace w
               ++ (if 0 <? send_buffer_fill st
                   then sent_to_all (sending_sockets st)
                          (buffer_prefix st (send_buffer_fill st))
                   else [])
               ++ map sys_close
                    (map (fun se => fd (client se)) (sending_sockets st))).
Proof.
  intros fuel st w. split; [|split].
  - intros r w' Hshut.
    destruct (if 0 <? send_buffer_fill st then flush_buffer fuel st w
              else Some (st, w)) as [[st1 w1]|] eqn:Hflush.
    + destruct (shutdown_after_flush fuel st w st1 w1 Hflush)
        as (w2 & Hshut2 & Htr & _).
      rewrite Hshut in Hshut2. injection Hshut2 as -> ->.
      split; [reflexivity|]. exists st1, w1. split; [|exact Htr].
      destruct (0 <? send_buffer_fill st); [exact Hflush|].
      injection Hflush as <- <-. reflexivity.
    + unfold write_influxdb_udp_shutdown in Hshut. rewrite Hflush in Hshut.
      discriminate.
  - intros Hempty.
    destruct (shutdown_after_flush fuel st w st w) as (w' & Hshut & Htr & _).
    { replace (0 <? send_buffer_fill st) with false; [reflexivity|].
      symmetry. apply Z.ltb_ge. exact Hempty. }
    exists w'. auto.
  - intros Hok Hall Hw.
    rewrite <- (open_descriptors_healthy _ Hall).
    destruct (0 <? send_buffer_fill st) eqn:Hfill.
    + destruct (flush_healthy fuel st w Hall Hw) as (w1 & Hflush & Ho & Htr1).
      destruct (shutdown_after_flush (S fuel) st w
                  (write_influxdb_udp_init_buffer st) w1)
        as (w' & Hshut & Htr & _); [rewrite Hfill; exact Hflush|].
      exists w'. split; [exact Hshut|].
      rewrite Htr, Htr1, <- app_assoc.
      destruct Hok as (Hsize & _ & _ & Hrange & _).
      rewrite u64_of_size by lia. reflexivity.
    + destruct (shutdown_after_flush (S fuel) st w st w)
        as (w' & Hshut & Htr & _); [rewrite Hfill; reflexivity|].
      exists w'. split; [exact Hshut|]. exact Htr.
Qed.

End WifxudpShutdown.

(** ** [src/write_influxdb_udp.c]: which address an endpoint connects to *)
Section WifxudpConnect.

Import CInt Wifxudp.

Implicit Types (se : sockent_t) (w : os) (ttl : Z) (ai : addrinfo)
  (l : list syscall).







End WifxudpConnect.

(** ** [src/statsd.c]: configuration *)
Section StatsdConfiguration.

Import CInt Double Statsd Oconfig StatsdConfig.

Context {U : ConfigUtils}.

Implicit Types (s : settings) (child : oconfig_item_t) (a b k : string).



Lemma get_flag_percentiles (f : flag) child s :
  conf_timer_percentile (conf (get_flag f child s))
  = conf_timer_percentile (conf s).
Proof. reflexivity. Qed.




End StatsdConfiguration.

(** ** [src/statsd.c]: the sockets of the network thread *)
Section StatsdSockets.

Import CInt CStr Statsd StatsdNet.

Implicit Types (n : net) (l : list (net_call * Z)) (fds : list Z)
  (c : net_call).

Lemma since_refl n : since n n [].
Proof. split; [rewrite app_nil_r|]; reflexivity. Qed.

Lemma since_trans n1 n2 n3 l1 l2 :
  since n1 n2 l1 -> since n2 n3 l2 -> since n1 n3 (l1 ++ l2).
Proof.
  intros [Hd1 Ha1] [Hd2 Ha2]. split; [|congruence].
  rewrite Hd2, Hd1, app_assoc. reflexivity.
Qed.

Lemma since_ask c n :
  since n (snd (ask c n)) [(c, n_status (answers n (asked n)))].
Proof. split; reflexivity. Qed.

Lemma since_close (fd : Z) n : since n (close fd n) [(net_close fd, 0)].
Proof. split; reflexivity. Qed.

Lemma opened_app l1 l2 : opened (l1 ++ l2) = opened l1 ++ opened l2.
Proof. apply flat_map_app. Qed.

Lemma closed_app l1 l2 : closed (l1 ++ l2) = closed l1 ++ closed l2.
Proof. apply flat_map_app. Qed.

Lemma bound_app l1 l2 : bound (l1 ++ l2) = bound l1 ++ bound l2.
Proof. apply flat_map_app. Qed.

Lemma waited_on_app l1 l2 :
  waited_on (l1 ++ l2) = waited_on l1 ++ waited_on l2.
Proof. apply filter_app. Qed.

(** The loop over the addresses: the descriptors it adds are those it
    opened and did not close again, each of them bound. *)
Lemma listen_on_spec (ai_list : list Wifxudp.addrinfo) :
  forall fds n,
    exists (new : list Z) l,
      fst (listen_on ai_list fds n) = fds ++ new
      /\ since n (snd (listen_on ai_list fds n)) l
      /\ Permutation (opened l) (new ++ closed l)
      /\ incl new (bound l)
      /\ waited_on l = [].
Proof.
  induction ai_list as [|ai ais IH]; intros fds n.
  - exists [], []. simpl. rewrite app_nil_r.
    split; [reflexivity|]. split; [apply since_refl|].
    split; [constructor|]. split; [apply incl_refl|reflexivity].
  - cbn [listen_on].
    pose proof (since_ask (net_socket ai) n) as H1.
    destruct (ask (net_socket ai) n) as [r n1] eqn:Hask1.
    assert (Hr : r = answers n (asked n))
      by (unfold ask in Hask1; congruence).
    cbn [snd] in H1. rewrite <- Hr in H1.
    set (fd := i32 (n_status r)) in *.
    destruct (fd <? 0) eqn:Hfd.
    { destruct (IH fds n1) as (new & l & Hres & Hl & Hperm & Hb & Hw).
      exists new, ([(net_socket ai, n_status r)] ++ l).
      split; [exact Hres|]. split; [eapply since_trans; eassumption|].
      rewrite opened_app, closed_app, bound_app, waited_on_app.
      cbn [opened closed bound waited_on flat_map filter app]. fold fd.
      rewrite Hfd. cbn [app]. rewrite Hw. auto. }
    pose proof (since_ask (net_setsockopt_reuseaddr fd) n1) as H2.
    destruct (ask (net_setsockopt_reuseaddr fd) n1) as [r2 n2] eqn:Hask2.
    assert (Hr2 : r2 = answers n1 (asked n1))
      by (unfold ask in Hask2; congruence).
    cbn [snd] in H2. rewrite <- Hr2 in H2.
    destruct (n_status r2 =? -1).
    { destruct (IH fds (close fd n2)) as (new & l & Hres & Hl & Hperm & Hb & Hw).
      exists new,
        (([(net_socket ai, n_status r)]
          ++ [(net_setsockopt_reuseaddr fd, n_status r2)]
          ++ [(net_close fd, 0)]) ++ l).
      split; [exact Hres|]. split.
      { eapply since_trans; [|exact Hl].
        eapply since_trans; [exact H1|].
        eapply since_trans; [exact H2|apply since_close]. }
      rewrite opened_app, closed_app, bound_app, waited_on_app.
      cbn [opened closed bound waited_on flat_map filter app]. fold fd.
      rewrite Hfd. cbn [app]. rewrite Hw.
      split; [|split; [exact Hb|reflexivity]].
      apply Permutation_cons_app. exact Hperm. }
    pose proof (since_ask (net_bind fd (Wifxudp.ai_addr ai)) n2) as H3.
    destruct (ask (net_bind fd (Wifxudp.ai_addr ai)) n2) as [r3 n3] eqn:Hask3.
    assert (Hr3 : r3 = answers n2 (asked n2))
      by (unfold ask in Hask3; congruence).
    cbn [snd] in H3. rewrite <- Hr3 in H3.
    destruct (n_status r3 =? 0) eqn:Hbind; cbn [negb].
    + apply Z.eqb_eq in Hbind.
      destruct (IH (fds ++ [fd]) n3) as (new & l & Hres & Hl & Hperm & Hb & Hw).
      exists (fd :: new),
        (([(net_socket ai, n_status r)]
          ++ [(net_setsockopt_reuseaddr fd, n_status r2)]
          ++ [(net_bind fd (Wifxudp.ai_addr ai), n_status r3)]) ++ l).
      split; [rewrite Hres, <- app_assoc; reflexivity|]. split.
      { eapply since_trans; [|exact Hl].
        eapply since_trans; [exact H1|].
        eapply since_trans; [exact H2|exact H3]. }
      rewrite opened_app, closed_app, bound_app, waited_on_app.
      cbn [opened closed bound waited_on flat_map filter app]. fold fd.
      rewrite Hfd, Hbind. cbn [app]. rewrite Hw.
      split; [apply perm_skip, Hperm|].
      split; [|reflexivity].
      apply incl_cons; [left; reflexivity|apply incl_tl, Hb].
    + destruct (IH fds (close fd n3)) as (new & l & Hres & Hl & Hperm & Hb & Hw).
      exists new,
        (([(net_socket ai, n_status r)]
          ++ [(net_setsockopt_reuseaddr fd, n_status r2)]
          ++ [(net_bind fd (Wifxudp.ai_addr ai), n_status r3)]
          ++ [(net_close fd, 0)]) ++ l).
      split; [exact Hres|]. split.
      { eapply since_trans; [|exact Hl].
        eapply since_trans; [exact H1|].
        eapply since_trans; [exact H2|].
        eapply since_trans; [exact H3|apply since_close]. }
      rewrite opened_app, closed_app, bound_app, waited_on_app.
      cbn [opened closed bound waited_on flat_map filter app]. fold fd.
      rewrite Hfd. cbn [app]. rewrite Hw.
      split; [apply Permutation_cons_app; exact Hperm|].
      split; [|reflexivity].
      apply Z.eqb_neq in Hbind.
      destruct (n_status r3) eqn:Hs3; [congruence|exact Hb|exact Hb].
Qed.

Lemma statsd_network_init_spec :
  forall (conf_node conf_service : option string) (n : net),
    let status :=
      fst (fst (statsd_network_init conf_node conf_service n)) in
    let fds := snd (fst (statsd_network_init conf_node conf_service n)) in
    let n' := snd (statsd_network_init conf_node conf_service n) in
    let resolved := answers n (asked n) in
    exists l,
      since n n' l
      /\ Permutation (opened l) (fds ++ closed l)
      /\ incl fds (bound l)
      /\ waited_on l = []
      /\ (status = 0 <-> fds <> [])
      /\ (n_status resolved <> 0 ->
          status = n_status resolved /\ List.length l = 1%nat)
      /\ (n_status resolved = 0 -> fds = [] -> status = ENOENT).
Proof.
  intros conf_node conf_service n. cbv zeta.
  unfold statsd_network_init.
  set (service := match conf_service with
                  | Some s => s
                  | None => STATSD_DEFAULT_SERVICE
                  end).
  pose proof (since_ask (net_getaddrinfo conf_node service) n) as H1.
  destruct (ask (net_getaddrinfo conf_node service) n) as [r n1] eqn:Hask.
  assert (Hr : r = answers n (asked n)) by (unfold ask in Hask; congruence).
  cbn [snd] in H1. rewrite <- Hr in *.
  destruct (n_status r =? 0) eqn:Hres; cbn [negb].
  - apply Z.eqb_eq in Hres.
    destruct (listen_on_spec (n_addrinfo r) [] n1)
      as (new & l & Hfds & Hl & Hperm & Hb & Hw).
    destruct (listen_on (n_addrinfo r) [] n1) as [fds n2].
    cbn [fst snd app] in Hfds, Hl. subst new.
    exists ([(net_getaddrinfo conf_node service, n_status r)] ++ l).
    assert (Hsince : since n n2
                       ([(net_getaddrinfo conf_node service, n_status r)]
                        ++ l))
      by (eapply since_trans; eassumption).
    rewrite opened_app, closed_app, bound_app, waited_on_app.
    cbn [opened closed bound waited_on flat_map filter app]. rewrite Hw.
    destruct fds as [|fd fds]; cbn [fst snd].
    + split; [exact Hsince|]. split; [exact Hperm|].
      split; [apply incl_nil_l|]. split; [reflexivity|].
      split; [unfold ENOENT; split; [discriminate|congruence]|].
      split; [congruence|reflexivity].
    + split; [exact Hsince|]. split; [exact Hperm|].
      split; [exact Hb|]. split; [reflexivity|].
      split; [split; [discriminate|reflexivity]|].
      split; [congruence|discriminate].
  - apply Z.eqb_neq in Hres. cbn [fst snd].
    exists [(net_getaddrinfo conf_node service, n_status r)].
    split; [exact H1|]. split; [constructor|].
    split; [apply incl_nil_l|]. split; [reflexivity|].
    split; [split; [intros H; congruence|congruence]|].
    split; [auto|congruence].
Qed.



Lemma wait_on_quiet (fds : list Z) l :
  Forall (wait_on fds) l -> opened l = [] /\ closed l = [].
Proof.
  induction 1 as [|[c s] l Hc _ [IHo IHc]]; [auto|].
  unfold wait_on in Hc; cbn [fst] in Hc.
  destruct c; try destruct Hc; cbn [opened closed flat_map app]; auto.
Qed.

Lemma network_read_spec (fd : Z) n :
  since n (snd (network_read fd n))
    [(net_recv fd, n_status (answers n (asked n)))].
Proof.
  unfold network_read. pose proof (since_ask (net_recv fd) n) as H.
  destruct (ask (net_recv fd) n) as [r n1]. cbn [snd] in H.
  destruct (n_status r <? 0); exact H.
Qed.

(** The descriptors read after a [poll] are among those polled. *)
Lemma read_ready_spec (all : list Z) fds :
  forall (revents : list Z) n,
    incl fds all ->
    exists l, since n (snd (read_ready fds revents n)) l
              /\ Forall (wait_on all) l.
Proof.
  induction fds as [|fd fds IH]; intros revents n Hincl.
  - exists []. split; [apply since_refl|constructor].
  - cbn [read_ready].
    set (ready := match revents with
                  | ev :: _ => negb (Z.land ev (Z.lor POLLIN POLLPRI) =? 0)
                  | [] => false
                  end).
    assert (Hfirst : exists l1,
               since n (snd (if ready then network_read fd n else (None, n)))
                 l1
               /\ Forall (wait_on all) l1).
    { destruct ready.
      - eexists. split; [apply network_read_spec|].
        constructor; [|constructor]. apply Hincl. left; reflexivity.
      - exists []. split; [apply since_refl|constructor]. }
    destruct Hfirst as (l1 & H1 & Hw1).
    destruct (if ready then network_read fd n else (None, n)) as [got n1].
    cbn [snd] in H1.
    destruct (IH (List.tl revents) n1) as (l2 & H2 & Hw2).
    { intros x Hx. apply Hincl. right; exact Hx. }
    destruct (read_ready fds (List.tl revents) n1) as [more n2].
    cbn [snd] in *. exists (l1 ++ l2).
    split; [eapply since_trans; eassumption|apply Forall_app; auto].
Qed.

Lemma network_loop_spec fuel (shutdown : nat -> bool) fds :
  forall (i : nat) n datagrams n',
    network_loop fuel shutdown i fds n = Some (datagrams, n') ->
    exists l, since n n' l /\ Forall (wait_on fds) l
              /\ (shutdown i = true -> l = [] /\ datagrams = []).
Proof.
  induction fuel as [|fuel IH]; intros i n datagrams n' Hloop;
    [discriminate|].
  cbn [network_loop] in Hloop.
  destruct (shutdown i) eqn:Hsh.
  { injection Hloop as <- <-. exists [].
    split; [apply since_refl|]. split; [constructor|auto]. }
  pose proof (since_ask (net_poll fds) n) as H1.
  destruct (ask (net_poll fds) n) as [r n1]. cbn [snd] in H1.
  assert (Hw1 : Forall (wait_on fds)
                  [(net_poll fds, n_status (answers n (asked n)))])
    by (constructor; [reflexivity|constructor]).
  destruct (n_status r <? 0).
  - destruct ((n_errno r =? EINTR) || (n_errno r =? EAGAIN)).
    + destruct (IH _ _ _ _ Hloop) as (l & Hl & Hw & _).
      eexists. split; [eapply since_trans; eassumption|].
      split; [apply Forall_app; auto|discriminate].
    + injection Hloop as <- <-. eexists.
      split; [exact H1|]. split; [exact Hw1|discriminate].
  - destruct (read_ready_spec fds fds (n_revents r) n1 (incl_refl _))
      as (l2 & H2 & Hw2).
    destruct (read_ready fds (n_revents r) n1) as [got n2]. cbn [snd] in H2.
    destruct (network_loop fuel shutdown (S i) fds n2) as [[more n3]|] eqn:Hrest;
      [|discriminate].
    injection Hloop as <- <-.
    destruct (IH _ _ _ _ Hrest) as (l & Hl & Hw & _).
    exists ([(net_poll fds, n_status (answers n (asked n)))] ++ l2 ++ l).
    split.
    { eapply since_trans; [exact H1|]. eapply since_trans; eassumption. }
    split; [|discriminate].
    apply Forall_app. split; [exact Hw1|]. apply Forall_app. auto.
Qed.

Lemma close_all_spec fds : forall n, since n (close_all fds n) (closes fds).
Proof.
  induction fds as [|fd fds IH]; intros n; [apply since_refl|].
  unfold close_all. cbn [fold_left].
  change (closes (fd :: fds)) with ([(net_close fd, 0)] ++ closes fds).
  eapply since_trans; [apply since_close|apply IH].
Qed.

Lemma closed_closes fds : closed (closes fds) = fds /\ opened (closes fds) = [].
Proof.
  induction fds as [|fd fds [IHc IHo]]; [auto|].
  unfold closes. cbn [map closed opened flat_map app].
  fold (closes fds). fold (closed (closes fds)). fold (opened (closes fds)).
  rewrite IHc, IHo. auto.
Qed.

(** X16 (the network thread closes what it opened): when
    [statsd_network_thread] returns, its calls are those of
    [statsd_network_init], then [poll] on the descriptors that handed back
    and [recv] on some of them, then one [close] for each of them; every
    descriptor that [socket] returned has by then been closed, as a
    multiset.  If [statsd_network_init] fails, or if the shutdown flag is
    set when the thread first reads it, nothing is polled or read and no
    datagram is parsed. *)
Theorem X16_thread_closes_what_it_opened :
  forall (fuel : nat) (shutdown : nat -> bool)
    (conf_node conf_service : option string) (n n' : net)
    (datagrams : list string),
    statsd_network_thread fuel shutdown conf_node conf_service n
    = Some (datagrams, n') ->
    let status :=
      fst (fst (statsd_network_init conf_node conf_service n)) in
    let fds := snd (fst (statsd_network_init conf_node conf_service n)) in
    let listening := snd (statsd_network_init conf_node conf_service n) in
    exists l_init l_loop l_close,
      since n listening l_init
      /\ done n' = done n ++ l_init ++ l_loop ++ l_close
      /\ Forall (wait_on fds) l_loop
      /\ (l_close = if status =? 0 then closes fds else [])
      /\ Permutation (opened (l_init ++ l_loop ++ l_close))
           (closed (l_init ++ l_loop ++ l_close))
      /\ (status <> 0 \/ shutdown 0%nat = true ->
          l_loop = [] /\ datagrams = []).
Proof.
  intros fuel shutdown conf_node conf_service n n' datagrams Hthread.
  destruct (statsd_network_init_spec conf_node conf_service n)
    as (l_init & Hinit & Hperm & _ & _ & Hstatus & _).
  cbv zeta in *. unfold statsd_network_thread in Hthread.
  destruct (statsd_network_init conf_node conf_service n)
    as [[status fds] n1].
  cbn [fst snd] in *.
  destruct (status =? 0) eqn:Hst; cbn [negb] in Hthread.
  - destruct (network_loop fuel shutdown 0 fds n1) as [[d n2]|] eqn:Hloop;
      [|discriminate].
    injection Hthread as <- <-.
    destruct (network_loop_spec _ _ _ _ _ _ _ Hloop) as (l & Hl & Hw & Hsh).
    exists l_init, l, (closes fds).
    split; [exact Hinit|]. split.
    { destruct (since_trans _ _ _ _ _ Hinit
                  (since_trans _ _ _ _ _ Hl (close_all_spec fds n2)))
        as [Hd _]. exact Hd. }
    split; [exact Hw|]. split; [reflexivity|]. split.
    { destruct (wait_on_quiet fds l Hw) as [Ho Hc].
      destruct (closed_closes fds) as [Hcc Hoc].
      rewrite !opened_app, !closed_app, Ho, Hc, Hcc, Hoc.
      cbn [app]. rewrite app_nil_r.
      eapply Permutation_trans; [exact Hperm|apply Permutation_app_comm]. }
    intros [Hne|Hflag]; [apply Z.eqb_eq in Hst; congruence|auto].
  - injection Hthread as <- <-.
    exists l_init, [], []. split; [exact Hinit|]. split.
    { destruct Hinit as [Hd _]. rewrite Hd, !app_nil_r. reflexivity. }
    split; [constructor|]. split; [reflexivity|]. split; [|auto].
    rewrite !app_nil_r.
    assert (Hfds : fds = []).
    { destruct fds; [reflexivity|].
      apply Z.eqb_neq in Hst. exfalso. apply Hst, Hstatus. discriminate. }
    rewrite Hfds in Hperm. exact Hperm.
Qed.

End StatsdSockets.

(** ** [src/statsd.c]: init, shutdown and what comes after *)
Section StatsdLife.

Import CInt CStr Avl Statsd StatsdNet.

Context {E : Externals}.

Implicit Types (s : plugin_state) (n : net) (created : Z).

Lemma waited_on_closes (fds : list Z) : waited_on (closes fds) = [].
Proof. induction fds as [|fd fds IH]; [reflexivity|exact IH]. Qed.

(** A thread that finds the shutdown flag set the first time it reads it
    opens its sockets, closes them and returns. *)
Lemma thread_with_flag_set (fuel : nat) (shutdown : nat -> bool)
  (conf_node conf_service : option string) n :
  shutdown 0%nat = true ->
  exists n' l,
    statsd_network_thread (S fuel) shutdown conf_node conf_service n
    = Some ([], n')
    /\ since n n' l /\ waited_on l = []
    /\ Permutation (opened l) (closed l).
Proof.
  intros Hflag.
  destruct (statsd_network_init_spec conf_node conf_service n)
    as (l_init & Hinit & Hperm & _ & Hquiet & Hstatus & _).
  cbv zeta in *. unfold statsd_network_thread.
  destruct (statsd_network_init conf_node conf_service n)
    as [[status fds] n1].
  cbn [fst snd] in *.
  destruct (status =? 0) eqn:Hst; cbn [negb].
  - cbn [network_loop]. rewrite Hflag.
    exists (close_all fds n1), (l_init ++ closes fds).
    split; [reflexivity|].
    split; [eapply since_trans; [exact Hinit|apply close_all_spec]|].
    split; [rewrite waited_on_app, Hquiet, waited_on_closes; reflexivity|].
    destruct (closed_closes fds) as [Hcc Hoc].
    rewrite opened_app, closed_app, Hcc, Hoc, app_nil_r.
    eapply Permutation_trans; [exact Hperm|apply Permutation_app_comm].
  - exists n1, l_init. split; [reflexivity|]. split; [exact Hinit|].
    split; [exact Hquiet|].
    assert (Hfds : fds = []).
    { destruct fds; [reflexivity|].
      apply Z.eqb_neq in Hst. exfalso. apply Hst, Hstatus. discriminate. }
    rewrite Hfds in Hperm. exact Hperm.
Qed.

(** X17 (the life of the plugin): [statsd_init] creates the tree only if
    there is none, so the metrics collected survive a second call; it
    starts the network thread only if none is running and returns what
    [pthread_create] returned, leaving the thread marked as not running
    when that failed; once a thread runs, a further call changes nothing
    and starts nothing.  [statsd_shutdown] of a plugin that has a tree
    returns 0, leaves no tree and no running thread, and [statsd_read]
    then returns 0 and dispatches nothing.  The shutdown flag is set by
    [statsd_shutdown] when a thread runs and nothing clears it: a thread
    started by a later [statsd_init] finds it set, reads no datagram,
    closes the sockets it opened and returns. *)
Theorem X17_life_of_the_plugin :
  forall (s : plugin_state) (created : Z),
    let status := fst (fst (statsd_init created s)) in
    let after := snd (fst (statsd_init created s)) in
    let started := snd (statsd_init created s) in
    metrics_tree after
    = Some match metrics_tree s with
           | Some t => t
           | None => c_avl_create
           end
    /\ status = (if network_thread_running s then 0 else created)
    /\ (started = true <-> network_thread_running s = false /\ created = 0)
    /\ (network_thread_running after = true
        <-> network_thread_running s = true \/ created = 0)
    /\ network_thread_shutdown after = network_thread_shutdown s
    /\ (network_thread_running after = true ->
        forall created', statsd_init created' after = (0, after, false))
    /\ (forall t,
          metrics_tree s = Some t ->
          exists s',
            statsd_shutdown s = Some (0, s')
            /\ metrics_tree s' = None
            /\ network_thread_running s' = false
            /\ (network_thread_running s = true ->
                network_thread_shutdown s' = true)
            /\ (forall conf clock,
                  statsd_read conf clock (metrics_tree s') = (0, None, []))
            /\ (network_thread_running s = true ->
                let restarted := snd (fst (statsd_init 0 s')) in
                snd (statsd_init 0 s') = true
                /\ metrics_tree restarted = Some c_avl_create
                /\ network_thread_shutdown restarted = true
                /\ forall (fuel : nat) (shutdown : nat -> bool)
                     (conf_node conf_service : option string) (n : net),
                     shutdown 0%nat = network_thread_shutdown restarted ->
                     exists n' l,
                       statsd_network_thread (S fuel) shutdown conf_node
                         conf_service n = Some ([], n')
                       /\ since n n' l /\ waited_on l = []
                       /\ Permutation (opened l) (closed l))).
Proof.
  intros s created. cbv zeta. unfold statsd_init.
  destruct (network_thread_running s) eqn:Hrun; cbn [negb].
  - cbn [fst snd metrics_tree network_thread_running network_thread_shutdown].
    split; [destruct (metrics_tree s); reflexivity|].
    split; [reflexivity|].
    split; [split; [discriminate|intros [H _]; discriminate]|].
    split; [split; auto|]. split; [reflexivity|].
    split; [intros _ created'; destruct (metrics_tree s); reflexivity|].
    intros t Ht. unfold statsd_shutdown. rewrite Ht, Hrun.
    eexists. split; [reflexivity|].
    cbn [metrics_tree network_thread_running network_thread_shutdown negb
           fst snd Z.eqb].
    split; [reflexivity|]. split; [reflexivity|]. split; [auto|].
    split; [reflexivity|]. intros _.
    split; [reflexivity|]. split; [reflexivity|]. split; [reflexivity|].
    intros fuel shutdown conf_node conf_service n Hflag.
    apply thread_with_flag_set. exact Hflag.
  - destruct (created =? 0) eqn:Hcreated; cbn [negb fst snd metrics_tree
      network_thread_running network_thread_shutdown].
    + apply Z.eqb_eq in Hcreated. subst created.
      split; [destruct (metrics_tree s); reflexivity|].
      split; [reflexivity|].
      split; [split; auto|]. split; [split; auto|]. split; [reflexivity|].
      split; [intros _ created'; destruct (metrics_tree s); reflexivity|].
      intros t Ht. unfold statsd_shutdown. rewrite Ht, Hrun.
      eexists. split; [reflexivity|].
      cbn [metrics_tree network_thread_running network_thread_shutdown].
      split; [reflexivity|]. split; [reflexivity|].
      split; [discriminate|]. split; [reflexivity|discriminate].
    + apply Z.eqb_neq in Hcreated.
      split; [destruct (metrics_tree s); reflexivity|].
      split; [reflexivity|].
      split; [split; [discriminate|intros [_ H]; congruence]|].
      split; [split; [discriminate|intros [H|H]; congruence]|].
      split; [reflexivity|].
      split; [discriminate|].
      intros t Ht. unfold statsd_shutdown. rewrite Ht, Hrun.
      eexists. split; [reflexivity|].
      cbn [metrics_tree network_thread_running network_thread_shutdown].
      split; [reflexivity|]. split; [reflexivity|].
      split; [discriminate|]. split; [reflexivity|discriminate].
Qed.

End StatsdLife.

(** ** The properties at concrete inputs *)
Section AtConcreteInputs.

Import CInt Double CStr Avl Latency Statsd Wifxudp Examples.

Local Open Scope string_scope.

(** C1 (batcher bound): the bound fails when a point is longer than the
    configured packet.  With [MaxPacketSize 1024] and an empty buffer, a
    rendered point of 1100 bytes (the formatter fills a local buffer of
    [NET_DEFAULT_PACKET_SIZE = 1452] bytes, whatever the configured size)
    makes [write_influxdb_udp_write] flush the empty buffer and then copy
    all 1100 bytes into the 1024-byte block: the copy runs past the end of
    the block and the fill becomes 1100.  [1024 - 1100] is then computed in
    [size_t], so neither this call nor the next one flushes: after a further
    point of 100 bytes the fill is 1200, and the only datagram sent so far
    is the empty one of the first flush. *)
Theorem C1_point_longer_than_packet_overruns :
  buffer_ok (configured 1024)
  /\ observed
       (write_influxdb_udp_write 8 1100 rendered (configured 1024)
          (boot (constant_oracle 100 0 0)))
     = Some (0, 1024, 1100, true, [sendto_call (endpoint 0 0) []])
  /\ observed
       (then_write 8 100 rendered
          (write_influxdb_udp_write 8 1100 rendered (configured 1024)
             (boot (constant_oracle 100 0 0))))
     = Some (0, 1024, 1200, true, [sendto_call (endpoint 0 0) []]).
Proof.
  split; [|split]; [|vm_compute; reflexivity..].
  unfold buffer_ok. vm_compute. repeat split; discriminate.
Qed.

(** C2, refuted as stated: after the line [n:1.5|c] the residual is 1.5,
    whose floor is 1; the flush makes the total 2, not 1, and leaves the
    residual -0.5, not 0.5. *)
Lemma C2_flush_credits_nearest_not_floor :
  tree_after ["n:1.5|c"] = [("c:n", counter_cell d_1_5 0)]
  /\ floor_Z d_1_5 = Some 1
  /\ statsd_read (E := Reference.externals) conf_default clock_1000
       (Some (tree_after ["n:1.5|c"]))
     = (0,
        Some [("c:n",
               {| type := STATSD_COUNTER; value := d_minus_0_5; counter := 2;
                  latency := None; set := None; updates_num := 0 |})],
        [{| vl_values := derive 2; vl_time := 0; vl_plugin := "statsd";
            vl_type := "derive"; vl_type_instance := "n" |}]).
Proof. vm_compute. repeat split; reflexivity. Qed.

(** C3, refuted as stated: with [CounterGauge] on, after the line
    [n:1.25|c] the flush dispatches the gauge 1.25 and leaves the residual
    0.25, not 0. *)
Lemma C3_residual_not_zero_after_counter_gauge :
  statsd_read (E := Reference.externals) conf_counter_gauge_on clock_1000
    (Some (tree_after ["n:1.25|c"]))
  = (0,
     Some [("c:n",
            {| type := STATSD_COUNTER; value := d_0_25; counter := 1;
               latency := None; set := None; updates_num := 0 |})],
     [{| vl_values := gauge d_1_25; vl_time := 0; vl_plugin := "statsd";
         vl_type := "gauge"; vl_type_instance := "n" |};
      {| vl_values := derive 1; vl_time := 0; vl_plugin := "statsd";
         vl_type := "derive"; vl_type_instance := "n" |}])
  /\ SFeqb d_0_25 (S754_zero false) = false.
Proof. vm_compute. repeat split; reflexivity. Qed.


(** C9, refuted as stated: the program takes the sum in [cdtime_t], where
    it wraps.  The buffer holds 100 bytes appended at
    [1700000000 * 2^30], the clock shows [1700000001 * 2^30] and the
    flush is asked with the timeout [16000000000 * 2^30], a [cdtime_t]
    value.  The sum of last update and timeout is larger than the clock's
    reading, so the threshold is not met; the program's sum is that less
    [2^64], which is smaller than the clock's reading, and the flush sends
    the 100 bytes and reinitialises the buffer. *)
Lemma C9_flushed_before_the_threshold :
  0 < 16000000000 * 2 ^ 30
  /\ 16000000000 * 2 ^ 30 < 2 ^ 64
  /\ 0 < send_buffer_fill (holding 1024 100 (1700000000 * 2 ^ 30))
  /\ r_time (constant_oracle (1700000001 * 2 ^ 30) 0 0 0%nat)
     < send_buffer_last_update (holding 1024 100 (1700000000 * 2 ^ 30))
       + 16000000000 * 2 ^ 30
  /\ u64 (send_buffer_last_update (holding 1024 100 (1700000000 * 2 ^ 30))
          + 16000000000 * 2 ^ 30)
     = 1700000000 * 2 ^ 30 + 16000000000 * 2 ^ 30 - 2 ^ 64
  /\ observed
       (write_influxdb_udp_flush 5 (16000000000 * 2 ^ 30)
          (holding 1024 100 (1700000000 * 2 ^ 30))
          (boot (constant_oracle (1700000001 * 2 ^ 30) 0 0)))
     = Some (0, 1024, 0, false,
             [sendto_call (endpoint 0 0) (repeat Byte.x61 100)]).
Proof. vm_compute. repeat split; reflexivity. Qed.

End AtConcreteInputs.

(** ** Runs of the two plugins on literal inputs *)
Section Scenarios.

Import CInt Double CStr Avl Latency Statsd Wifxudp Examples.

Local Open Scope string_scope.

(** Five times 3 and once 2 at sample rate 0.5 make the derive 19. *)
Example counter_with_sample_rate :
  flush_of conf_default
    ["page.views:3|c"; "page.views:3|c"; "page.views:3|c"; "page.views:3|c";
     "page.views:3|c"; "page.views:2|c|@0.5"]
  = [dispatched_as "derive" "page.views" (derive 19) 0].
Proof. vm_compute. reflexivity. Qed.

(** 10, then +5, then -2 make the gauge 13. *)
Example gauge_deltas :
  flush_of conf_default ["temp:10|g"; "temp:+5|g"; "temp:-2|g"]
  = [dispatched_as "gauge" "temp" (gauge (of_Z 13)) 0].
Proof. vm_compute. reflexivity. Qed.

(** An unsigned value replaces what the deltas left. *)
Example gauge_absolute_after_delta :
  flush_of conf_default ["temp:10|g"; "temp:+5|g"; "temp:0|g"]
  = [dispatched_as "gauge" "temp" (gauge zero) 0].
Proof. vm_compute. reflexivity. Qed.

(** Two distinct members out of three lines. *)
Example set_counts_distinct_members :
  flush_of conf_default ["users:alice|s"; "users:bob|s"; "users:alice|s"]
  = [dispatched_as "objects" "users" (gauge (of_Z 2)) 0].
Proof. vm_compute. reflexivity. Qed.

(** Three samples of 100, 200 and 300 ms with every statistic on: all the
    values carry the one timestamp, in the order average, lower, upper, sum,
    percentile, count; the latencies are in seconds. *)
Example timer_statistics :
  let seconds ms :=
    gauge (Reference.cdtime_t_to_double ms) in
  let t100 := Reference.ms_to_cdtime_t (of_Z 100) in
  let t200 := Reference.ms_to_cdtime_t (of_Z 200) in
  let t300 := Reference.ms_to_cdtime_t (of_Z 300) in
  flush_of conf_timer_all ["rq:100|ms"; "rq:200|ms"; "rq:300|ms"]
  = [dispatched_as "latency" "rq-average" (seconds ((t100 + t200 + t300) / 3))
       1000;
     dispatched_as "latency" "rq-lower" (seconds t100) 1000;
     dispatched_as "latency" "rq-upper" (seconds t300) 1000;
     dispatched_as "latency" "rq-sum" (seconds (t100 + t200 + t300)) 1000;
     dispatched_as "latency" "rq-percentile-90" (seconds t300) 1000;
     dispatched_as "gauge" "rq-count" (gauge (of_Z 3)) 1000].
Proof. vm_compute. reflexivity. Qed.

(** A datagram of three lines, the second malformed: the two others are
    applied, the bad one is logged and leaves no entry. *)
Example malformed_line_is_skipped :
  statsd_network_read (E := Reference.externals)
    ("good:1|c" ++ String "010" ("bad|c" ++ String "010"
       ("fine:2|g" ++ String "010" ""))) c_avl_create
  = ([("c:good",
       {| type := STATSD_COUNTER; value := of_Z 1; counter := 0;
          latency := None; set := None; updates_num := 1 |});
      ("g:fine",
       {| type := STATSD_GAUGE; value := of_Z 2; counter := 0;
          latency := None; set := None; updates_num := 1 |})],
     ["bad|c"]).
Proof. vm_compute. reflexivity. Qed.

(** Ten points of 100 bytes with [MaxPacketSize 1024]: nothing is sent
    during the nine first writes; the tenth leaves fewer than 120 bytes
    free and sends the ten points as one datagram of 1000 bytes, after
    which the buffer is empty. *)
Example ten_points_one_datagram :
  let nine :=
    Nat.iter 8 (then_write 8 100 rendered)
      (write_influxdb_udp_write 8 100 rendered (configured 1024)
         (boot (constant_oracle 100 0 0))) in
  observed nine = Some (0, 1024, 900, false, [])
  /\ observed (then_write 8 100 rendered nine)
     = Some (0, 1024, 0, false,
             [sendto_call (endpoint 0 0) (repeat Byte.x78 1000)]).
Proof. vm_compute. split; reflexivity. Qed.

End Scenarios.

(** ** The hypotheses of the properties hold at concrete inputs *)
Section Witnesses.

Import CInt Double CStr Avl Latency Statsd Wifxudp Examples.

Local Open Scope string_scope.

Lemma C2_counter_residual_law_witness :
  type (counter_cell d_1_5 0) = STATSD_COUNTER
  /\ INT64_MIN <= counter (counter_cell d_1_5 0) <= INT64_MAX
  /\ counter (counter_run (E := Reference.externals) conf_default
                [counter_update d_1_25 one; counter_flush; counter_flush]
                (counter_cell d_1_5 0))
     = i64 (0 + fold_right Z.add 0
                  (credited (E := Reference.externals) conf_default
                     [counter_update d_1_25 one; counter_flush; counter_flush]
                     (counter_cell d_1_5 0))).
Proof.
  assert (H1 : type (counter_cell d_1_5 0) = STATSD_COUNTER) by reflexivity.
  assert (H2 : INT64_MIN <= counter (counter_cell d_1_5 0) <= INT64_MAX)
    by (vm_compute; split; discriminate).
  split; [exact H1|]. split; [exact H2|].
  exact (proj1 (proj2 (proj2
           (C2_counter_residual_law (E := Reference.externals) conf_default
              (counter_cell d_1_5 0) H1 H2))) _).
Defined.

Lemma C3_counter_gauge_keeps_residual_witness :
  type (counter_cell d_1_25 0) = STATSD_COUNTER
  /\ conf_counter_gauge conf_counter_gauge_on = true
  /\ value (snd (statsd_metric_submit_unsafe (E := Reference.externals)
                   conf_counter_gauge_on "n" (counter_cell d_1_25 0) 0))
     = sub d_1_25 (nearbyint d_1_25).
Proof.
  assert (H1 : type (counter_cell d_1_25 0) = STATSD_COUNTER) by reflexivity.
  assert (H2 : conf_counter_gauge conf_counter_gauge_on = true)
    by reflexivity.
  split; [exact H1|]. split; [exact H2|].
  exact (proj1 (proj2
           (C3_counter_gauge_keeps_residual (E := Reference.externals)
              conf_counter_gauge_on "n" (counter_cell d_1_25 0) 0 H1 H2))).
Defined.


Lemma C5_idle_deletion_witness :
  NoDup (keys ([] ++ ("g:b", gauge_cell d_1_5 0) :: [])%list)
  /\ exists t',
      statsd_read (E := Reference.externals) conf_delete_gauges_on clock_1000
        (Some [("g:b", gauge_cell d_1_5 0)]) = (0, Some t', [])
      /\ c_avl_get t' "g:b" = None.
Proof.
  assert (H : NoDup (keys ([] ++ ("g:b", gauge_cell d_1_5 0) :: [])%list))
    by (repeat constructor; simpl; tauto).
  split; [exact H|].
  destruct (C5_idle_deletion (E := Reference.externals) conf_delete_gauges_on
              clock_1000 [] "g:b" (gauge_cell d_1_5 0) [] H)
    as (loop_tree & dispatched & del & t' & _ & _ & _ & _ & Hread & Hdisp
        & Hidle & _).
  exists t'. split.
  - rewrite Hdisp in Hread. exact Hread.
  - exact (proj2 (Hidle eq_refl eq_refl)).
Defined.

Lemma C6_timer_flush_witness :
  type idle_timer_cell = STATSD_TIMER
  /\ timer_idle_consistent idle_timer_cell
  /\ Forall (fun vl => vl_time vl = 1000)
       (fst (statsd_metric_submit_unsafe (E := Reference.externals)
               conf_timer_all "rq" idle_timer_cell 1000)).
Proof.
  assert (H1 : type idle_timer_cell = STATSD_TIMER) by reflexivity.
  assert (H2 : timer_idle_consistent idle_timer_cell)
    by (intros _; reflexivity).
  split; [exact H1|]. split; [exact H2|].
  exact (proj1 (proj2
           (C6_timer_flush (E := Reference.externals) conf_timer_all "rq"
              idle_timer_cell 1000 H1 H2))).
Defined.



Lemma C9_explicit_flush_gate_witness :
  0 < 10
  /\ write_influxdb_udp_flush 5 10 (holding 1024 100 95)
       (boot (constant_oracle 100 0 0))
     = Some (0, holding 1024 100 95,
             snd (cdtime (boot (constant_oracle 100 0 0)))).
Proof.
  assert (H : 0 < 10) by reflexivity.
  split; [exact H|].
  refine (proj1 (proj1 (proj2
            (C9_explicit_flush_gate 5 10 (holding 1024 100 95)
               (boot (constant_oracle 100 0 0)) H)) _ _));
    reflexivity.
Defined.

Lemma C10_gauge_persists_witness :
  NoDup (keys [("g:temp", gauge_cell d_1_5 3)])
  /\ c_avl_get [("g:temp", gauge_cell d_1_5 3)] "g:temp"
     = Some (gauge_cell d_1_5 3)
  /\ type (gauge_cell d_1_5 3) = STATSD_GAUGE
  /\ conf_delete_gauges conf_default = false
  /\ c_avl_get
       (flushes (E := Reference.externals) conf_default (fun _ => clock_1000)
          2 [("g:temp", gauge_cell d_1_5 3)]) "g:temp"
     = Some (with_updates_num 0 (gauge_cell d_1_5 3)).
Proof.
  assert (H1 : NoDup (keys [("g:temp", gauge_cell d_1_5 3)]))
    by (repeat constructor; simpl; tauto).
  assert (H2 : c_avl_get [("g:temp", gauge_cell d_1_5 3)] "g:temp"
               = Some (gauge_cell d_1_5 3)) by reflexivity.
  assert (H3 : type (gauge_cell d_1_5 3) = STATSD_GAUGE) by reflexivity.
  assert (H4 : conf_delete_gauges conf_default = false) by reflexivity.
  split; [exact H1|]. split; [exact H2|]. split; [exact H3|].
  split; [exact H4|].
  exact (proj1 (C10_gauge_persists (E := Reference.externals) conf_default
                  (fun _ => clock_1000) _ "g:temp" _ H1 H2 H3 H4 2%nat)).
Defined.

Lemma X2_fitting_points_stay_within_the_block_witness :
  buffer_ok (configured 1024)
  /\ Forall (fits (configured 1024)) [(100, rendered); (100, rendered)]
  /\ exists st' w',
       write_points 8 [(100, rendered); (100, rendered)] (configured 1024)
         (boot (constant_oracle 100 0 0)) = Some (st', w')
       /\ send_buffer_fill st' = 200
       /\ buffer_ok st'.
Proof.
  assert (Hok : buffer_ok (configured 1024))
    by (unfold buffer_ok; vm_compute; repeat split; discriminate).
  assert (Hfits : Forall (fits (configured 1024))
                    [(100, rendered); (100, rendered)])
    by (repeat constructor; vm_compute; discriminate).
  split; [exact Hok|]. split; [exact Hfits|].
  do 2 eexists. split; [vm_compute; reflexivity|].
  split; [reflexivity|].
  refine (proj1 (X2_fitting_points_stay_within_the_block 8
                   [(100, rendered); (100, rendered)] (configured 1024) _
                   (boot (constant_oracle 100 0 0)) _ Hok Hfits _)).
  vm_compute; reflexivity.
Defined.

End Witnesses.

(** ** The further properties at concrete inputs *)
Section MoreWitnesses.

Import CInt Double CStr Avl Latency Statsd Wifxudp Oconfig WifxudpConfig
  StatsdNet Examples.

Lemma X8_long_timer_names_lose_the_suffix_witness :
  type idle_timer_cell = STATSD_TIMER
  /\ (127 <= String.length long_name)%nat
  /\ Forall (fun vl => vl_type_instance vl = take 127 long_name)
       (fst (statsd_metric_submit_unsafe (E := Reference.externals)
               conf_timer_all long_name idle_timer_cell 1000)).
Proof.
  assert (H1 : type idle_timer_cell = STATSD_TIMER) by reflexivity.
  assert (H2 : (127 <= String.length long_name)%nat)
    by (vm_compute; lia).
  split; [exact H1|]. split; [exact H2|].
  exact (X8_long_timer_names_lose_the_suffix (E := Reference.externals)
           conf_timer_all long_name idle_timer_cell 1000 H1 H2).
Defined.

Lemma X9_datagrams_are_runs_of_whole_points_witness :
  buffer_ok (configured 1024)
  /\ send_buffer_fill (configured 1024) = 0
  /\ Forall healthy (sending_sockets (configured 1024))
  /\ never_fails (boot (constant_oracle 100 0 0))
  /\ Forall (fits (configured 1024)) ten_points
  /\ exists st' w' (groups : list (list (Z * list Byte.byte)))
       (pending : list (Z * list Byte.byte)),
      write_points 1 ten_points (configured 1024)
        (boot (constant_oracle 100 0 0)) = Some (st', w')
      /\ ten_points = List.concat groups ++ pending
      /\ trace w'
         = trace (boot (constant_oracle 100 0 0))
           ++ flat_map
                (fun g =>
                   sent_to_all (sending_sockets (configured 1024)) (flatten g))
                groups
      /\ buffer_prefix st' (send_buffer_fill st') = flatten pending
      /\ Forall (fun g => 0 < Z.of_nat (List.length (flatten g))
                              <= wifxudp_config_packet_size (configured 1024))
           groups.
Proof.
  assert (H1 : buffer_ok (configured 1024))
    by (unfold buffer_ok; vm_compute; repeat split; discriminate).
  assert (H2 : send_buffer_fill (configured 1024) = 0) by reflexivity.
  assert (H3 : Forall healthy (sending_sockets (configured 1024)))
    by (repeat constructor; vm_compute; discriminate).
  assert (H4 : never_fails (boot (constant_oracle 100 0 0)))
    by (intros i; simpl; lia).
  assert (H5 : Forall (fits (configured 1024)) ten_points)
    by (repeat constructor; vm_compute; discriminate).
  split; [exact H1|]. split; [exact H2|]. split; [exact H3|].
  split; [exact H4|]. split; [exact H5|].
  exact (X9_datagrams_are_runs_of_whole_points 0 ten_points (configured 1024)
           (boot (constant_oracle 100 0 0)) H1 H2 H3 H4 H5).
Defined.

Lemma X10_only_open_descriptors_are_used_witness :
  Forall endpoint_ok (sending_sockets (configured 1024))
  /\ exists st' w',
      wifxudp_run 8 [point_written 100 rendered; flush_called 0]
        (configured 1024) (boot (constant_oracle 100 0 0)) = Some (st', w')
      /\ map identity (sending_sockets st')
         = map identity (sending_sockets (configured 1024))
      /\ Forall endpoint_ok (sending_sockets st')
      /\ exists l, trace w' = trace (boot (constant_oracle 100 0 0)) ++ l
                   /\ Forall call_ok l.
Proof.
  assert (H1 : Forall endpoint_ok (sending_sockets (configured 1024)))
    by (repeat constructor; intros _; discriminate).
  split; [exact H1|].
  do 2 eexists. split; [vm_compute; reflexivity|].
  refine (X10_only_open_descriptors_are_used 8
            [point_written 100 rendered; flush_called 0] (configured 1024) _
            (boot (constant_oracle 100 0 0)) _ H1 _).
  vm_compute; reflexivity.
Defined.


Lemma X16_thread_closes_what_it_opened_witness :
  exists n',
    statsd_network_thread 3 set_after_one_round None None
      (net_boot (net_script [0; 4; 0; 0; 1; 5])) = Some (["a:1|c"%string], n')
    /\ exists l_init l_loop l_close,
        done n' = l_init ++ l_loop ++ l_close
        /\ Forall (wait_on [4]) l_loop
        /\ l_close = closes [4]
        /\ Permutation (opened (l_init ++ l_loop ++ l_close))
             (closed (l_init ++ l_loop ++ l_close)).
Proof.
  eexists. split; [vm_compute; reflexivity|].
  destruct (X16_thread_closes_what_it_opened 3 set_after_one_round None None
              (net_boot (net_script [0; 4; 0; 0; 1; 5])) _ ["a:1|c"%string]
              ltac:(vm_compute; reflexivity))
    as (l_init & l_loop & l_close & _ & Hdone & Hw & Hclose & Hperm & _).
  exists l_init, l_loop, l_close.
  split; [exact Hdone|]. split; [exact Hw|]. split; [exact Hclose|].
  exact Hperm.
Defined.

End MoreWitnesses.
